(** * Edge-Cache-Local: the access-log parser and the metrics aggregator

    A shallow embedding of [src/metrics.py] (classes [CacheMetrics] and
    [MetricsAnalyzer]) together with the properties its specification
    states about it.

    Conventions of the embedding:
    - a Python [str] is a [string]; its characters are the code points
      below 256, and the character classes below are Python's Unicode
      classes on that range;
    - a Python [int] is a [Z]; [int] of a decimal numeral raises
      [ValueError] past the 4300 digits the interpreter allows by default;
    - a Python [float] is an IEEE-754 binary64 value, [spec_float] with
      precision 53 and maximal exponent 1024;
    - a [dict] is a [gmap]; objects live in a store indexed by reference;
    - a computation that may raise returns an [outcome]. *)

From Stdlib Require Import ZArith QArith Ascii String List Lia Bool.
From Stdlib Require Import Sorted Permutation.
From Stdlib Require Import Floats.SpecFloat.
From stdpp Require Import base option list gmap strings.

Local Open Scope string_scope.
Local Open Scope list_scope.

#[global] Arguments String.append !s1 s2 : simpl nomatch.

(** ** Characters and strings *)

Module PyStr.

Definition code (c : ascii) : nat := nat_of_ascii c.

Definition in_range (lo hi : nat) (c : ascii) : bool :=
  Nat.leb lo (code c) && Nat.leb (code c) hi.

(** The double quote, written by its code point. *)
Definition dquote : ascii := ascii_of_nat 34.
Definition q : string := String dquote EmptyString.

(** [\d]: the decimal digits (category Nd); below 256 these are 0-9. *)
Definition is_digit (c : ascii) : bool := in_range 48 57 c.

(** [\s] and [str.strip()]: the characters for which [str.isspace] holds. *)
Definition is_space (c : ascii) : bool :=
  in_range 9 13 c || in_range 28 31 c || Nat.eqb (code c) 32
  || Nat.eqb (code c) 133 || Nat.eqb (code c) 160.

(** [\w]: alphanumeric characters and the underscore. *)
Definition is_word (c : ascii) : bool :=
  in_range 48 57 c || in_range 65 90 c || in_range 97 122 c
  || Nat.eqb (code c) 95
  || Nat.eqb (code c) 170 || Nat.eqb (code c) 178 || Nat.eqb (code c) 179
  || Nat.eqb (code c) 181 || Nat.eqb (code c) 185 || Nat.eqb (code c) 186
  || in_range 188 190 c || in_range 192 214 c || in_range 216 246 c
  || in_range 248 255 c.

(** Line boundaries of [str.splitlines()]. *)
Definition is_linebreak (c : ascii) : bool :=
  in_range 10 13 c || in_range 28 30 c || Nat.eqb (code c) 133.

Definition is_char (d c : ascii) : bool := Ascii.eqb d c.

Fixpoint lstrip (s : string) : string :=
  match s with
  | String c s' => if is_space c then lstrip s' else s
  | EmptyString => EmptyString
  end.

Fixpoint rstrip (s : string) : string :=
  match s with
  | String c s' =>
      match rstrip s' with
      | EmptyString => if is_space c then EmptyString else String c EmptyString
      | r => String c r
      end
  | EmptyString => EmptyString
  end.

(** [s.strip()] *)
Definition strip (s : string) : string := rstrip (lstrip s).

(** [s.splitlines()]: [cur] is the line being read. A carriage return
    followed by a line feed is one boundary; a final boundary opens no
    further line. *)
Fixpoint splitlines_from (cur : string) (s : string) : list string :=
  match s with
  | EmptyString =>
      match cur with EmptyString => [] | _ => [cur] end
  | String c s' =>
      if is_linebreak c then
        cur :: match s' with
               | String c' s'' =>
                   if Nat.eqb (code c) 13 && Nat.eqb (code c') 10
                   then splitlines_from EmptyString s''
                   else splitlines_from EmptyString s'
               | EmptyString => splitlines_from EmptyString s'
               end
      else splitlines_from (cur ++ String c EmptyString) s'
  end.

Definition splitlines (s : string) : list string :=
  splitlines_from EmptyString s.

(** [s.startswith(p)], returning what follows the prefix. *)
Fixpoint strip_prefix (p s : string) : option string :=
  match p with
  | EmptyString => Some s
  | String a p' =>
      match s with
      | String b s' => if Ascii.eqb a b then strip_prefix p' s' else None
      | EmptyString => None
      end
  end.

End PyStr.

(** ** The regular-expression engine, for patterns of the shape of
    [LOG_PATTERN]: a sequence of literals and of named groups, a group
    holding one character class under a greedy quantifier. *)

Module Re.
Import PyStr.

Inductive item :=
  | Lit (l : string)
  | Group (name : string) (cls : ascii -> bool) (least : nat).

(** [match.groupdict()] *)
Abbreviation groupdict := (gmap string string).

Section Greedy.
Context {R : Type}.
Variable cls : ascii -> bool.
(** The rest of the pattern: it is given the text the group captured
    and the input that follows it. *)
Variable k : string -> string -> option R.

(** A greedy quantifier takes as many characters of the class as there
    are, and gives them back one at a time while the rest of the pattern
    fails. [got] is what has been taken so far. *)
Fixpoint greedy (got s : string) : option R :=
  match s with
  | String c s' =>
      if cls c then
        match greedy (got ++ String c EmptyString) s' with
        | Some r => Some r
        | None => k got s
        end
      else k got s
  | EmptyString => k got s
  end.
End Greedy.

(** [pattern.match(s)]: the pattern is anchored at the start of [s] and
    may stop anywhere in it. *)
Fixpoint match_items (its : list item) (s : string) (g : groupdict)
  : option groupdict :=
  match its with
  | [] => Some g
  | Lit l :: its' =>
      match strip_prefix l s with
      | Some s' => match_items its' s' g
      | None => None
      end
  | Group name cls least :: its' =>
      greedy cls
        (fun got rest =>
           if Nat.leb least (String.length got)
           then match_items its' rest (<[name := got]> g)
           else None)
        EmptyString s
  end.

Definition re_match (its : list item) (s : string) : option groupdict :=
  match_items its s ∅.

End Re.

(** ** [MetricsAnalyzer.LOG_PATTERN] and [parse_line] *)

Module Parser.
Import PyStr Re.

Definition digit_or_dot (c : ascii) : bool := is_digit c || is_char "." c.
Definition not_char (d c : ascii) : bool := negb (is_char d c).
Definition not_space (c : ascii) : bool := negb (is_space c).

(** The pattern, item by item (DQ is the double quote character):
    ip [\d.]+ , then the text [ - \[] ; time [^\]]+ , then [\] DQ] ;
    method [\w+] , a space; path [^\s]+ , a space; protocol [^DQ]+ ,
    then DQ and a space; status [\d+] , a space; bytes [\d+] , a space;
    latency [\d.]+ , a space and DQ; cache_status [^DQ] starred, and the
    closing DQ. The pattern starts with [^] and has no end anchor. *)
Definition LOG_PATTERN : list item :=
  [ Group "ip" digit_or_dot 1; Lit " - [";
    Group "time" (not_char "]") 1; Lit ("] " ++ q);
    Group "method" is_word 1; Lit " ";
    Group "path" not_space 1; Lit " ";
    Group "protocol" (not_char dquote) 1; Lit (q ++ " ");
    Group "status" is_digit 1; Lit " ";
    Group "bytes" is_digit 1; Lit " ";
    Group "latency" digit_or_dot 1; Lit (" " ++ q);
    Group "cache_status" (not_char dquote) 0; Lit q ].

Definition parse_line (line : string) : option groupdict :=
  re_match LOG_PATTERN (strip line).

(** The lines of the specification's scenarios. *)
Definition line_hit : string :=
  "192.168.1.100 - [27/Oct/2025:10:00:00 +0000] " ++ q ++
  "GET /api/static HTTP/1.1" ++ q ++ " 200 1234 0.050 " ++ q ++ "HIT" ++ q.

(** The sample of [tests/conftest.py], fixture [sample_log_lines]. *)
Definition sample_line (ip time path status bytes latency cache : string)
  : string :=
  ip ++ " - [27/Oct/2025:10:00:" ++ time ++ " +0000] " ++ q ++ "GET " ++ path
  ++ " HTTP/1.1" ++ q ++ " " ++ status ++ " " ++ bytes ++ " " ++ latency ++ " "
  ++ q ++ cache ++ q.

Definition sample_log_lines : list string :=
  [ sample_line "192.168.1.100" "00" "/api/static" "200" "1234" "0.050" "HIT";
    sample_line "192.168.1.101" "01" "/api/static" "200" "1234" "0.045" "HIT";
    sample_line "192.168.1.102" "02" "/api/dynamic" "200" "567" "0.120" "MISS";
    sample_line "192.168.1.103" "03" "/api/no-cache" "200" "890" "0.080" "BYPASS";
    sample_line "192.168.1.104" "04" "/api/data" "200" "2345" "0.095" "MISS";
    sample_line "192.168.1.105" "05" "/api/data" "200" "2345" "0.035" "HIT";
    sample_line "192.168.1.106" "06" "/api/static" "304" "0" "0.025" "HIT";
    sample_line "192.168.1.107" "07" "/api/unknown" "404" "512" "0.090" "MISS";
    sample_line "192.168.1.108" "08" "/api/error" "500" "256" "0.150" "MISS";
    sample_line "192.168.1.109" "09" "/api/static" "200" "1234" "0.030" "HIT" ].

Definition newline : string := String (ascii_of_nat 10) EmptyString.

Definition sample_log : string :=
  fold_right (fun line rest => String.append line (String.append newline rest))
    EmptyString sample_log_lines.

Definition line_notanumber : string :=
  "192.168.1.1 - [27/Oct/2025:10:00:00 +0000] " ++ q ++
  "GET / HTTP/1.1" ++ q ++ " 200 100 notanumber " ++ q ++ "HIT" ++ q.

Definition line_two_dots : string :=
  "192.168.1.1 - [27/Oct/2025:10:00:00 +0000] " ++ q ++
  "GET / HTTP/1.1" ++ q ++ " 200 100 1.2.3 " ++ q ++ "HIT" ++ q.

End Parser.

(** ** Python's [float]: IEEE-754 binary64 *)

Module Binary64.

Definition prec : Z := 53.
Definition emax : Z := 1024.

Definition float := spec_float.

Definition zero : float := S754_zero false.
Definition one : float := S754_finite false 4503599627370496 (-52).
Definition two : float := S754_finite false 4503599627370496 (-51).
Definition infinity : float := S754_infinity false.

Definition add : float -> float -> float := SFadd prec emax.
Definition mul : float -> float -> float := SFmul prec emax.
Definition div : float -> float -> float := SFdiv prec emax.
Definition ltb : float -> float -> bool := SFltb.
Definition leb : float -> float -> bool := SFleb.

Definition is_nan (x : float) : bool :=
  match x with S754_nan => true | _ => false end.

Definition is_finite (x : float) : bool :=
  match x with S754_zero _ | S754_finite _ _ _ => true | _ => false end.

(** An integer as an exact (unrounded) operand. *)
Definition exact (n : Z) : float :=
  match n with
  | Z0 => S754_zero false
  | Zpos p => S754_finite false p 0
  | Zneg p => S754_finite true p 0
  end.

(** The binary64 value nearest to [n] (ties to even). *)
Definition of_Z (n : Z) : float := binary_normalize prec emax n 0 false.

(** The binary64 value nearest to the quotient of two integers. *)
Definition of_quotient (a b : Z) : float := div (exact a) (exact b).

(** The binary64 value nearest to [digits / 10^scale]: how a decimal
    numeral is read. *)
Definition of_decimal (digits : Z) (scale : nat) : float :=
  of_quotient digits (10 ^ Z.of_nat scale).

(** The integer part, towards zero, of a finite value. *)
Definition trunc (x : float) : Z :=
  match x with
  | S754_finite s m e =>
      let a := match e with
               | Zneg k => Z.shiftr (Zpos m) (Zpos k)
               | _ => Z.shiftl (Zpos m) e
               end in
      if s then Z.opp a else a
  | _ => 0
  end.

End Binary64.

(** ** Outcomes, exceptions and the builtins the module calls *)

Module Py.
Import PyStr Binary64.
Local Open Scope Z_scope.

Inductive exn :=
  | KeyError | ValueError | IndexError | ZeroDivisionError | OverflowError
  | StatisticsError
  | BadReference. (* no object at a reference: not a Python exception *)

Definition exn_eqb (a b : exn) : bool :=
  match a, b with
  | KeyError, KeyError | ValueError, ValueError | IndexError, IndexError
  | ZeroDivisionError, ZeroDivisionError | OverflowError, OverflowError
  | StatisticsError, StatisticsError | BadReference, BadReference => true
  | _, _ => false
  end.

Inductive outcome (A : Type) :=
  | Ret (a : A)
  | Raise (e : exn).
Arguments Ret {A} a.
Arguments Raise {A} e.

Definition returns {A} (o : outcome A) : bool :=
  match o with Ret _ => true | Raise _ => false end.

#[global] Instance outcome_ret : MRet outcome := @Ret.
#[global] Instance outcome_bind : MBind outcome := fun A B f o =>
  match o with Ret a => f a | Raise e => Raise e end.

(** Statements that read and write a state of type [S] and may raise.
    What was written before an exception stays written. *)
Definition M (S A : Type) : Type := S -> outcome A * S.

#[global] Instance M_ret {S} : MRet (M S) := fun A a s => (Ret a, s).
#[global] Instance M_bind {S} : MBind (M S) := fun A B f c s =>
  match c s with
  | (Ret a, s') => f a s'
  | (Raise e, s') => (Raise e, s')
  end.

Definition lift {S A} (o : outcome A) : M S A := fun s => (o, s).
Definition get {S} : M S S := fun s => (Ret s, s).
Definition modify {S} (f : S -> S) : M S unit := fun s => (Ret tt, f s).
Definition pass {S} : M S unit := mret tt.

(** [try: body except (handled...): pass] *)
Definition try_except_pass {S} (body : M S unit) (handled : list exn)
  : M S unit := fun s =>
  match body s with
  | (Raise e, s') =>
      if existsb (exn_eqb e) handled then (Ret tt, s') else (Raise e, s')
  | r => r
  end.

(** [for x in xs: body x] *)
Fixpoint for_each {S A} (xs : list A) (body : A -> M S unit) : M S unit :=
  match xs with
  | [] => mret tt
  | x :: xs' => body x ;; for_each xs' body
  end.

(** [d[key]] *)
Definition getitem (d : gmap string string) (key : string) : outcome string :=
  match d !! key with
  | Some v => Ret v
  | None => Raise KeyError
  end.

Definition digit_value (c : ascii) : Z := Z.of_nat (code c) - 48.

Fixpoint digits_value (acc : Z) (s : string) : option Z :=
  match s with
  | EmptyString => Some acc
  | String c s' =>
      if is_digit c then digits_value (10 * acc + digit_value c) s' else None
  end.

(** [sys.get_int_max_str_digits()] as the interpreter starts: the most
    digits [int] converts from a decimal numeral. *)
Definition int_max_str_digits : Z := 4300.

(** [int(s)] on the strings the analyzer gives it, runs of digits: the
    number the digits spell, and [ValueError] for a run of more than
    [int_max_str_digits] digits (leading zeros count); any other character
    is reported as [ValueError] too. *)
Definition py_int (s : string) : outcome Z :=
  match s with
  | EmptyString => Raise ValueError
  | _ => match digits_value 0 s with
         | Some n =>
             if Z.ltb int_max_str_digits (Z.of_nat (String.length s))
             then Raise ValueError
             else Ret n
         | None => Raise ValueError
         end
  end.

(** Reading a decimal numeral made of digits and at most one point:
    [acc] is the number the digits read so far spell, [scale] how many of
    them follow the point, [any] whether a digit was seen. *)
Fixpoint scan_decimal (s : string) (dot : bool) (acc : Z) (scale : nat)
  (any : bool) : option (Z * nat) :=
  match s with
  | EmptyString => if any then Some (acc, scale) else None
  | String c s' =>
      if is_digit c then
        scan_decimal s' dot (10 * acc + digit_value c)
          (if dot then S scale else scale) true
      else if is_char "." c then
        if dot then None else scan_decimal s' true acc scale any
      else None
  end.

(** [float(s)] on the strings the analyzer gives it, runs of digits and
    points: the correctly rounded value of the numeral, infinity when it
    is too large, [ValueError] when it is no numeral. *)
Definition py_float (s : string) : outcome float :=
  match scan_decimal s false 0 0 false with
  | Some (n, scale) => Ret (of_decimal n scale)
  | None => Raise ValueError
  end.

(** [float(n)] for an integer [n], as in [n * 0.95]. *)
Definition float_of_int (n : Z) : outcome float :=
  let x := of_Z n in
  if is_finite x then Ret x else Raise OverflowError.

(** [int(x)] for a float [x]. *)
Definition int_of_float (x : float) : outcome Z :=
  match x with
  | S754_nan => Raise ValueError
  | S754_infinity _ => Raise OverflowError
  | _ => Ret (trunc x)
  end.

(** [n * x] for an integer [n] and a float [x]. *)
Definition int_mul_float (n : Z) (x : float) : outcome float :=
  y ← float_of_int n; mret (mul y x).

(** [a / b] for integers. *)
Definition truediv (a b : Z) : outcome float :=
  if Z.eqb b 0 then Raise ZeroDivisionError
  else
    let x := of_quotient a b in
    if is_finite x then Ret x else Raise OverflowError.

(** [l[i]], a negative index counting from the end. *)
Definition index {A} (l : list A) (i : Z) : outcome A :=
  let n := Z.of_nat (length l) in
  let j := if Z.ltb i 0 then i + n else i in
  if Z.ltb j 0 then Raise IndexError
  else match l !! Z.to_nat j with
       | Some x => Ret x
       | None => Raise IndexError
       end.

(** [sorted(l)] for floats that [<] orders, that is for a list without
    NaN: the stable ascending order. The analyzer records no NaN
    ([float] of a run of digits and points is none), and where a list may
    hold one the statements below say so. *)
Fixpoint insert (x : float) (l : list float) : list float :=
  match l with
  | [] => [x]
  | y :: l' => if ltb y x then y :: insert x l' else x :: l
  end.

Definition sorted (l : list float) : list float := foldr insert [] l.

(** [statistics.median(data)] *)
Definition median (data : list float) : outcome float :=
  let data := sorted data in
  let n := Z.of_nat (length data) in
  if Z.eqb n 0 then Raise StatisticsError
  else if Z.eqb (n mod 2) 1 then index data (n / 2)
  else
    let i := n / 2 in
    a ← index data (i - 1); b ← index data i; mret (div (add a b) two).

End Py.

(** ** [metrics.py] *)

Module Metrics.
Import PyStr Re Parser Binary64 Py.
Local Open Scope Z_scope.

(** *** [class CacheMetrics] *)

Record CacheMetrics := mkCacheMetrics {
  total_requests : Z;
  cache_hits : Z;
  cache_misses : Z;
  cache_bypass : Z;
  cache_stale : Z;
  cache_updating : Z;
  cache_revalidated : Z;
  error_5xx : Z;
  error_4xx : Z;
  total_bytes : Z;
  latencies : list float
}.

(** [CacheMetrics()]: the defaults, and [__post_init__] puts a new empty
    list in place of [None]. *)
Definition CacheMetrics_new : CacheMetrics :=
  mkCacheMetrics 0 0 0 0 0 0 0 0 0 0 [].

(** The integer attributes, to write [self.metrics.attr += k] once. *)
Inductive counter :=
  | Total_requests | Cache_hits | Cache_misses | Cache_bypass | Cache_stale
  | Cache_updating | Cache_revalidated | Error_5xx | Error_4xx | Total_bytes.

Definition counter_of (f : counter) (m : CacheMetrics) : Z :=
  match f with
  | Total_requests => total_requests m
  | Cache_hits => cache_hits m
  | Cache_misses => cache_misses m
  | Cache_bypass => cache_bypass m
  | Cache_stale => cache_stale m
  | Cache_updating => cache_updating m
  | Cache_revalidated => cache_revalidated m
  | Error_5xx => error_5xx m
  | Error_4xx => error_4xx m
  | Total_bytes => total_bytes m
  end.

Definition set_counter (f : counter) (v : Z) (m : CacheMetrics) : CacheMetrics :=
  let '(mkCacheMetrics tr ch cm cb cs cu cr e5 e4 tb ls) := m in
  match f with
  | Total_requests => mkCacheMetrics v ch cm cb cs cu cr e5 e4 tb ls
  | Cache_hits => mkCacheMetrics tr v cm cb cs cu cr e5 e4 tb ls
  | Cache_misses => mkCacheMetrics tr ch v cb cs cu cr e5 e4 tb ls
  | Cache_bypass => mkCacheMetrics tr ch cm v cs cu cr e5 e4 tb ls
  | Cache_stale => mkCacheMetrics tr ch cm cb v cu cr e5 e4 tb ls
  | Cache_updating => mkCacheMetrics tr ch cm cb cs v cr e5 e4 tb ls
  | Cache_revalidated => mkCacheMetrics tr ch cm cb cs cu v e5 e4 tb ls
  | Error_5xx => mkCacheMetrics tr ch cm cb cs cu cr v e4 tb ls
  | Error_4xx => mkCacheMetrics tr ch cm cb cs cu cr e5 v tb ls
  | Total_bytes => mkCacheMetrics tr ch cm cb cs cu cr e5 e4 v ls
  end.

(** [self.attr += k] *)
Definition add_to (f : counter) (k : Z) : M CacheMetrics unit :=
  modify (fun m => set_counter f (counter_of f m + k) m).

(** [self.latencies.append(x)] *)
Definition latencies_append (x : float) : M CacheMetrics unit :=
  modify (fun m =>
    let '(mkCacheMetrics tr ch cm cb cs cu cr e5 e4 tb ls) := m in
    mkCacheMetrics tr ch cm cb cs cu cr e5 e4 tb (ls ++ [x])).

(** The literals [0.95] and [0.99]. *)
Definition c_0_95 : float := of_decimal 95 2.
Definition c_0_99 : float := of_decimal 99 2.

Definition len {A} (l : list A) : Z := Z.of_nat (length l).

Definition hit_ratio (self : CacheMetrics) : outcome float :=
  let total := cache_hits self + cache_misses self in
  if Z.eqb total 0 then Ret zero
  else truediv (cache_hits self) total.

Definition error_rate (self : CacheMetrics) : outcome float :=
  if Z.eqb (total_requests self) 0 then Ret zero
  else truediv (error_5xx self + error_4xx self) (total_requests self).

Definition p50_latency (self : CacheMetrics) : outcome float :=
  match latencies self with
  | [] => Ret zero
  | _ => median (latencies self)
  end.

(** The body shared by [p95_latency] and [p99_latency], which differ in
    the literal only. *)
Definition rank_latency (fraction : float) (self : CacheMetrics)
  : outcome float :=
  match latencies self with
  | [] => Ret zero
  | _ =>
      let sorted_lat := sorted (latencies self) in
      x ← int_mul_float (len sorted_lat) fraction;
      idx ← int_of_float x;
      if Z.ltb idx (len sorted_lat) then index sorted_lat idx
      else index sorted_lat (-1)
  end.

Definition p95_latency : CacheMetrics -> outcome float := rank_latency c_0_95.
Definition p99_latency : CacheMetrics -> outcome float := rank_latency c_0_99.

(** *** [class MetricsAnalyzer] *)

Definition ref := positive.

(** The attributes of an analyzer: [self.metrics] refers to a
    [CacheMetrics] object. *)
Record MetricsAnalyzer := mkMetricsAnalyzer { metrics : ref }.

(** The objects alive: the [CacheMetrics] objects and the analyzers. *)
Record world := mkWorld {
  objects : gmap ref CacheMetrics;
  analyzers : gmap ref MetricsAnalyzer
}.

Definition empty_world : world := mkWorld ∅ ∅.

(** [CacheMetrics()] as an allocation. *)
Definition new_CacheMetrics : M world ref := fun w =>
  let r := fresh (dom (objects w)) in
  (Ret r, mkWorld (<[r := CacheMetrics_new]> (objects w)) (analyzers w)).

(** [self.metrics = r] *)
Definition set_metrics (self r : ref) : M world unit := fun w =>
  (Ret tt, mkWorld (objects w) (<[self := mkMetricsAnalyzer r]> (analyzers w))).

(** [self.metrics] *)
Definition get_metrics (self : ref) : M world ref := fun w =>
  match analyzers w !! self with
  | Some a => (Ret (metrics a), w)
  | None => (Raise BadReference, w)
  end.

(** Statements on the object [self.metrics] refers to. *)
Definition on_metrics {A} (self : ref) (c : M CacheMetrics A) : M world A :=
  r ← get_metrics self;
  ((fun w =>
      match objects w !! r with
      | Some m =>
          let '(o, m') := c m in
          (o, mkWorld (<[r := m']> (objects w)) (analyzers w))
      | None => (Raise BadReference, w)
      end) : M world A).

(** [MetricsAnalyzer()]: [__init__] sets [self.metrics = CacheMetrics()]. *)
Definition MetricsAnalyzer_new : M world ref := fun w =>
  let self := fresh (dom (analyzers w)) in
  (r ← new_CacheMetrics; set_metrics self r;; mret self) w.

(** A dictionary is false when it is empty. *)
Definition truthy (d : groupdict) : bool := negb (bool_decide (d = ∅)).

(** The statements of [process_log_line] after the parse, on the object
    [self.metrics]. *)
Definition count_record (parsed : groupdict) : M CacheMetrics unit :=
  add_to Total_requests 1;;
  raw ← lift (getitem parsed "cache_status");
  let cache_status := strip raw in
  (if String.eqb cache_status "HIT" then add_to Cache_hits 1
   else if String.eqb cache_status "MISS" then add_to Cache_misses 1
   else if String.eqb cache_status "BYPASS" then add_to Cache_bypass 1
   else if String.eqb cache_status "STALE" then add_to Cache_stale 1
   else if String.eqb cache_status "UPDATING" then add_to Cache_updating 1
   else if String.eqb cache_status "REVALIDATED" then add_to Cache_revalidated 1
   else pass);;
  status ← lift (s ← getitem parsed "status"; py_int s);
  (if Z.leb 500 status && Z.ltb status 600 then add_to Error_5xx 1
   else if Z.leb 400 status && Z.ltb status 500 then add_to Error_4xx 1
   else pass);;
  bytes ← lift (s ← getitem parsed "bytes"; py_int s);
  add_to Total_bytes bytes;;
  try_except_pass
    (latency ← lift (s ← getitem parsed "latency"; py_float s);
     latencies_append latency)
    [ValueError; KeyError].

Definition process_log_line_on (line : string) : M CacheMetrics unit :=
  match parse_line line with
  | Some parsed => if truthy parsed then count_record parsed else pass
  | None => pass
  end.

Definition process_log_line (self : ref) (line : string) : M world unit :=
  on_metrics self (process_log_line_on line).

Definition process_log_content (self : ref) (content : string) : M world ref :=
  r ← new_CacheMetrics;
  set_metrics self r;;
  for_each (splitlines content)
    (fun line =>
       match strip line with
       | EmptyString => pass
       | _ => process_log_line self line
       end);;
  get_metrics self.

End Metrics.


(** * Properties *)

(** ** Strings *)

Module PyStrFacts.
Import PyStr.
Local Open Scope string_scope.

Lemma append_nil_r (s : string) : s ++ "" = s.
Proof. induction s as [|c s IH]; simpl; [reflexivity | now rewrite IH]. Qed.

Lemma append_assoc (a b c : string) : (a ++ b) ++ c = a ++ (b ++ c).
Proof. induction a as [|x a IH]; simpl; [reflexivity | now rewrite IH]. Qed.

Lemma append_snoc (a : string) (c : ascii) (b : string) :
  (a ++ String c "") ++ b = a ++ String c b.
Proof. now rewrite append_assoc. Qed.

Lemma length_append (a b : string) :
  String.length (a ++ b) = (String.length a + String.length b)%nat.
Proof. induction a as [|x a IH]; simpl; [reflexivity | now rewrite IH]. Qed.

(** Every character of a string belongs to a class. *)
Fixpoint all_in (cls : ascii -> bool) (s : string) : bool :=
  match s with
  | EmptyString => true
  | String c s' => cls c && all_in cls s'
  end.

Lemma all_in_append cls a b :
  all_in cls (a ++ b) = all_in cls a && all_in cls b.
Proof.
  induction a as [|x a IH]; simpl; [reflexivity|].
  rewrite IH. now rewrite andb_assoc.
Qed.

Lemma lstrip_no_space s :
  all_in (fun c => negb (is_space c)) s = true -> lstrip s = s.
Proof.
  destruct s as [|c s]; simpl; [reflexivity|].
  intros [Hc _]%andb_prop. now apply negb_true_iff in Hc as ->.
Qed.

Lemma rstrip_no_space s :
  all_in (fun c => negb (is_space c)) s = true -> rstrip s = s.
Proof.
  induction s as [|c s IH]; simpl; [reflexivity|].
  intros [Hc Hs]%andb_prop. rewrite (IH Hs).
  apply negb_true_iff in Hc. rewrite Hc. now destruct s.
Qed.

Lemma lstrip_append s t :
  lstrip s <> "" -> lstrip (s ++ t) = lstrip s ++ t.
Proof.
  induction s as [|c s IH]; simpl; [congruence|].
  destruct (is_space c); [exact IH | reflexivity].
Qed.

Lemma rstrip_append s t : exists u, rstrip (s ++ t) = rstrip s ++ u.
Proof.
  induction s as [|c s [u IH]]; simpl.
  - now exists (rstrip t).
  - rewrite IH. destruct (rstrip s) as [|d r]; simpl.
    + destruct u as [|e u].
      * destruct (is_space c); now exists "".
      * destruct (is_space c); [now exists (String c (String e u)) | now exists (String e u)].
    + now exists u.
Qed.

Lemma strip_append s t :
  strip s <> "" -> exists u, strip (s ++ t) = strip s ++ u.
Proof.
  unfold strip. intros H.
  assert (lstrip s <> "") as Hl by (intros E; now rewrite E in H).
  rewrite (lstrip_append _ _ Hl). apply rstrip_append.
Qed.

Lemma strip_prefix_append p s t s' :
  strip_prefix p s = Some s' -> strip_prefix p (s ++ t) = Some (s' ++ t).
Proof.
  revert s. induction p as [|a p IH]; intros s; simpl.
  - now intros [= ->].
  - destruct s as [|b s]; [discriminate|]. simpl.
    destruct (Ascii.eqb a b); [apply IH | discriminate].
Qed.

End PyStrFacts.

(** ** The engine on patterns whose groups are delimited

    In [LOG_PATTERN] every group is followed by a literal whose first
    character lies outside the class of the group. On such a pattern
    backtracking never finds a second way in: a group takes the longest
    run of its class, or the match fails. *)

Module ReFacts.
Import PyStr PyStrFacts Re.
Local Open Scope string_scope.

(** The longest prefix made of characters of a class, and what follows. *)
Fixpoint span (cls : ascii -> bool) (s : string) : string * string :=
  match s with
  | String c s' =>
      if cls c then let '(a, b) := span cls s' in (String c a, b)
      else (EmptyString, s)
  | EmptyString => (EmptyString, EmptyString)
  end.

Fixpoint match_det (its : list item) (s : string) (g : groupdict)
  : option groupdict :=
  match its with
  | [] => Some g
  | Lit l :: its' =>
      match strip_prefix l s with
      | Some s' => match_det its' s' g
      | None => None
      end
  | Group name cls least :: its' =>
      let '(got, rest) := span cls s in
      if Nat.leb least (String.length got)
      then match_det its' rest (<[name := got]> g)
      else None
  end.

Fixpoint delimited (its : list item) : bool :=
  match its with
  | [] => true
  | Lit _ :: its' => delimited its'
  | Group _ cls _ :: its' =>
      match its' with
      | Lit (String d _) :: _ => negb (cls d) && delimited its'
      | _ => false
      end
  end.

Fixpoint names (its : list item) : list string :=
  match its with
  | [] => []
  | Lit _ :: its' => names its'
  | Group name _ _ :: its' => name :: names its'
  end.

Lemma span_eq cls s : fst (span cls s) ++ snd (span cls s) = s.
Proof.
  induction s as [|c s IH]; simpl; [reflexivity|].
  destruct (cls c); [|reflexivity].
  destruct (span cls s) as [a b]; simpl in *. now rewrite IH.
Qed.

Lemma span_all_in cls s : all_in cls (fst (span cls s)) = true.
Proof.
  induction s as [|c s IH]; simpl; [reflexivity|].
  destruct (cls c) eqn:E; [|reflexivity].
  destruct (span cls s) as [a b]; simpl in *. now rewrite E.
Qed.

Lemma span_rest cls s c r :
  snd (span cls s) = String c r -> cls c = false.
Proof.
  induction s as [|x s IH]; simpl; [discriminate|].
  destruct (cls x) eqn:E.
  - destruct (span cls s) as [a b]; simpl in *. exact IH.
  - now intros [= <- _].
Qed.

(** Text added after a run that has already ended leaves the run alone. *)
Lemma span_append cls s t :
  snd (span cls s) <> "" ->
  span cls (s ++ t) = (fst (span cls s), snd (span cls s) ++ t).
Proof.
  induction s as [|c s IH]; simpl; [congruence|].
  destruct (cls c); [|reflexivity].
  destruct (span cls s) as [a b]; simpl in *.
  intros H. now rewrite (IH H).
Qed.

Lemma greedy_span {R} cls (k : string -> string -> option R) got s :
  (forall got' c rest, cls c = true -> k got' (String c rest) = None) ->
  greedy cls k got s = k (got ++ fst (span cls s)) (snd (span cls s)).
Proof.
  intros Hk. revert got.
  induction s as [|c s IH]; intros got; simpl.
  - now rewrite append_nil_r.
  - destruct (cls c) eqn:E.
    + rewrite IH. destruct (span cls s) as [a b]; simpl.
      rewrite append_snoc.
      destruct (k (got ++ String c a) b); [reflexivity|].
      now apply Hk.
    + now rewrite append_nil_r.
Qed.

Lemma strip_prefix_head d l c rest :
  d <> c -> strip_prefix (String d l) (String c rest) = None.
Proof. intros H. simpl. now apply Ascii.eqb_neq in H as ->. Qed.

Theorem match_items_det its :
  delimited its = true ->
  forall s g, match_items its s g = match_det its s g.
Proof.
  induction its as [|[l|name cls least] its IH]; intros Hd s g; simpl in *.
  - reflexivity.
  - destruct (strip_prefix l s); [now apply IH | reflexivity].
  - destruct its as [|[[|d l]|] its']; try discriminate.
    apply andb_prop in Hd as [Hc Hd]. apply negb_true_iff in Hc.
    rewrite greedy_span.
    + destruct (span cls s) as [got rest]; simpl.
      destruct (Nat.leb least (String.length got)); [|reflexivity].
      now apply IH.
    + intros got' c rest Hcls.
      destruct (Nat.leb least (String.length got')); [|reflexivity].
      change (match_items (Lit (String d l) :: its') (String c rest)
                (<[name:=got']> g))
        with (match strip_prefix (String d l) (String c rest) with
              | Some s' => match_items its' s' (<[name:=got']> g)
              | None => None
              end).
      rewrite strip_prefix_head; [reflexivity | congruence].
Qed.

(** What follows a match can be anything. *)
Theorem match_det_append its :
  delimited its = true ->
  forall s t g r, match_det its s g = Some r -> match_det its (s ++ t) g = Some r.
Proof.
  induction its as [|[l|name cls least] its IH]; intros Hd s t g r; simpl in *.
  - trivial.
  - destruct (strip_prefix l s) as [s'|] eqn:E; [|discriminate].
    rewrite (strip_prefix_append _ _ t _ E). now apply IH.
  - destruct its as [|[[|d l]|] its']; try discriminate.
    apply andb_prop in Hd as [Hc Hd].
    destruct (span cls s) as [got rest] eqn:Es.
    destruct (Nat.leb least (String.length got)) eqn:El; [|discriminate].
    intros Hm.
    assert (rest <> "") as Hrest.
    { intros ->. simpl in Hm. discriminate. }
    pose proof (span_append cls s t) as Ha. rewrite Es in Ha. simpl in Ha.
    rewrite (Ha Hrest), El. now apply IH.
Qed.

(** Keys that name no group of the pattern are left as they were. *)
Lemma match_det_other its s g r key :
  match_det its s g = Some r -> ~ In key (names its) -> r !! key = g !! key.
Proof.
  revert s g. induction its as [|[l|name cls least] its IH]; intros s g; simpl.
  - now intros [= ->].
  - destruct (strip_prefix l s); [apply IH | discriminate].
  - destruct (span cls s) as [got rest].
    destruct (Nat.leb least (String.length got)); [|discriminate].
    intros Hm Hk. rewrite (IH _ _ Hm) by tauto.
    apply lookup_insert_ne. tauto.
Qed.

(** Every group of a matched pattern holds a run of its class, of at
    least its minimal length. *)
Theorem match_det_group its s g r name cls least :
  match_det its s g = Some r ->
  NoDup (names its) ->
  In (Group name cls least) its ->
  exists v, r !! name = Some v /\ all_in cls v = true
            /\ (least <= String.length v)%nat.
Proof.
  revert s g. induction its as [|[l|name' cls' least'] its IH]; intros s g; simpl.
  - tauto.
  - destruct (strip_prefix l s); [|discriminate].
    intros Hm Hn [|Hin]; [discriminate | eauto].
  - pose proof (span_all_in cls' s) as Hall.
    destruct (span cls' s) as [got rest]; simpl in Hall.
    destruct (Nat.leb least' (String.length got)) eqn:El; [|discriminate].
    intros Hm Hn [Heq|Hin].
    + injection Heq as -> -> ->.
      exists got. split; [|split; [assumption | now apply Nat.leb_le]].
      rewrite (match_det_other _ _ _ _ name Hm).
      * apply lookup_insert_eq.
      * now apply NoDup_cons_1_1 in Hn; rewrite <- list_elem_of_In.
    + apply NoDup_cons_1_2 in Hn. eauto.
Qed.

End ReFacts.

(** ** The parser *)

Module ParserFacts.
Import PyStr PyStrFacts Re ReFacts Parser.
Local Open Scope string_scope.

Lemma LOG_PATTERN_delimited : delimited LOG_PATTERN = true.
Proof. reflexivity. Qed.

Lemma LOG_PATTERN_names : NoDup (names LOG_PATTERN).
Proof. apply (bool_decide_unpack _). vm_compute. exact I. Qed.

Lemma parse_line_det line :
  parse_line line = match_det LOG_PATTERN (strip line) ∅.
Proof. apply match_items_det, LOG_PATTERN_delimited. Qed.

Lemma parse_line_nonempty line parsed :
  parse_line line = Some parsed -> strip line <> "".
Proof.
  rewrite parse_line_det. intros H E. rewrite E in H. discriminate.
Qed.

(** The groups of a parsed line. *)
Record fields (parsed : groupdict) := mkFields {
  f_cache_status : string;
  f_status : string;
  f_bytes : string;
  f_latency : string;
  get_cache_status : parsed !! "cache_status" = Some f_cache_status;
  get_status : parsed !! "status" = Some f_status;
  get_bytes : parsed !! "bytes" = Some f_bytes;
  get_latency : parsed !! "latency" = Some f_latency;
  status_digits : all_in is_digit f_status = true /\ f_status <> "";
  bytes_digits : all_in is_digit f_bytes = true /\ f_bytes <> "";
  latency_chars : all_in digit_or_dot f_latency = true /\ f_latency <> ""
}.

Lemma nonempty_of_length (s : string) : (1 <= String.length s)%nat -> s <> "".
Proof. destruct s; simpl; [lia | discriminate]. Qed.

Lemma parse_line_fields line parsed :
  parse_line line = Some parsed -> exists _ : fields parsed, True.
Proof.
  rewrite parse_line_det. intros H.
  pose proof (fun name cls least =>
    match_det_group _ _ _ _ name cls least H LOG_PATTERN_names) as G.
  destruct (G "cache_status" (not_char dquote) 0%nat) as (cs & Hcs & _);
    [simpl; tauto|].
  destruct (G "status" is_digit 1%nat) as (st & Hst & Dst & Lst);
    [simpl; tauto|].
  destruct (G "bytes" is_digit 1%nat) as (bs & Hbs & Dbs & Lbs);
    [simpl; tauto|].
  destruct (G "latency" digit_or_dot 1%nat) as (lat & Hlat & Dlat & Llat);
    [simpl; tauto|].
  unshelve eexists; [|exact I].
  apply (mkFields parsed cs st bs lat); auto using nonempty_of_length.
Qed.

Lemma parse_line_truthy line parsed :
  parse_line line = Some parsed -> parsed <> ∅.
Proof.
  intros [F _]%parse_line_fields E. subst parsed.
  pose proof (get_status _ F) as H. discriminate.
Qed.

End ParserFacts.

(** ** Folding one line into the aggregate *)

Module FoldFacts.
Import PyStr PyStrFacts Re ReFacts Parser ParserFacts Binary64 Py Metrics.
Local Open Scope Z_scope.

Lemma digit_value_nonneg c : is_digit c = true -> 0 <= digit_value c.
Proof.
  unfold is_digit, in_range, digit_value.
  intros [H _]%andb_prop. apply Nat.leb_le in H. lia.
Qed.

Lemma digits_value_some s :
  all_in is_digit s = true ->
  forall acc, 0 <= acc -> exists n, digits_value acc s = Some n /\ 0 <= n.
Proof.
  induction s as [|c s IH]; simpl; intros H acc Hacc.
  - eauto.
  - apply andb_prop in H as [Hc Hs]. rewrite Hc.
    apply IH; [assumption|]. pose proof (digit_value_nonneg c Hc). lia.
Qed.

(** A field short enough for [int]: at most [int_max_str_digits]
    characters. *)
Definition fits_int (s : string) : bool :=
  Z.leb (Z.of_nat (String.length s)) int_max_str_digits.

(** [int] on a run of digits, the only thing the pattern lets through to
    it: the run is converted when it is short enough, and [ValueError] is
    raised when it is not. *)
Lemma py_int_digits s :
  all_in is_digit s = true /\ s <> EmptyString ->
  if fits_int s then exists n, py_int s = Ret n /\ 0 <= n
  else py_int s = Raise ValueError.
Proof.
  intros [H Hne]. destruct (digits_value_some s H 0) as (n & Hn & Hpos); [lia|].
  unfold py_int, fits_int. rewrite Hn.
  destruct (Z.leb_spec (Z.of_nat (String.length s)) int_max_str_digits) as [Hl|Hl].
  - replace (Z.ltb int_max_str_digits (Z.of_nat (String.length s))) with false
      by (symmetry; apply Z.ltb_ge; lia).
    exists n. now destruct s.
  - replace (Z.ltb int_max_str_digits (Z.of_nat (String.length s))) with true
      by (symmetry; apply Z.ltb_lt; lia).
    now destruct s.
Qed.

(** What [int] converts from a run of digits is not negative, and the
    only exception it raises is [ValueError]. *)
Definition int_outcome (o : outcome Z) : Prop :=
  match o with
  | Ret n => 0 <= n
  | Raise e => e = ValueError
  end.

Lemma py_int_outcome s :
  all_in is_digit s = true /\ s <> EmptyString -> int_outcome (py_int s).
Proof.
  intros H. pose proof (py_int_digits s H) as Hs.
  destruct (fits_int s); [destruct Hs as (n & -> & Hn); exact Hn | now rewrite Hs].
Qed.

Lemma py_int_returns s :
  all_in is_digit s = true /\ s <> EmptyString ->
  returns (py_int s) = fits_int s.
Proof.
  intros H. pose proof (py_int_digits s H) as Hs.
  destruct (fits_int s); [destruct Hs as (n & -> & Hn); reflexivity | now rewrite Hs].
Qed.

(** [float] either returns or raises [ValueError]. *)
Lemma py_float_cases s :
  (exists x, py_float s = Ret x) \/ py_float s = Raise ValueError.
Proof.
  unfold py_float. destruct (scan_decimal s false 0 0 false) as [[n k]|]; eauto.
Qed.

(** The dispatch on the cache status and the classification of the
    status code, as the attribute each of them increments. *)
Definition cache_counter (cache_status : string) : option counter :=
  if String.eqb cache_status "HIT" then Some Cache_hits
  else if String.eqb cache_status "MISS" then Some Cache_misses
  else if String.eqb cache_status "BYPASS" then Some Cache_bypass
  else if String.eqb cache_status "STALE" then Some Cache_stale
  else if String.eqb cache_status "UPDATING" then Some Cache_updating
  else if String.eqb cache_status "REVALIDATED" then Some Cache_revalidated
  else None.

Definition error_counter (status : Z) : option counter :=
  if Z.leb 500 status && Z.ltb status 600 then Some Error_5xx
  else if Z.leb 400 status && Z.ltb status 500 then Some Error_4xx
  else None.

Definition bump (o : option counter) (m : CacheMetrics) : CacheMetrics :=
  match o with
  | Some f => set_counter f (counter_of f m + 1) m
  | None => m
  end.

Definition observe (o : outcome float) (m : CacheMetrics) : CacheMetrics :=
  match o with
  | Ret x => snd (latencies_append x m)
  | Raise _ => m
  end.

(** The aggregate after the statements that count a record, given what
    [int] made of its status and of its bytes and what [float] made of its
    latency: an exception of [int] ends the count where it is raised, an
    exception of [float] is passed over. *)
Definition counted (cache_status : string) (status bytes : outcome Z)
  (latency : outcome float) (m : CacheMetrics) : CacheMetrics :=
  let m1 := set_counter Total_requests (total_requests m + 1) m in
  let m2 := bump (cache_counter (strip cache_status)) m1 in
  match status with
  | Raise _ => m2
  | Ret status =>
      let m3 := bump (error_counter status) m2 in
      match bytes with
      | Raise _ => m3
      | Ret bytes =>
          observe latency (set_counter Total_bytes (total_bytes m3 + bytes) m3)
      end
  end.

(** How these statements end: with the first exception of [int], if
    any. *)
Definition ended (status bytes : outcome Z) : outcome unit :=
  _ ← status; _ ← bytes; Ret tt.

Lemma count_record_eq parsed (F : fields parsed) m :
  count_record parsed m =
    (ended (py_int (f_status _ F)) (py_int (f_bytes _ F)),
     counted (f_cache_status _ F) (py_int (f_status _ F))
       (py_int (f_bytes _ F)) (py_float (f_latency _ F)) m).
Proof.
  destruct F as [cs st bs lat Gcs Gst Gbs Glat ? ? ?].
  simpl in *. unfold count_record, counted, ended, getitem.
  rewrite Gcs, Gst, Gbs, Glat.
  unfold mbind, M_bind, outcome_bind, lift, add_to, modify, pass, mret, M_ret,
    try_except_pass; simpl.
  unfold cache_counter, error_counter, bump.
  destruct m as [tr ch cm cb cst cu cr e5 e4 tb ls]; simpl.
  destruct (py_int st) as [status|e1], (py_int bs) as [bytes|e2];
  destruct (py_float_cases lat) as [[x Hx]|Hx]; rewrite ?Hx; simpl;
  repeat match goal with
    | |- context [if ?b then _ else _] => destruct b; simpl
    end; reflexivity.
Qed.

(** What [process_log_line] does: nothing when the line does not parse,
    and otherwise the count of the record, which ends in [ValueError] when
    the status or the bytes are too long for [int]. *)
Inductive folded (line : string) (m : CacheMetrics)
  : outcome unit -> CacheMetrics -> Prop :=
  | folded_skip :
      parse_line line = None -> folded line m (Ret tt) m
  | folded_count parsed (F : fields parsed) :
      parse_line line = Some parsed ->
      folded line m
        (ended (py_int (f_status _ F)) (py_int (f_bytes _ F)))
        (counted (f_cache_status _ F) (py_int (f_status _ F))
           (py_int (f_bytes _ F)) (py_float (f_latency _ F)) m).

Theorem process_log_line_on_folded line m :
  exists o m', process_log_line_on line m = (o, m') /\ folded line m o m'.
Proof.
  unfold process_log_line_on.
  destruct (parse_line line) as [parsed|] eqn:E.
  - destruct (parse_line_fields _ _ E) as [F _].
    unfold truthy. rewrite bool_decide_eq_false_2
      by (eapply parse_line_truthy; eassumption). simpl.
    rewrite (count_record_eq parsed F m).
    eexists _, _; split; [reflexivity|]. now apply (folded_count line m parsed F).
  - exists (Ret tt), m. split; [reflexivity | now constructor].
Qed.

End FoldFacts.

(** ** Rounding to binary64 *)

Module Rounding.
Import Binary64 Py.
Local Open Scope Z_scope.

(** The number of binary digits. *)
Lemma digits2_pos_bounds p :
  2 ^ (Zpos (digits2_pos p) - 1) <= Zpos p < 2 ^ Zpos (digits2_pos p).
Proof.
  induction p as [p IH|p IH|]; simpl digits2_pos.
  - rewrite Pos2Z.inj_succ, Z.pow_succ_r by lia.
    replace (Z.succ (Zpos (digits2_pos p)) - 1) with (Z.succ (Zpos (digits2_pos p) - 1)) by lia.
    rewrite Z.pow_succ_r by lia. lia.
  - rewrite Pos2Z.inj_succ, Z.pow_succ_r by lia.
    replace (Z.succ (Zpos (digits2_pos p)) - 1) with (Z.succ (Zpos (digits2_pos p) - 1)) by lia.
    rewrite Z.pow_succ_r by lia. lia.
  - simpl. lia.
Qed.

Lemma Zdigits2_nonneg m : 0 <= Zdigits2 m.
Proof. destruct m; simpl; lia. Qed.

Lemma Zdigits2_lower m : 0 < m -> 2 ^ (Zdigits2 m - 1) <= m.
Proof. destruct m as [|p|p]; try lia. intros _. apply digits2_pos_bounds. Qed.

Lemma Zdigits2_upper m : 0 <= m -> m < 2 ^ Zdigits2 m.
Proof.
  destruct m as [|p|p]; try lia; intros _.
  - simpl. lia.
  - apply digits2_pos_bounds.
Qed.

(** A bound on a number bounds its number of digits. *)
Lemma Zdigits2_le_of_lt m j : 0 <= j -> 0 <= m < 2 ^ j -> Zdigits2 m <= j.
Proof.
  intros Hj [H0 Hm].
  destruct (Z.eq_dec m 0) as [->|Hne]; [simpl; lia|].
  pose proof (Zdigits2_lower m ltac:(lia)) as Hl.
  destruct (Z_le_gt_dec (Zdigits2 m) j) as [|Hgt]; [assumption|].
  assert (2 ^ j <= 2 ^ (Zdigits2 m - 1)) by (apply Z.pow_le_mono_r; lia).
  lia.
Qed.

Lemma Zdigits2_ge_of_le m j : 0 <= j -> 2 ^ j <= m -> j + 1 <= Zdigits2 m.
Proof.
  intros Hj Hm.
  assert (0 < 2 ^ j) by (apply Z.pow_pos_nonneg; lia).
  pose proof (Zdigits2_upper m ltac:(lia)) as Hu.
  pose proof (Zdigits2_nonneg m).
  destruct (Z_le_gt_dec (j + 1) (Zdigits2 m)) as [|Hgt]; [assumption|].
  assert (2 ^ Zdigits2 m <= 2 ^ j) by (apply Z.pow_le_mono_r; lia).
  lia.
Qed.

(** [iter_pos] is iteration. *)
Lemma iter_pos_nat {A} (f : A -> A) p x :
  SpecFloat.iter_pos f p x = Nat.iter (Pos.to_nat p) f x.
Proof.
  revert x. induction p as [p IH|p IH|]; intros x; simpl SpecFloat.iter_pos.
  - rewrite !IH, Pos2Nat.inj_xI.
    replace (S (2 * Pos.to_nat p)) with (Pos.to_nat p + (Pos.to_nat p + 1))%nat by lia.
    rewrite !Nat.iter_add. reflexivity.
  - rewrite !IH, Pos2Nat.inj_xO.
    replace (2 * Pos.to_nat p)%nat with (Pos.to_nat p + Pos.to_nat p)%nat by lia.
    rewrite Nat.iter_add. reflexivity.
  - reflexivity.
Qed.

(** One step to the right halves the mantissa, keeps the bit that falls
    off as the rounding bit, and remembers in the sticky bit whether
    anything nonzero fell off before. *)
Lemma shr_1_spec m r s :
  0 <= m ->
  shr_1 (Build_shr_record m r s) = Build_shr_record (m / 2) (Z.odd m) (r || s).
Proof.
  intros Hm. destruct m as [|[p|p|]|p]; try lia; unfold shr_1.
  - reflexivity.
  - replace (Zpos p~1 / 2) with (Zpos p)
      by (apply Z.div_unique with (r := 1); lia).
    reflexivity.
  - replace (Zpos p~0 / 2) with (Zpos p)
      by (apply Z.div_unique with (r := 0); lia).
    reflexivity.
  - reflexivity.
Qed.

Lemma iter_shr_1_m n mrs :
  0 <= shr_m mrs ->
  shr_m (Nat.iter n shr_1 mrs) = shr_m mrs / 2 ^ Z.of_nat n.
Proof.
  intros Hm. induction n as [|n IH].
  - simpl. now rewrite Z.div_1_r.
  - rewrite Nat2Z.inj_succ, Z.pow_succ_r by lia. simpl Nat.iter.
    destruct (Nat.iter n shr_1 mrs) as [m r s] eqn:E. simpl in IH.
    assert (0 <= m) by (subst m; apply Z.div_pos; [lia | apply Z.pow_pos_nonneg; lia]).
    rewrite shr_1_spec by assumption. simpl shr_m.
    rewrite IH, Z.div_div by (try apply Z.pow_pos_nonneg; lia).
    f_equal. lia.
Qed.

(** The mantissa after [shr]. *)
Lemma shr_m_spec mrs e n :
  0 <= shr_m mrs ->
  shr_m (fst (shr mrs e n)) = shr_m mrs / 2 ^ Z.max 0 n
  /\ snd (shr mrs e n) = e + Z.max 0 n.
Proof.
  intros Hm. destruct n as [|p|p]; simpl.
  - rewrite Z.div_1_r. lia.
  - rewrite iter_pos_nat, iter_shr_1_m by assumption.
    rewrite positive_nat_Z.
    replace (Z.max 0 (Zpos p)) with (Zpos p) by lia. split; reflexivity.
  - rewrite Z.div_1_r. lia.
Qed.


Definition fexp64 (e : Z) : Z := Z.max (e - 53) (-1074).

Lemma fexp_64 e : fexp 53 1024 e = fexp64 e.
Proof. reflexivity. Qed.

Lemma shr_record_of_loc_m m l : shr_m (shr_record_of_loc m l) = m.
Proof. destruct l as [|[]]; reflexivity. Qed.

Lemma round_nearest_even_cases m l :
  round_nearest_even m l = m \/ round_nearest_even m l = m + 1.
Proof. destruct l as [|[]]; simpl; auto. destruct (Z.even m); auto. Qed.

(** The result of a rounding, from its mantissa and its exponent. *)
Definition pack (m e : Z) : spec_float :=
  match m with
  | Z0 => S754_zero false
  | Zpos p => if Z.leb e 971 then S754_finite false p e else S754_infinity false
  | Zneg _ => S754_nan
  end.

(** The shape of a rounding: the mantissa is shifted to the exponent the
    format gives to its magnitude, the last place goes up by one or stays,
    and a carry into a new digit is shifted once more. *)
Lemma binary_round_aux_shape mx ex lx :
  0 <= mx ->
  let e1 := Z.max ex (fexp64 (Zdigits2 mx + ex)) in
  let m1 := mx / 2 ^ (e1 - ex) in
  exists m2, (m2 = m1 \/ m2 = m1 + 1) /\
    let e3 := Z.max e1 (fexp64 (Zdigits2 m2 + e1)) in
    binary_round_aux 53 1024 false mx ex lx = pack (m2 / 2 ^ (e3 - e1)) e3.
Proof.
  intros Hmx e1 m1. unfold binary_round_aux, shr_fexp.
  change (fexp 53 1024) with fexp64.
  pose proof (shr_m_spec (shr_record_of_loc mx lx) ex
                (fexp64 (Zdigits2 mx + ex) - ex)
                ltac:(now rewrite shr_record_of_loc_m)) as H1.
  rewrite shr_record_of_loc_m in H1.
  destruct (shr (shr_record_of_loc mx lx) ex (fexp64 (Zdigits2 mx + ex) - ex))
    as [mrs' e'] eqn:E1. simpl in H1. destruct H1 as [Hm' He'].
  assert (e' = e1) as -> by (unfold e1; lia).
  assert (shr_m mrs' = m1) as Hm1 by (rewrite Hm'; unfold m1, e1; f_equal; f_equal; lia).
  set (m2 := round_nearest_even (shr_m mrs') (loc_of_shr_record mrs')).
  assert (m2 = m1 \/ m2 = m1 + 1) as Hm2
    by (rewrite <- Hm1; apply round_nearest_even_cases).
  assert (0 <= m1).
  { unfold m1. apply Z.div_pos; [lia | apply Z.pow_pos_nonneg; lia]. }
  exists m2. split; [assumption|]. cbv zeta.
  set (e3 := Z.max e1 (fexp64 (Zdigits2 m2 + e1))).
  pose proof (shr_m_spec (shr_record_of_loc m2 loc_Exact) e1
                (fexp64 (Zdigits2 m2 + e1) - e1)
                ltac:(rewrite shr_record_of_loc_m; lia)) as H2.
  rewrite shr_record_of_loc_m in H2.
  destruct (shr (shr_record_of_loc m2 loc_Exact) e1 (fexp64 (Zdigits2 m2 + e1) - e1))
    as [mrs'' e''] eqn:E2. simpl in H2. destruct H2 as [Hm'' He''].
  assert (e'' = e3) as -> by (unfold e3; lia).
  rewrite Hm''. replace (Z.max 0 (fexp64 (Zdigits2 m2 + e1) - e1)) with (e3 - e1)
    by (unfold e3; lia).
  reflexivity.
Qed.

Lemma pow2_split a b : 0 <= a -> 0 <= b -> 2 ^ (a + b) = 2 ^ a * 2 ^ b.
Proof. intros. apply Z.pow_add_r; assumption. Qed.

(** A value below one rounds to at most one. *)
Lemma round_below_one mx ex lx :
  0 <= mx -> ex <= -53 -> mx < 2 ^ (- ex) ->
  exists m e,
    binary_round_aux 53 1024 false mx ex lx = pack m e
    /\ 0 <= m /\ e <= -52 /\ m <= 2 ^ (- e).
Proof.
  intros Hmx Hex Hlt.
  destruct (binary_round_aux_shape mx ex lx Hmx) as (m2 & Hm2 & Heq).
  set (e1 := Z.max ex (fexp64 (Zdigits2 mx + ex))) in *.
  set (m1 := mx / 2 ^ (e1 - ex)) in *.
  set (e3 := Z.max e1 (fexp64 (Zdigits2 m2 + e1))) in *.
  assert (Zdigits2 mx <= - ex) as Hd by (apply Zdigits2_le_of_lt; lia).
  assert (e1 <= -53) as He1 by (unfold e1, fexp64; lia).
  assert (ex <= e1) as Hee by (unfold e1; lia).
  assert (0 < 2 ^ (e1 - ex)) as Hp by (apply Z.pow_pos_nonneg; lia).
  assert (0 < 2 ^ (- e1)) as Hp1 by (apply Z.pow_pos_nonneg; lia).
  assert (0 <= m1 < 2 ^ (- e1)) as Hm1.
  { split; [apply Z.div_pos; lia|].
    apply Z.div_lt_upper_bound; [lia|].
    rewrite <- pow2_split by lia. replace (e1 - ex + - e1) with (- ex) by lia.
    assumption. }
  assert (0 <= m2 <= 2 ^ (- e1)) as Hm2' by lia.
  assert (Zdigits2 m2 <= - e1 + 1) as Hd2.
  { destruct (Z.eq_dec m2 (2 ^ (- e1))) as [->|Hne].
    - apply Zdigits2_le_of_lt; [lia|]. split; [lia|].
      apply Z.pow_lt_mono_r; lia.
    - assert (Zdigits2 m2 <= - e1) by (apply Zdigits2_le_of_lt; lia). lia. }
  assert (e3 <= -52) as He3 by (unfold e3, fexp64; lia).
  assert (e1 <= e3) as Hee3 by (unfold e3; lia).
  assert (0 < 2 ^ (e3 - e1)) as Hp3 by (apply Z.pow_pos_nonneg; lia).
  exists (m2 / 2 ^ (e3 - e1)), e3. repeat split; try assumption.
  - apply Z.div_pos; lia.
  - apply Z.div_le_upper_bound; [lia|].
    rewrite <- pow2_split by lia. replace (e3 - e1 + - e3) with (- e1) by lia. lia.
Qed.


Lemma Zdigits2_mono a b : 0 <= a <= b -> Zdigits2 a <= Zdigits2 b.
Proof.
  intros [Ha Hab].
  apply Zdigits2_le_of_lt; [apply Zdigits2_nonneg|].
  split; [assumption|]. pose proof (Zdigits2_upper b ltac:(lia)). lia.
Qed.

Lemma of_quotient_lt a b :
  0 < a < b ->
  exists m e, of_quotient a b = pack m e /\ 0 <= m /\ e <= -52 /\ m <= 2 ^ (- e).
Proof.
  intros [Ha Hab].
  destruct a as [|pa|pa]; try lia. destruct b as [|pb|pb]; try lia.
  unfold of_quotient, div, exact, SFdiv, SFdiv_core_binary.
  change (fexp prec emax) with fexp64. simpl xorb.
  set (d1 := Zdigits2 (Zpos pa)). set (d2 := Zdigits2 (Zpos pb)).
  assert (d1 <= d2) as Hd by (apply Zdigits2_mono; lia).
  set (e' := Z.min (fexp64 (d1 + 0 - (d2 + 0))) (0 - 0)).
  assert (e' <= -53) as He' by (unfold e', fexp64; lia).
  destruct (0 - 0 - e') as [|s|s] eqn:Es; try lia.
  rewrite Z.shiftl_mul_pow2 by lia.
  pose proof (Z_div_mod (Zpos pa * 2 ^ Zpos s) (Zpos pb) ltac:(lia)) as Hdm.
  destruct (Z.div_eucl (Zpos pa * 2 ^ Zpos s) (Zpos pb)) as [q r].
  destruct Hdm as [Heq Hr].
  apply round_below_one; [|assumption|].
  - nia.
  - replace (- e') with (Zpos s) by lia.
    assert (0 < 2 ^ Zpos s) by (apply Z.pow_pos_nonneg; lia). nia.
Qed.

Lemma new_location_0 n : new_location n 0 = loc_Exact.
Proof. unfold new_location. destruct (Z.even n); reflexivity. Qed.

Lemma of_quotient_same a : 0 < a -> of_quotient a a = one.
Proof.
  intros Ha. destruct a as [|p|p]; try lia.
  unfold of_quotient, div, exact, SFdiv, SFdiv_core_binary.
  replace (Zdigits2 (Zpos p) + 0 - (Zdigits2 (Zpos p) + 0)) with 0 by lia.
  change (Z.min (fexp prec emax 0) (0 - 0)) with (-53).
  change (0 - 0 - -53) with 53.
  rewrite Z.shiftl_mul_pow2 by lia.
  pose proof (Z_div_mod (Zpos p * 2 ^ 53) (Zpos p) ltac:(lia)) as Hdm.
  destruct (Z.div_eucl (Zpos p * 2 ^ 53) (Zpos p)) as [q r].
  destruct Hdm as [Heq Hr].
  assert (q = 2 ^ 53 /\ r = 0) as [-> ->].
  { apply (Z.div_mod_unique (Zpos p)); [lia | lia | lia]. }
  rewrite new_location_0. reflexivity.
Qed.

Lemma of_quotient_zero b : 0 < b -> of_quotient 0 b = zero.
Proof. intros Hb. destruct b; try lia. reflexivity. Qed.

Lemma pack_unit m e :
  0 <= m -> e <= -52 -> m <= 2 ^ (- e) ->
  is_finite (pack m e) = true /\ leb zero (pack m e) = true
  /\ leb (pack m e) one = true.
Proof.
  intros Hm He Hle. destruct m as [|p|p]; try lia; simpl.
  - repeat split; reflexivity.
  - replace (Z.leb e 971) with true by (symmetry; apply Z.leb_le; lia).
    repeat split; try reflexivity.
    unfold leb, SFleb, one, SFcompare.
    destruct (Z.compare_spec e (-52)) as [->|Hlt|Hgt]; try reflexivity; [|lia].
    change (2 ^ (- -52)) with (Zpos 4503599627370496) in Hle.
    rewrite Pos.compare_cont_spec. simpl.
    destruct (Pos.compare_spec p 4503599627370496); try reflexivity. lia.
Qed.

(** The quotient of two integers, the first between zero and the second,
    is a float between zero and one. *)
Theorem of_quotient_unit a b :
  0 <= a <= b -> 0 < b ->
  is_finite (of_quotient a b) = true /\ leb zero (of_quotient a b) = true
  /\ leb (of_quotient a b) one = true.
Proof.
  intros [Ha Hab] Hb.
  destruct (Z.eq_dec a 0) as [->|Hne].
  { rewrite of_quotient_zero by assumption. repeat split; reflexivity. }
  destruct (Z.eq_dec a b) as [->|Hne'].
  { rewrite of_quotient_same by assumption. repeat split; reflexivity. }
  destruct (of_quotient_lt a b ltac:(lia)) as (m & e & -> & Hm & He & Hle).
  now apply pack_unit.
Qed.

(** Round to nearest, ties to even, of [m / 2^k]. *)
Definition rne (m k : Z) : Z :=
  let q := m / 2 ^ k in
  let rem := m mod 2 ^ k in
  match Z.compare (2 * rem) (2 ^ k) with
  | Lt => q
  | Eq => if Z.even q then q else q + 1
  | Gt => q + 1
  end.

Lemma rne_0 m : rne m 0 = m.
Proof.
  unfold rne. rewrite Z.pow_0_r, Z.div_1_r, Z.mod_1_r. reflexivity.
Qed.

(** After [n] steps from an exact mantissa: the quotient, the bit below
    it, and whether anything lies below that bit. *)
Lemma iter_shr_1_exact n m :
  0 <= m ->
  Nat.iter (S n) shr_1 (Build_shr_record m false false) =
  Build_shr_record (m / 2 ^ Z.of_nat (S n)) (Z.odd (m / 2 ^ Z.of_nat n))
    (negb (Z.eqb (m mod 2 ^ Z.of_nat n) 0)).
Proof.
  intros Hm. induction n as [|n IH].
  - change (Nat.iter 1 shr_1 ?x) with (shr_1 x).
    rewrite shr_1_spec by assumption.
    change (2 ^ Z.of_nat 1) with 2. change (2 ^ Z.of_nat 0) with 1.
    rewrite Z.div_1_r, Z.mod_1_r. reflexivity.
  - change (Nat.iter (S (S n)) shr_1 ?x) with (shr_1 (Nat.iter (S n) shr_1 x)).
    rewrite IH.
    assert (0 < 2 ^ Z.of_nat n) as Hp by (apply Z.pow_pos_nonneg; lia).
    assert (0 < 2 ^ Z.of_nat (S n)) as Hp' by (apply Z.pow_pos_nonneg; lia).
    rewrite shr_1_spec by (apply Z.div_pos; lia).
    assert (2 ^ Z.of_nat (S n) = 2 ^ Z.of_nat n * 2) as E1
      by (rewrite Nat2Z.inj_succ, Z.pow_succ_r; lia).
    assert (2 ^ Z.of_nat (S (S n)) = 2 ^ Z.of_nat (S n) * 2) as E2
      by (rewrite (Nat2Z.inj_succ (S n)), Z.pow_succ_r; lia).
    f_equal.
    + rewrite E2, Z.div_div by lia. reflexivity.
    + rewrite E1, Z.rem_mul_r by lia.
      pose proof (Z.mod_pos_bound m (2 ^ Z.of_nat n) Hp) as Hb.
      rewrite <- Z.bit0_mod, Z.bit0_odd.
      destruct (Z.odd (m / 2 ^ Z.of_nat n)); simpl.
      * symmetry. apply negb_true_iff, Z.eqb_neq. lia.
      * f_equal. f_equal. lia.
Qed.

Lemma round_shifted m n :
  0 <= m ->
  let mrs := Nat.iter (S n) shr_1 (Build_shr_record m false false) in
  round_nearest_even (shr_m mrs) (loc_of_shr_record mrs) = rne m (Z.of_nat (S n)).
Proof.
  intros Hm. cbv zeta. rewrite iter_shr_1_exact by assumption.
  assert (0 < 2 ^ Z.of_nat n) as Hp by (apply Z.pow_pos_nonneg; lia).
  assert (2 ^ Z.of_nat (S n) = 2 ^ Z.of_nat n * 2) as E1
    by (rewrite Nat2Z.inj_succ, Z.pow_succ_r; lia).
  unfold rne. rewrite E1, Z.rem_mul_r by lia.
  pose proof (Z.mod_pos_bound m (2 ^ Z.of_nat n) Hp) as Hb.
  rewrite <- Z.bit0_mod, Z.bit0_odd.
  set (low := m mod 2 ^ Z.of_nat n) in *.
  set (q := m / (2 ^ Z.of_nat n * 2)).
  simpl shr_m.
  destruct (Z.odd (m / 2 ^ Z.of_nat n)); simpl Z.b2z;
    destruct (Z.eqb_spec low 0) as [E|E]; simpl.
  - rewrite E. replace (2 * (0 + 2 ^ Z.of_nat n * 1)) with (2 ^ Z.of_nat n * 2) by lia.
    rewrite Z.compare_refl. reflexivity.
  - replace (2 * (low + 2 ^ Z.of_nat n * 1) ?= 2 ^ Z.of_nat n * 2) with Gt
      by (symmetry; apply Z.compare_gt_iff; lia).
    reflexivity.
  - replace (2 * (low + 2 ^ Z.of_nat n * 0) ?= 2 ^ Z.of_nat n * 2) with Lt
      by (symmetry; apply Z.compare_lt_iff; lia).
    reflexivity.
  - replace (2 * (low + 2 ^ Z.of_nat n * 0) ?= 2 ^ Z.of_nat n * 2) with Lt
      by (symmetry; apply Z.compare_lt_iff; lia).
    reflexivity.
Qed.

(** Rounding an exact mantissa. *)
Lemma binary_round_aux_exact mx ex :
  0 <= mx ->
  let e1 := Z.max ex (fexp64 (Zdigits2 mx + ex)) in
  let m2 := rne mx (e1 - ex) in
  let e3 := Z.max e1 (fexp64 (Zdigits2 m2 + e1)) in
  binary_round_aux 53 1024 false mx ex loc_Exact = pack (m2 / 2 ^ (e3 - e1)) e3.
Proof.
  intros Hmx e1 m2 e3. unfold binary_round_aux, shr_fexp.
  change (fexp 53 1024) with fexp64.
  assert (exists mrs', shr (shr_record_of_loc mx loc_Exact) ex
            (fexp64 (Zdigits2 mx + ex) - ex) = (mrs', e1)
          /\ round_nearest_even (shr_m mrs') (loc_of_shr_record mrs') = m2)
    as (mrs' & -> & ->).
  { unfold m2, e1. destruct (fexp64 (Zdigits2 mx + ex) - ex) as [|p|p] eqn:Ek.
    - eexists; split; [simpl; f_equal; lia|].
      replace (Z.max ex (fexp64 (Zdigits2 mx + ex)) - ex) with 0 by lia.
      now rewrite rne_0.
    - eexists; split; [simpl; f_equal; lia|].
      rewrite iter_pos_nat.
      destruct (Pos2Nat.is_succ p) as [n Hn]. rewrite Hn.
      simpl shr_record_of_loc. rewrite round_shifted by assumption.
      f_equal. lia.
    - eexists; split; [simpl; f_equal; lia|].
      replace (Z.max ex (fexp64 (Zdigits2 mx + ex)) - ex) with 0 by lia.
      now rewrite rne_0. }
  assert (0 <= m2) as Hm2.
  { unfold m2, rne.
    assert (0 <= mx / 2 ^ (e1 - ex))
      by (apply Z.div_pos; [lia | apply Z.pow_pos_nonneg; unfold e1; lia]).
    destruct (2 * (mx mod 2 ^ (e1 - ex)) ?= 2 ^ (e1 - ex)); try lia.
    destruct (Z.even _); lia. }
  pose proof (shr_m_spec (shr_record_of_loc m2 loc_Exact) e1
                (fexp64 (Zdigits2 m2 + e1) - e1)
                ltac:(rewrite shr_record_of_loc_m; lia)) as H2.
  rewrite shr_record_of_loc_m in H2.
  destruct (shr (shr_record_of_loc m2 loc_Exact) e1 (fexp64 (Zdigits2 m2 + e1) - e1))
    as [mrs'' e''] eqn:E2. simpl in H2. destruct H2 as [Hm'' He''].
  assert (e'' = e3) as -> by (unfold e3; lia).
  rewrite Hm''. replace (Z.max 0 (fexp64 (Zdigits2 m2 + e1) - e1)) with (e3 - e1)
    by (unfold e3; lia).
  reflexivity.
Qed.

Lemma Zdigits2_unique m d : 0 < d -> 2 ^ (d - 1) <= m < 2 ^ d -> Zdigits2 m = d.
Proof.
  intros Hd [Hl Hu].
  assert (0 < 2 ^ (d - 1)) by (apply Z.pow_pos_nonneg; lia).
  pose proof (Zdigits2_le_of_lt m d ltac:(lia) ltac:(lia)).
  pose proof (Zdigits2_ge_of_le m (d - 1) ltac:(lia) Hl). lia.
Qed.

Lemma Zdigits2_shift n j :
  0 < n -> 0 <= j -> Zdigits2 (n * 2 ^ j) = Zdigits2 n + j.
Proof.
  intros Hn Hj. pose proof (Zdigits2_lower n Hn). pose proof (Zdigits2_upper n ltac:(lia)).
  assert (0 < Zdigits2 n) by (destruct n; simpl; lia).
  assert (0 < 2 ^ j) by (apply Z.pow_pos_nonneg; lia).
  apply Zdigits2_unique; [lia|].
  replace (Zdigits2 n + j - 1) with (Zdigits2 n - 1 + j) by lia.
  rewrite !Z.pow_add_r by lia. nia.
Qed.

Lemma iter_xO p d : Zpos (Pos.iter xO p d) = Zpos p * 2 ^ Zpos d.
Proof.
  induction d as [|d IH] using Pos.peano_ind.
  - simpl. lia.
  - rewrite Pos.iter_succ, Pos2Z.inj_succ, Z.pow_succ_r, Pos2Z.inj_xO by lia. lia.
Qed.

(** [float(n)] for a positive integer of at most 53 bits: no rounding. *)
Lemma of_Z_exact n :
  0 < n -> Zdigits2 n <= 53 ->
  of_Z n = pack (n * 2 ^ (53 - Zdigits2 n)) (Zdigits2 n - 53).
Proof.
  intros Hn Hd. destruct n as [|p|p]; try lia.
  unfold of_Z, binary_normalize, binary_round, shl_align.
  change (fexp prec emax) with fexp64. change (Zdigits2 (Zpos p)) with (Zpos (digits2_pos p)) in *.
  set (d := Zpos (digits2_pos p)) in *.
  assert (fexp64 (d + 0) = d - 53) as -> by (unfold fexp64; lia).
  assert (exists mz, (match d - 53 - 0 with
                      | Zneg k => (Pos.iter xO p k, d - 53)
                      | _ => (p, 0)
                      end) = (mz, d - 53) /\ Zpos mz = Zpos p * 2 ^ (53 - d))
    as (mz & -> & Hmz).
  { destruct (d - 53 - 0) as [|k|k] eqn:Ek; try lia.
    - exists p. replace (53 - d) with 0 by lia. split; [f_equal; lia | lia].
    - exists (Pos.iter xO p k). split; [reflexivity|].
      rewrite iter_xO. f_equal. f_equal. lia. }
  rewrite binary_round_aux_exact by lia. cbv zeta.
  assert (Zdigits2 (Zpos mz) = 53) as Hdm.
  { rewrite Hmz, Zdigits2_shift by lia. change (Zdigits2 (Zpos p)) with d. lia. }
  rewrite Hdm.
  assert (Z.max (d - 53) (fexp64 (53 + (d - 53))) = d - 53) as -> by (unfold fexp64; lia).
  rewrite Z.sub_diag, rne_0, Hdm.
  assert (Z.max (d - 53) (fexp64 (53 + (d - 53))) = d - 53) as -> by (unfold fexp64; lia).
  rewrite Z.sub_diag, Z.pow_0_r, Z.div_1_r, Hmz. reflexivity.
Qed.

Lemma trunc_pack m e :
  0 <= m -> e < 0 -> trunc (pack m e) = m / 2 ^ (- e).
Proof.
  intros Hm He. destruct m as [|p|p]; try lia; simpl.
  - now rewrite Z.div_0_l by (apply Z.pow_nonzero; lia).
  - replace (Z.leb e 971) with true by (symmetry; apply Z.leb_le; lia).
    destruct e as [|k|k]; try lia. simpl trunc.
    rewrite Z.shiftr_div_pow2 by lia. reflexivity.
Qed.

Lemma rne_bounds m k :
  0 <= m -> 0 <= k -> m / 2 ^ k <= rne m k <= m / 2 ^ k + 1.
Proof.
  intros Hm Hk. unfold rne.
  destruct (2 * (m mod 2 ^ k) ?= 2 ^ k); try lia. destruct (Z.even _); lia.
Qed.

Lemma rne_cases m k : 0 <= k ->
  exists q r, m = q * 2 ^ k + r /\ 0 <= r < 2 ^ k /\
   ((2 * r < 2 ^ k /\ rne m k = q)
    \/ (2 * r = 2 ^ k /\ (rne m k = q \/ rne m k = q + 1))
    \/ (2 ^ k < 2 * r /\ rne m k = q + 1)).
Proof.
  intros Hk. assert (0 < 2 ^ k) as Hp by (apply Z.pow_pos_nonneg; lia).
  exists (m / 2 ^ k), (m mod 2 ^ k).
  pose proof (Z.div_mod m (2 ^ k) ltac:(lia)).
  pose proof (Z.mod_pos_bound m (2 ^ k) Hp).
  split; [lia|]. split; [lia|]. unfold rne.
  destruct (Z.compare_spec (2 * (m mod 2 ^ k)) (2 ^ k)).
  - right. left. split; [assumption|]. destruct (Z.even _); auto.
  - left. auto.
  - right. right. auto.
Qed.

Lemma int_of_float_pack m e :
  0 <= m -> e <= 971 -> Py.int_of_float (pack m e) = Py.Ret (trunc (pack m e)).
Proof.
  intros Hm He. destruct m as [|p|p]; try lia; simpl; [reflexivity|].
  replace (Z.leb e 971) with true by (symmetry; apply Z.leb_le; lia).
  reflexivity.
Qed.

(** The product of a positive integer of at most 47 bits and a float in
    [1/2, 1), truncated. *)
Section RankIndex.
Variable M : positive.
Variables num den : Z.
Hypothesis M_range : 2 ^ 52 <= Zpos M < 2 ^ 53.
Hypothesis den_pos : 0 < den.
(** The linear arithmetic, which depends on the digits of [M]. *)
Hypothesis core : forall n W u K f B A m2,
  2 ^ 6 <= W -> 0 < n -> u = n * W -> 2 ^ 52 <= u < 2 ^ 53 ->
  num * n = den * K + f -> 0 <= f < den ->
  ((B = 2 ^ 53 /\ A = W) \/ (B = 2 ^ 52 /\ A = 2 * W)) ->
  B * 2 ^ 52 <= u * Zpos M < B * 2 ^ 53 ->
  (exists q r, u * Zpos M = q * B + r /\ 0 <= r < B /\
     ((2 * r < B /\ m2 = q) \/ (2 * r = B /\ (m2 = q \/ m2 = q + 1))
      \/ (B < 2 * r /\ m2 = q + 1))) ->
  K * A <= m2 < (K + 1) * A.

Lemma int_mul_float_exact n :
  0 < n < 2 ^ 47 ->
  Py.int_mul_float n (S754_finite false M (-53)) ≫= Py.int_of_float
  = Py.Ret (num * n / den).
Proof.
  intros [Hn Hlt].
  assert (Zdigits2 n <= 47) as Hd by (apply Zdigits2_le_of_lt; lia).
  assert (0 < Zdigits2 n) as Hd0 by (destruct n; simpl; lia).
  pose proof (Zdigits2_lower n Hn) as Hnl.
  pose proof (Zdigits2_upper n ltac:(lia)) as Hnu.
  set (d := Zdigits2 n) in *.
  set (W := 2 ^ (53 - d)).
  assert (2 ^ 6 <= W) as HW by (apply Z.pow_le_mono_r; lia).
  assert (2 ^ (d - 1) * W = 2 ^ 52) as E52
    by (unfold W; rewrite <- Z.pow_add_r by lia; f_equal; lia).
  assert (2 ^ d * W = 2 ^ 53) as E53
    by (unfold W; rewrite <- Z.pow_add_r by lia; f_equal; lia).
  set (u := n * W).
  assert (2 ^ 52 <= u < 2 ^ 53) as Hu by (unfold u; nia).
  unfold Py.int_mul_float, Py.float_of_int.
  rewrite of_Z_exact by (fold d; lia). fold d W u.
  destruct u as [|pu|pu] eqn:Eu; try lia.
  unfold pack at 1 2. replace (Z.leb (d - 53) 971) with true
    by (symmetry; apply Z.leb_le; lia).
  simpl is_finite. cbn [mbind Py.outcome_bind mret Py.outcome_ret].
  unfold mul, SFmul. simpl xorb. rewrite binary_round_aux_exact by lia.
  cbv zeta. rewrite Pos2Z.inj_mul. rewrite <- Eu in *.
  set (P := u * Zpos M) in *.
  assert (2 ^ 104 <= P < 2 ^ 106) as HP.
  { change (2 ^ 104) with (2 ^ 52 * 2 ^ 52). change (2 ^ 106) with (2 ^ 53 * 2 ^ 53).
    unfold P. nia. }
  pose proof (Zdigits2_ge_of_le P 104 ltac:(lia) ltac:(lia)) as HdP1.
  pose proof (Zdigits2_le_of_lt P 106 ltac:(lia) ltac:(lia)) as HdP2.
  pose proof (Zdigits2_lower P ltac:(lia)) as HPl.
  pose proof (Zdigits2_upper P ltac:(lia)) as HPu.
  set (dP := Zdigits2 P) in *.
  assert (Z.max (d - 53 + -53) (fexp64 (dP + (d - 53 + -53))) = dP + d - 159)
    as -> by (unfold fexp64; lia).
  replace (dP + d - 159 - (d - 53 + -53)) with (dP - 53) by lia.
  set (m2 := rne P (dP - 53)).
  pose proof (rne_bounds P (dP - 53) ltac:(lia) ltac:(lia)) as Hm2. fold m2 in Hm2.
  assert (0 < 2 ^ (dP - 53)) as HB by (apply Z.pow_pos_nonneg; lia).
  assert (2 ^ (dP - 53) * 2 ^ 52 <= P < 2 ^ (dP - 53) * 2 ^ 53) as HPB.
  { rewrite <- !Z.pow_add_r by lia.
    replace (dP - 53 + 52) with (dP - 1) by lia.
    replace (dP - 53 + 53) with dP by lia. lia. }
  assert (2 ^ 52 <= P / 2 ^ (dP - 53) < 2 ^ 53) as Hq.
  { split; [apply Z.div_le_lower_bound | apply Z.div_lt_upper_bound]; lia. }
  assert (Zdigits2 m2 <= 54) as Hdm2.
  { apply Zdigits2_le_of_lt; [lia|]. change (2 ^ 54) with (2 * 2 ^ 53). lia. }
  pose proof (Zdigits2_nonneg m2) as Hdm2'.
  set (e1 := dP + d - 159).
  set (e3 := Z.max e1 (fexp64 (Zdigits2 m2 + e1))).
  assert (e1 <= e3 < 0) as He3 by (unfold e3, e1, fexp64; lia).
  assert (0 < 2 ^ (e3 - e1)) by (apply Z.pow_pos_nonneg; lia).
  rewrite int_of_float_pack, trunc_pack; try lia;
    try (apply Z.div_pos; lia).
  rewrite Z.div_div by (try apply Z.pow_pos_nonneg; lia).
  rewrite <- Z.pow_add_r by lia. replace (e3 - e1 + - e3) with (- e1) by lia.
  f_equal.
  set (A := 2 ^ (- e1)).
  assert (0 < A) by (apply Z.pow_pos_nonneg; unfold e1; lia).
  pose proof (Z.div_mod (num * n) den ltac:(lia)) as HK.
  pose proof (Z.mod_pos_bound (num * n) den den_pos) as Hf.
  assert ((num * n / den) * A <= m2 < (num * n / den + 1) * A) as Hres.
  { apply (core n W u (num * n / den) ((num * n) mod den) (2 ^ (dP - 53)) A m2);
      try assumption; try reflexivity; try lia.
    - assert (dP = 105 \/ dP = 106) as [E|E] by lia; rewrite E; unfold A, e1; rewrite E.
      + right. split; [reflexivity|].
        replace (- (105 + d - 159)) with (Z.succ (53 - d)) by lia.
        rewrite Z.pow_succ_r by lia. reflexivity.
      + left. split; [reflexivity|]. unfold W. f_equal. lia.
    - apply rne_cases. lia. }
  symmetry. apply Z.div_unique with (r := m2 - num * n / den * A); lia.
Qed.
End RankIndex.

(** The linear arithmetic of [int_mul_float_exact] for the two literals.
    With [X = K * W] and [Y = f * W] everything is linear. *)
Ltac rank_core num den :=
  intros n W u K f B A m2 HW Hn Hu Hub HK Hf HB HP (q & r & Hq & Hr & Hm2);
  assert (num * u = den * (K * W) + f * W) as HX by nia;
  assert (0 <= f * W <= (den - 1) * W) as HY by nia;
  assert (f = 0 \/ W <= f * W) as Hf0 by nia;
  set (X := K * W) in *; set (Y := f * W) in *;
  assert (f = 0 -> Y = 0) as HY0 by (intros ->; reflexivity);
  assert ((K + 1) * W = X + W) as E1 by (unfold X; ring);
  assert (K * (2 * W) = 2 * X) as E2 by (unfold X; ring);
  assert ((K + 1) * (2 * W) = 2 * X + 2 * W) as E3 by (unfold X; ring);
  change (2 ^ 6) with 64 in *; change (2 ^ 52) with 4503599627370496 in *;
  change (2 ^ 53) with 9007199254740992 in *;
  destruct HB as [[-> ->]|[-> ->]];
  [rewrite E1; fold X; lia | rewrite E2, E3; lia].

Lemma core_0_95 : forall n W u K f B A m2,
  2 ^ 6 <= W -> 0 < n -> u = n * W -> 2 ^ 52 <= u < 2 ^ 53 ->
  19 * n = 20 * K + f -> 0 <= f < 20 ->
  ((B = 2 ^ 53 /\ A = W) \/ (B = 2 ^ 52 /\ A = 2 * W)) ->
  B * 2 ^ 52 <= u * 8556839292003942 < B * 2 ^ 53 ->
  (exists q r, u * 8556839292003942 = q * B + r /\ 0 <= r < B /\
     ((2 * r < B /\ m2 = q) \/ (2 * r = B /\ (m2 = q \/ m2 = q + 1))
      \/ (B < 2 * r /\ m2 = q + 1))) ->
  K * A <= m2 < (K + 1) * A.
Proof. rank_core 19 20. Qed.

Lemma core_0_99 : forall n W u K f B A m2,
  2 ^ 6 <= W -> 0 < n -> u = n * W -> 2 ^ 52 <= u < 2 ^ 53 ->
  99 * n = 100 * K + f -> 0 <= f < 100 ->
  ((B = 2 ^ 53 /\ A = W) \/ (B = 2 ^ 52 /\ A = 2 * W)) ->
  B * 2 ^ 52 <= u * 8917127262193582 < B * 2 ^ 53 ->
  (exists q r, u * 8917127262193582 = q * B + r /\ 0 <= r < B /\
     ((2 * r < B /\ m2 = q) \/ (2 * r = B /\ (m2 = q \/ m2 = q + 1))
      \/ (B < 2 * r /\ m2 = q + 1))) ->
  K * A <= m2 < (K + 1) * A.
Proof. rank_core 99 100. Qed.

End Rounding.
(** ** The order on floats *)

Module FloatOrder.
Import Binary64.
Local Open Scope Z_scope.

(** A float that is no NaN, as a point of a lexicographic order: the
    sign class, then the exponent, then the mantissa. *)
Definition key (x : float) : Z * Z * Z :=
  match x with
  | S754_infinity true => (-2, 0, 0)
  | S754_finite true m e => (-1, - e, - Zpos m)
  | S754_zero _ | S754_nan => (0, 0, 0)
  | S754_finite false m e => (1, e, Zpos m)
  | S754_infinity false => (2, 0, 0)
  end.

Definition lex (a b : Z * Z * Z) : comparison :=
  let '(a1, a2, a3) := a in
  let '(b1, b2, b3) := b in
  match Z.compare a1 b1 with
  | Eq => match Z.compare a2 b2 with Eq => Z.compare a3 b3 | c => c end
  | c => c
  end.

Lemma SFcompare_key x y :
  is_nan x = false -> is_nan y = false ->
  SFcompare x y = Some (lex (key x) (key y)).
Proof.
  destruct x as [[]|[]| |[] m1 e1], y as [[]|[]| |[] m2 e2];
    try discriminate; intros _ _; try reflexivity;
    unfold SFcompare, key, lex; rewrite ?Z.compare_refl, ?Pos.compare_cont_spec;
    simpl Pos.switch_Eq.
  rewrite !Z.compare_opp, (Z.compare_antisym e1 e2).
    change (Zpos m2 ?= Zpos m1) with (Pos.compare m2 m1).
    rewrite (Pos.compare_antisym m1 m2).
    destruct (e1 ?= e2), (m1 ?= m2)%positive; reflexivity.
Qed.

Lemma lex_le_total a b : lex a b <> Gt \/ lex b a <> Gt.
Proof.
  destruct a as [[a1 a2] a3], b as [[b1 b2] b3]. unfold lex.
  destruct (Z.compare_spec a1 b1), (Z.compare_spec b1 a1); try lia;
    try (left; discriminate); try (right; discriminate).
  destruct (Z.compare_spec a2 b2), (Z.compare_spec b2 a2); try lia;
    try (left; discriminate); try (right; discriminate).
  destruct (Z.compare_spec a3 b3), (Z.compare_spec b3 a3); try lia;
    try (left; discriminate); try (right; discriminate).
Qed.

Lemma lex_le_trans a b c : lex a b <> Gt -> lex b c <> Gt -> lex a c <> Gt.
Proof.
  destruct a as [[a1 a2] a3], b as [[b1 b2] b3], c as [[c1 c2] c3]. unfold lex.
  destruct (Z.compare_spec a1 b1), (Z.compare_spec b1 c1), (Z.compare_spec a1 c1);
    try lia; try congruence;
  destruct (Z.compare_spec a2 b2), (Z.compare_spec b2 c2), (Z.compare_spec a2 c2);
    try lia; try congruence;
  destruct (Z.compare_spec a3 b3), (Z.compare_spec b3 c3), (Z.compare_spec a3 c3);
    try lia; congruence.
Qed.

Lemma lex_antisym a b : lex b a = CompOpp (lex a b).
Proof.
  destruct a as [[a1 a2] a3], b as [[b1 b2] b3]. unfold lex.
  rewrite (Z.compare_antisym a1 b1), (Z.compare_antisym a2 b2),
    (Z.compare_antisym a3 b3).
  destruct (a1 ?= b1), (a2 ?= b2), (a3 ?= b3); reflexivity.
Qed.

Lemma leb_key x y :
  is_nan x = false -> is_nan y = false ->
  leb x y = true <-> lex (key x) (key y) <> Gt.
Proof.
  intros Hx Hy. unfold leb, SFleb. rewrite SFcompare_key by assumption.
  destruct (lex (key x) (key y)); split; congruence.
Qed.

Lemma ltb_key x y :
  is_nan x = false -> is_nan y = false ->
  ltb x y = true <-> lex (key x) (key y) = Lt.
Proof.
  intros Hx Hy. unfold ltb, SFltb. rewrite SFcompare_key by assumption.
  destruct (lex (key x) (key y)); split; congruence.
Qed.

Lemma leb_refl x : is_nan x = false -> leb x x = true.
Proof.
  intros Hx. apply leb_key; try assumption.
  destruct (key x) as [[a b] c]. unfold lex. now rewrite !Z.compare_refl.
Qed.

Lemma leb_total x y :
  is_nan x = false -> is_nan y = false -> leb x y = true \/ leb y x = true.
Proof.
  intros Hx Hy. rewrite !leb_key by assumption. apply lex_le_total.
Qed.

Lemma leb_trans x y z :
  is_nan x = false -> is_nan y = false -> is_nan z = false ->
  leb x y = true -> leb y z = true -> leb x z = true.
Proof.
  intros Hx Hy Hz. rewrite !leb_key by assumption. apply lex_le_trans.
Qed.

(** [not (y < x)] is [x <= y], as long as no NaN is compared. *)
Lemma ltb_false_leb x y :
  is_nan x = false -> is_nan y = false -> ltb y x = false -> leb x y = true.
Proof.
  intros Hx Hy H. apply leb_key; try assumption.
  intros E. rewrite lex_antisym in E.
  assert (lex (key y) (key x) = Lt) as E' by (destruct (lex (key y) (key x)); simpl in E; congruence).
  apply ltb_key in E'; try assumption. congruence.
Qed.

Lemma ltb_leb x y :
  is_nan x = false -> is_nan y = false -> ltb x y = true -> leb x y = true.
Proof.
  intros Hx Hy H. apply ltb_key in H; try assumption.
  apply leb_key; try assumption. congruence.
Qed.

End FloatOrder.

(** ** The value of a rounding *)

Module RoundingValue.
Import Binary64 Py Rounding FloatOrder.
Local Open Scope Z_scope.

(** The mantissa a rounding leaves at the exponent [c], brought to the
    exponent the format gives to its magnitude: the value is kept, and
    the result is canonical. *)
Lemma normalize_canonical q c :
  0 <= q <= 2 ^ 53 -> -1074 <= c -> (-1074 < c -> 2 ^ 52 <= q) ->
  let E := Z.max c (fexp64 (Zdigits2 q + c)) in
  let Q := q / 2 ^ (E - c) in
  c <= E <= c + 1 /\ Q * 2 ^ (E - c) = q /\ 0 <= Q
  /\ (Q = 0 \/ fexp64 (Zdigits2 Q + E) = E).
Proof.
  intros [Hq0 Hq] Hc Hn E Q.
  destruct (Z.eq_dec q (2 ^ 53)) as [Eq|Nq].
  - assert (Zdigits2 q = 54) as Hd
      by (rewrite Eq; reflexivity).
    assert (E = c + 1) as HE by (unfold E, fexp64; rewrite Hd; lia).
    unfold Q. rewrite HE, Eq. replace (c + 1 - c) with 1 by lia.
    change (2 ^ 53 / 2 ^ 1) with (2 ^ 52).
    split; [lia|]. split; [reflexivity|]. split; [lia|]. right.
    change (Zdigits2 (2 ^ 52)) with 53. unfold fexp64. lia.
  - assert (Zdigits2 q <= 53) as Hd by (apply Zdigits2_le_of_lt; lia).
    pose proof (Zdigits2_nonneg q) as Hd0.
    assert (E = c) as HE by (unfold E, fexp64; lia).
    unfold Q. rewrite HE, Z.sub_diag, Z.pow_0_r, Z.div_1_r, Z.mul_1_r.
    split; [lia|]. split; [reflexivity|]. split; [lia|].
    destruct (Z.eq_dec q 0) as [|Hq1]; [now left | right].
    destruct (Z.eq_dec c (-1074)) as [->|Hc1]; [unfold fexp64; lia|].
    assert (53 <= Zdigits2 q)
      by (apply (Zdigits2_ge_of_le q 52); [lia | apply Hn; lia]).
    unfold fexp64. lia.
Qed.

(** A rounding of a mantissa whose exponent is at most the one the
    format gives to its magnitude: the mantissa [q] kept at that exponent
    [c] is the quotient or the next integer, the nearest even one for an
    exact input, and the result is canonical with the value [q * 2^c]. *)
Lemma round_desc mx ex lx :
  0 <= mx ->
  let c := fexp64 (Zdigits2 mx + ex) in
  ex <= c ->
  exists q Q E,
    binary_round_aux 53 1024 false mx ex lx = pack Q E
    /\ (q = mx / 2 ^ (c - ex) \/ q = mx / 2 ^ (c - ex) + 1)
    /\ (lx = loc_Exact -> q = rne mx (c - ex))
    /\ c <= E <= c + 1 /\ Q * 2 ^ (E - c) = q /\ 0 <= Q
    /\ (Q = 0 \/ fexp64 (Zdigits2 Q + E) = E).
Proof.
  intros Hmx c Hc.
  assert (exists m2, (m2 = mx / 2 ^ (c - ex) \/ m2 = mx / 2 ^ (c - ex) + 1)
            /\ (lx = loc_Exact -> m2 = rne mx (c - ex))
            /\ binary_round_aux 53 1024 false mx ex lx
               = pack (m2 / 2 ^ (Z.max c (fexp64 (Zdigits2 m2 + c)) - c))
                   (Z.max c (fexp64 (Zdigits2 m2 + c))))
    as (m2 & Hm2 & Hex & Heq).
  { destruct lx as [|cmp].
    - exists (rne mx (c - ex)). split; [|split; [reflexivity|]].
      + pose proof (rne_bounds mx (c - ex) Hmx ltac:(lia)) as Hb.
        unfold rne in *. destruct (_ ?= _); try (left; reflexivity);
          try (right; reflexivity). destruct (Z.even _); auto.
      + rewrite binary_round_aux_exact by assumption. cbv zeta.
        fold c. replace (Z.max ex c) with c by lia. reflexivity.
    - destruct (binary_round_aux_shape mx ex (loc_Inexact cmp) Hmx)
        as (m2 & Hm2 & Heq).
      fold c in Hm2, Heq. replace (Z.max ex c) with c in * by lia.
      exists m2. split; [assumption|]. split; [discriminate | exact Heq]. }
  pose proof (Zdigits2_upper mx Hmx) as Hu.
  pose proof (Zdigits2_nonneg mx) as Hd0.
  set (d := Zdigits2 mx) in *.
  assert (-1074 <= c /\ d + ex - 53 <= c) as [Hc0 Hc1] by (unfold c, fexp64; lia).
  assert (0 < 2 ^ (c - ex)) as Hp by (apply Z.pow_pos_nonneg; lia).
  assert (0 <= mx / 2 ^ (c - ex) < 2 ^ 53) as Hm1.
  { split; [apply Z.div_pos; lia|]. apply Z.div_lt_upper_bound; [lia|].
    destruct (Z_le_gt_dec (d - 53) 0) as [Hle|Hgt].
    - assert (2 ^ d <= 2 ^ 53) by (apply Z.pow_le_mono_r; lia). nia.
    - assert (2 ^ d <= 2 ^ (c - ex) * 2 ^ 53).
      { rewrite <- Z.pow_add_r by lia. apply Z.pow_le_mono_r; lia. }
      lia. }
  assert (-1074 < c -> 2 ^ 52 <= mx / 2 ^ (c - ex)) as Hnorm.
  { intros Hn. assert (c = d + ex - 53) as Ec by (unfold c, fexp64 in *; lia).
    assert (0 < mx) by (destruct (Z.eq_dec mx 0) as [E0|]; [|lia];
                        unfold d in *; rewrite E0 in *; simpl in *; lia).
    pose proof (Zdigits2_lower mx ltac:(lia)) as Hl. fold d in Hl.
    apply Z.div_le_lower_bound; [lia|].
    rewrite <- Z.pow_add_r by lia. replace (c - ex + 52) with (d - 1) by lia.
    assumption. }
  destruct (normalize_canonical m2 c ltac:(lia) Hc0 ltac:(intros; specialize (Hnorm ltac:(assumption)); lia))
    as (HE & HQ & HQ0 & Hcan).
  exists m2, (m2 / 2 ^ (Z.max c (fexp64 (Zdigits2 m2 + c)) - c)),
    (Z.max c (fexp64 (Zdigits2 m2 + c))).
  repeat split; try assumption; lia.
Qed.

(** Rounding to nearest does not cross a point of the scale. *)
Lemma rne_le_grid m k G : 0 <= m -> 0 <= k -> m <= G * 2 ^ k -> rne m k <= G.
Proof.
  intros Hm Hk HG. assert (0 < 2 ^ k) as Hp by (apply Z.pow_pos_nonneg; lia).
  destruct (rne_cases m k Hk) as (q & r & Hq & Hr & Hcase).
  destruct (Z.eq_dec r 0) as [->|Hr0].
  - destruct Hcase as [[_ ->]|[[H2 _]|[H2 _]]]; nia.
  - assert (q < G) by nia.
    destruct Hcase as [[_ ->]|[[_ [->| ->]]|[_ ->]]]; lia.
Qed.

(** A positive float is canonical when its exponent is the one the
    format gives to its magnitude; it is then a binary64 value if the
    exponent is at most 971. *)
Definition canonical (m e : Z) : Prop := fexp64 (Zdigits2 m + e) = e.

Lemma valid_binary_canonical s m e :
  valid_binary prec emax (S754_finite s m e) = true ->
  canonical (Zpos m) e /\ e <= 971.
Proof.
  unfold valid_binary, bounded, canonical_mantissa.
  intros [H1 H2]%andb_prop. apply Z.eqb_eq in H1. apply Z.leb_le in H2.
  split; [exact H1 | exact H2].
Qed.

Lemma canonical_bounds m e :
  0 < m -> canonical m e ->
  -1074 <= e /\ m < 2 ^ 53 /\ (-1074 < e -> 2 ^ 52 <= m).
Proof.
  unfold canonical, fexp64. intros Hm Hc.
  pose proof (Zdigits2_lower m Hm). pose proof (Zdigits2_upper m ltac:(lia)).
  split; [lia|]. split.
  - assert (2 ^ Zdigits2 m <= 2 ^ 53) by (apply Z.pow_le_mono_r; lia). lia.
  - intros He. replace (Zdigits2 m) with 53 in * by lia. assumption.
Qed.

(** The value of a float in units of 2^-1074, the least positive
    binary64 value. *)
Definition ival (m e : Z) : Z := m * 2 ^ (e + 1074).

(** Canonical floats are ordered as their values are. *)
Lemma canonical_order m1 e1 m2 e2 :
  0 < m1 -> 0 < m2 -> canonical m1 e1 -> canonical m2 e2 ->
  ival m1 e1 <= ival m2 e2 <-> e1 < e2 \/ (e1 = e2 /\ m1 <= m2).
Proof.
  intros H1 H2 C1 C2. unfold ival.
  destruct (canonical_bounds _ _ H1 C1) as (He1 & Hu1 & Hn1).
  destruct (canonical_bounds _ _ H2 C2) as (He2 & Hu2 & Hn2).
  assert (0 < 2 ^ (e1 + 1074)) as P1 by (apply Z.pow_pos_nonneg; lia).
  assert (0 < 2 ^ (e2 + 1074)) as P2 by (apply Z.pow_pos_nonneg; lia).
  destruct (Z.lt_trichotomy e1 e2) as [Hlt|[Heq|Hgt]].
  - split; [auto|]. intros _. specialize (Hn2 ltac:(lia)).
    assert (2 ^ (e2 + 1074) = 2 ^ (e1 + 1074) * 2 ^ (e2 - e1)) as E
      by (rewrite <- Z.pow_add_r by lia; f_equal; lia).
    assert (2 <= 2 ^ (e2 - e1))
      by (change 2 with (2 ^ 1) at 1; apply Z.pow_le_mono_r; lia).
    rewrite E. change (2 ^ 53) with (2 * 2 ^ 52) in Hu1. nia.
  - subst e2. split; [intros H; right; split; [reflexivity | nia] | nia].
  - split; [|lia]. intros H. exfalso. specialize (Hn1 ltac:(lia)).
    assert (2 ^ (e1 + 1074) = 2 ^ (e2 + 1074) * 2 ^ (e1 - e2)) as E
      by (rewrite <- Z.pow_add_r by lia; f_equal; lia).
    assert (2 <= 2 ^ (e1 - e2))
      by (change 2 with (2 ^ 1) at 1; apply Z.pow_le_mono_r; lia).
    rewrite E in H. change (2 ^ 53) with (2 * 2 ^ 52) in Hu2. nia.
Qed.

Lemma leb_finite m1 e1 m2 e2 :
  leb (S754_finite false m1 e1) (S754_finite false m2 e2) = true
  <-> e1 < e2 \/ (e1 = e2 /\ Zpos m1 <= Zpos m2).
Proof.
  unfold leb, SFleb, SFcompare. rewrite Pos.compare_cont_spec. simpl.
  destruct (Z.compare_spec e1 e2) as [->|H|H].
  - destruct (Pos.compare_spec m1 m2); split; try discriminate; try lia;
      intros; reflexivity.
  - split; [auto | reflexivity].
  - split; [discriminate | lia].
Qed.

(** A rounding result whose value is at most that of a binary64 value
    is at most that value. *)
Lemma pack_le_finite Q E mh eh :
  0 <= Q -> (Q = 0 \/ canonical Q E) ->
  canonical (Zpos mh) eh -> eh <= 971 ->
  ival Q E <= ival (Zpos mh) eh ->
  leb (pack Q E) (S754_finite false mh eh) = true.
Proof.
  intros HQ Hcan Ch He Hval.
  destruct Q as [|q|q]; try lia; [reflexivity|].
  destruct Hcan as [|CQ]; [discriminate|].
  apply canonical_order in Hval; try lia; try assumption.
  simpl. replace (Z.leb E 971) with true by (symmetry; apply Z.leb_le; lia).
  now apply leb_finite.
Qed.

Lemma fexp64_mono a b : a <= b -> fexp64 a <= fexp64 b.
Proof. unfold fexp64. lia. Qed.

Lemma ival_pack_value q Q E c :
  -1074 <= c -> c <= E -> Q * 2 ^ (E - c) = q -> ival Q E = q * 2 ^ (c + 1074).
Proof.
  intros Hc HE <-. unfold ival.
  replace (E + 1074) with (E - c + (c + 1074)) by lia.
  rewrite Z.pow_add_r by lia. ring.
Qed.

(** The sum of two positive binary64 values, the first at most the
    second: a rounding result, canonical, of value at most twice the
    second. *)
Lemma add_desc ml el mh eh :
  canonical (Zpos ml) el -> canonical (Zpos mh) eh ->
  el <= eh -> ival (Zpos ml) el <= ival (Zpos mh) eh ->
  exists Q E,
    add (S754_finite false ml el) (S754_finite false mh eh) = pack Q E
    /\ 0 <= Q /\ (Q = 0 \/ canonical Q E)
    /\ ival Q E <= 2 * ival (Zpos mh) eh.
Proof.
  intros Cl Ch Hle Hval.
  destruct (canonical_bounds (Zpos ml) el ltac:(lia) Cl) as (Hel & _ & _).
  unfold add, SFadd. replace (Z.min el eh) with el by lia.
  unfold shl_align at 1. rewrite Z.sub_diag. simpl fst.
  assert (exists mh', fst (shl_align mh eh el) = mh'
            /\ Zpos mh' = Zpos mh * 2 ^ (eh - el)) as (mh' & -> & Hmh').
  { unfold shl_align. destruct (el - eh) as [|d|d] eqn:Ed; try lia.
    - exists mh. split; [reflexivity|]. replace (eh - el) with 0 by lia. lia.
    - exists (Pos.iter xO mh d). split; [reflexivity|].
      rewrite iter_xO. f_equal. f_equal. lia. }
  unfold cond_Zopp. change (Zpos ml + Zpos mh') with (Zpos (ml + mh')).
  unfold binary_normalize, binary_round.
  change (fexp prec emax) with fexp64.
  change (Zpos (digits2_pos (ml + mh'))) with (Zdigits2 (Zpos (ml + mh'))).
  set (S := Zpos (ml + mh')).
  assert (S = Zpos ml + Zpos mh * 2 ^ (eh - el)) as HS by (unfold S; lia).
  assert (0 < 2 ^ (eh - el)) as Hp by (apply Z.pow_pos_nonneg; lia).
  assert (Zpos ml <= Zpos mh * 2 ^ (eh - el)) as Hlm.
  { unfold ival in Hval.
    replace (eh + 1074) with (eh - el + (el + 1074)) in Hval by lia.
    rewrite (Z.pow_add_r 2 (eh - el) (el + 1074)) in Hval by lia.
    assert (0 < 2 ^ (el + 1074)) by (apply Z.pow_pos_nonneg; lia). nia. }
  set (c := fexp64 (Zdigits2 S + el)).
  assert (el <= c) as Hc.
  { unfold canonical in Cl. rewrite <- Cl at 1. apply fexp64_mono.
    assert (Zdigits2 (Zpos ml) <= Zdigits2 S) by (apply Zdigits2_mono; lia). lia. }
  assert (c <= eh + 1) as Hc'.
  { unfold canonical in Ch.
    assert (Zdigits2 S <= Zdigits2 (Zpos mh) + (eh - el) + 1) as Hd.
    { pose proof (Zdigits2_upper (Zpos mh) ltac:(lia)) as Hu.
      pose proof (Zdigits2_nonneg (Zpos mh)).
      apply Zdigits2_le_of_lt; [lia|]. split; [lia|].
      rewrite !Z.pow_add_r by lia. change (2 ^ 1) with 2. nia. }
    assert (c <= fexp64 (Zdigits2 (Zpos mh) + eh + 1))
      by (apply fexp64_mono; lia).
    unfold fexp64 in *. lia. }
  assert ((let '(mz, ez) := shl_align (ml + mh') el c in
           binary_round_aux prec emax false (Zpos mz) ez loc_Exact)
          = binary_round_aux 53 1024 false S el loc_Exact) as ->.
  { unfold shl_align. destruct (c - el) eqn:Ec; try lia; reflexivity. }
  destruct (round_desc S el loc_Exact ltac:(lia) Hc)
    as (q & Q & E & Heq & _ & Hq & HE & HQ & HQ0 & Hcan).
  fold c in Hq, HE, HQ. specialize (Hq eq_refl).
  exists Q, E. split; [exact Heq|]. split; [assumption|].
  split; [destruct Hcan; [left | right]; assumption|].
  rewrite (ival_pack_value q Q E c) by lia.
  assert (q <= Zpos mh * 2 ^ (eh + 1 - c)) as Hqle.
  { rewrite Hq. apply rne_le_grid; try lia.
    rewrite <- Z.mul_assoc, <- Z.pow_add_r by lia.
    replace (eh + 1 - c + (c - el)) with (Z.succ (eh - el)) by lia.
    rewrite Z.pow_succ_r by lia. lia. }
  unfold ival.
  assert (0 < 2 ^ (c + 1074)) by (apply Z.pow_pos_nonneg; lia).
  replace (eh + 1074) with (eh + 1 - c + (c + 1074) - 1) by lia.
  assert (2 * 2 ^ (eh + 1 - c + (c + 1074) - 1) = 2 ^ (eh + 1 - c) * 2 ^ (c + 1074)) as E2.
  { rewrite <- Z.pow_succ_r by lia. rewrite <- Z.pow_add_r by lia. f_equal. lia. }
  nia.
Qed.

(** Half a positive binary64 value: a rounding result, canonical, whose
    value is at most any multiple [H] of 2^-1074 that is at least the
    exact half. *)
Lemma half_desc p E :
  canonical (Zpos p) E ->
  exists Q' E',
    div (S754_finite false p E) two = pack Q' E'
    /\ 0 <= Q' /\ (Q' = 0 \/ canonical Q' E')
    /\ forall H, ival (Zpos p) E <= 2 * H -> ival Q' E' <= H.
Proof.
  intros C. destruct (canonical_bounds (Zpos p) E ltac:(lia) C) as (HE & Hu & Hn).
  unfold div, two, SFdiv, SFdiv_core_binary. simpl xorb.
  change (fexp prec emax) with fexp64.
  change (Zdigits2 4503599627370496) with 53.
  set (d := Zdigits2 (Zpos p)).
  assert (d <= 53) as Hd by (apply Zdigits2_le_of_lt; lia).
  pose proof (Zdigits2_nonneg (Zpos p)) as Hd0. fold d in Hd0.
  set (e' := Z.min (fexp64 (d + E - (53 + -51))) (E - -51)).
  destruct (Z.eq_dec E (-1074)) as [HE0|HE0].
  - (* the least exponent: the last bit is rounded *)
    assert (e' = -1074) as He' by (unfold e', fexp64; lia).
    rewrite He'. replace (E - -51 - -1074) with 51 by lia.
    rewrite Z.shiftl_mul_pow2 by lia.
    pose proof (Z_div_mod (Zpos p * 2 ^ 51) 4503599627370496 ltac:(lia)) as Hdm.
    destruct (Z.div_eucl (Zpos p * 2 ^ 51) 4503599627370496) as [q0 r].
    destruct Hdm as [Heq Hr]. change (2 ^ 51) with 2251799813685248 in Heq.
    assert (0 <= q0) as Hq0 by lia.
    assert (q0 < 2 ^ 52) as Hq52 by (change (2 ^ 52) with 4503599627370496;
                                     change (2 ^ 53) with 9007199254740992 in Hu; lia).
    assert (Zdigits2 q0 <= 52) as Hdq by (apply Zdigits2_le_of_lt; lia).
    pose proof (Zdigits2_nonneg q0) as Hdq0.
    assert (fexp64 (Zdigits2 q0 + -1074) = -1074) as Hc by (unfold fexp64; lia).
    destruct (round_desc q0 (-1074) (new_location 4503599627370496 r) Hq0
                ltac:(rewrite Hc; lia))
      as (q & Q' & E' & Heq' & Hq & Hex & HE' & HQ & HQ0 & Hcan).
    rewrite Hc in Hq, Hex, HE', HQ. rewrite Z.sub_diag in Hq, Hex.
    change (2 ^ 0) with 1 in Hq. rewrite Z.div_1_r in Hq. rewrite rne_0 in Hex.
    exists Q', E'. split; [exact Heq'|]. split; [assumption|].
    split; [destruct Hcan; [left | right]; assumption|].
    intros H Hval. rewrite (ival_pack_value q Q' E' (-1074)) by lia.
    unfold ival in Hval. rewrite HE0 in Hval. simpl in Hval |- *.
    destruct (Z.eq_dec r 0) as [Hr0|Hr0].
    + rewrite Hr0, new_location_0 in Hex. specialize (Hex eq_refl). lia.
    + lia.
  - (* above it the mantissa is kept *)
    assert (d = 53) as Hd53.
    { specialize (Hn ltac:(lia)).
      pose proof (Zdigits2_ge_of_le (Zpos p) 52 ltac:(lia) Hn). lia. }
    assert (exists mq, e' <= E - 1 /\
              (let '(q, r) := Z.div_eucl
                 match E - -51 - e' with
                 | 0 => Zpos p
                 | Zpos _ => Z.shiftl (Zpos p) (E - -51 - e')
                 | Zneg _ => 0
                 end 4503599627370496 in
               (q, e', new_location 4503599627370496 r))
              = (mq, e', loc_Exact)
              /\ mq = Zpos p * 2 ^ (E - 1 - e')) as (mq & He' & -> & Hmq).
    { destruct (Z.eq_dec E (-1073)) as [->|HE1].
      - assert (e' = -1074) as -> by (unfold e', fexp64; lia).
        exists (Zpos p). split; [lia|].
        change (-1073 - -51 - -1074) with 52.
        rewrite Z.shiftl_mul_pow2 by lia.
        pose proof (Z_div_mod (Zpos p * 2 ^ 52) 4503599627370496 ltac:(lia)) as Hdm.
        destruct (Z.div_eucl (Zpos p * 2 ^ 52) 4503599627370496) as [q0 r].
        destruct Hdm as [Heq Hr]. change (2 ^ 52) with 4503599627370496 in Heq.
        assert (q0 = Zpos p /\ r = 0) as [-> ->] by lia.
        rewrite new_location_0. split; [reflexivity | simpl; lia].
      - assert (e' = E - 2) as -> by (unfold e', fexp64; lia).
        exists (2 * Zpos p). split; [lia|].
        replace (E - -51 - (E - 2)) with 53 by lia.
        rewrite Z.shiftl_mul_pow2 by lia.
        pose proof (Z_div_mod (Zpos p * 2 ^ 53) 4503599627370496 ltac:(lia)) as Hdm.
        destruct (Z.div_eucl (Zpos p * 2 ^ 53) 4503599627370496) as [q0 r].
        destruct Hdm as [Heq Hr]. change (2 ^ 53) with 9007199254740992 in Heq.
        assert (q0 = 2 * Zpos p /\ r = 0) as [-> ->] by lia.
        rewrite new_location_0. split; [reflexivity|].
        replace (E - 1 - (E - 2)) with 1 by lia. simpl; lia. }
    assert (-1074 <= e') as He'0 by (unfold e', fexp64; lia).
    assert (0 < 2 ^ (E - 1 - e')) as Hp by (apply Z.pow_pos_nonneg; lia).
    assert (Zdigits2 mq = 53 + (E - 1 - e')) as Hdmq
      by (rewrite Hmq, Zdigits2_shift by lia; fold d; lia).
    assert (fexp64 (Zdigits2 mq + e') = E - 1) as Hc
      by (rewrite Hdmq; unfold fexp64; lia).
    destruct (round_desc mq e' loc_Exact ltac:(lia) ltac:(rewrite Hc; lia))
      as (q & Q' & E' & Heq' & _ & Hex & HE' & HQ & HQ0 & Hcan).
    rewrite Hc in Hex, HE', HQ. specialize (Hex eq_refl).
    assert (q = Zpos p) as Hq.
    { rewrite Hex, Hmq. unfold rne.
      rewrite Z.div_mul, Z.mod_mul by lia. simpl.
      destruct (2 ^ (E - 1 - e')) eqn:E2; try lia; try reflexivity. }
    exists Q', E'. split; [exact Heq'|]. split; [assumption|].
    split; [destruct Hcan; [left | right]; assumption|].
    intros H Hval. rewrite (ival_pack_value q Q' E' (E - 1)) by lia.
    unfold ival in Hval. rewrite Hq.
    replace (E + 1074) with (Z.succ (E - 1 + 1074)) in Hval by lia.
    rewrite Z.pow_succ_r in Hval by lia. lia.
Qed.

(** The values a latency can take: zero, a positive binary64 number in
    canonical form, or infinity. *)
Definition nonneg64 (x : float) : bool :=
  match x with
  | S754_zero false | S754_infinity false => true
  | S754_finite false m e =>
      Z.eqb (fexp64 (Zdigits2 (Zpos m) + e)) e && Z.leb e 971
  | _ => false
  end.

Lemma nonneg64_finite m e :
  nonneg64 (S754_finite false m e) = true <-> canonical (Zpos m) e /\ e <= 971.
Proof.
  unfold nonneg64, canonical. rewrite andb_true_iff, Z.eqb_eq, Z.leb_le. tauto.
Qed.

Lemma nonneg64_pack Q E :
  0 <= Q -> (Q = 0 \/ canonical Q E) -> nonneg64 (pack Q E) = true.
Proof.
  intros HQ Hcan. destruct Q as [|p|p]; try lia; [reflexivity|].
  destruct Hcan as [|Hcan]; [discriminate|]. unfold pack.
  destruct (Z.leb E 971) eqn:HE; [|reflexivity].
  apply nonneg64_finite. split; [exact Hcan | now apply Z.leb_le].
Qed.

Lemma nonneg64_no_nan x : nonneg64 x = true -> is_nan x = false.
Proof.
  destruct x as [[]|[]| |[] m e]; simpl; intros H; try reflexivity;
    discriminate.
Qed.

Lemma nonneg64_zero_leb x : nonneg64 x = true -> leb zero x = true.
Proof.
  destruct x as [[]|[]| |[] m e]; simpl; intros H; try reflexivity;
    discriminate.
Qed.

(** Half a value is at most any value the whole is at most twice. *)
Lemma half_le Q E mh eh :
  0 <= Q -> (Q = 0 \/ canonical Q E) -> E <= 971 ->
  canonical (Zpos mh) eh -> eh <= 971 ->
  ival Q E <= 2 * ival (Zpos mh) eh ->
  leb (div (pack Q E) two) (S754_finite false mh eh) = true.
Proof.
  intros HQ Hcan HE Ch Heh Hval.
  destruct Q as [|p|p]; try lia; [reflexivity|].
  destruct Hcan as [|Hcan]; [discriminate|].
  unfold pack. apply Z.leb_le in HE. rewrite HE.
  destruct (half_desc p E Hcan) as (Q' & E' & -> & HQ' & Hcan' & Hle).
  apply pack_le_finite; auto.
Qed.

(** The median of an even number of latencies, half the sum of the two
    middle values [lo <= hi], is at most [hi], unless the sum of two
    finite values overflows. *)
Lemma mean_le_upper lo hi :
  nonneg64 lo = true -> nonneg64 hi = true -> leb lo hi = true ->
  (is_finite hi = true -> is_finite (add lo hi) = true) ->
  leb (div (add lo hi) two) hi = true.
Proof.
  intros Vl Vh Hle Hfin.
  destruct hi as [[]|[]| |[] mh eh]; try discriminate.
  - (* hi = 0 *)
    destruct lo as [[]|[]| |[] ml el]; try discriminate. reflexivity.
  - (* hi infinite *)
    destruct lo as [[]|[]| |[] ml el]; try discriminate; reflexivity.
  - apply nonneg64_finite in Vh as [Ch Heh].
    destruct lo as [[]|[]| |[] ml el]; try discriminate.
    + (* lo = 0 *)
      change (add (S754_zero false) (S754_finite false mh eh))
        with (S754_finite false mh eh).
      assert (S754_finite false mh eh = pack (Zpos mh) eh) as Hp.
      { unfold pack. apply Z.leb_le in Heh. now rewrite Heh. }
      rewrite Hp at 1.
      apply half_le; auto; try lia.
      unfold ival. assert (0 < 2 ^ (eh + 1074)); [|lia].
      apply Z.pow_pos_nonneg; [lia|].
      destruct (canonical_bounds (Zpos mh) eh ltac:(lia) Ch). lia.
    + apply nonneg64_finite in Vl as [Cl Hel].
      apply leb_finite in Hle.
      assert (ival (Zpos ml) el <= ival (Zpos mh) eh) as Hval
        by (apply canonical_order; auto; lia).
      destruct (add_desc ml el mh eh Cl Ch ltac:(lia) Hval)
        as (Q & E & Heq & HQ & Hcan & Hsum).
      specialize (Hfin eq_refl). rewrite Heq in Hfin |- *.
      destruct (Z.leb E 971) eqn:HE.
      * apply Z.leb_le in HE. apply half_le; auto.
      * destruct Q as [|p|p]; try lia; [reflexivity|].
        unfold pack in Hfin. rewrite HE in Hfin. discriminate.
Qed.

(** A quotient of a nonnegative integer by a positive one, as [float]
    reads a numeral, is such a value. *)
Lemma of_quotient_nonneg64 a b :
  0 <= a -> 0 < b -> nonneg64 (of_quotient a b) = true.
Proof.
  intros Ha Hb. destruct b as [|d|d]; try lia.
  destruct a as [|p|p]; try lia; [reflexivity|].
  unfold of_quotient, div, exact, SFdiv. simpl xorb.
  change prec with 53. change emax with 1024.
  unfold SFdiv_core_binary. change (fexp 53 1024) with fexp64.
  set (d1 := Zdigits2 (Zpos p)). set (d2 := Zdigits2 (Zpos d)).
  pose proof (Zdigits2_lower (Zpos p) ltac:(lia)) as Hl1.
  pose proof (Zdigits2_upper (Zpos p) ltac:(lia)) as Hu1.
  pose proof (Zdigits2_lower (Zpos d) ltac:(lia)) as Hl2.
  pose proof (Zdigits2_upper (Zpos d) ltac:(lia)) as Hu2.
  fold d1 in Hl1, Hu1. fold d2 in Hl2, Hu2.
  assert (1 <= d1) as Hd1.
  { pose proof (Zdigits2_ge_of_le (Zpos p) 0 ltac:(lia) ltac:(simpl; lia)).
    fold d1 in H. lia. }
  assert (1 <= d2) as Hd2.
  { pose proof (Zdigits2_ge_of_le (Zpos d) 0 ltac:(lia) ltac:(simpl; lia)).
    fold d2 in H. lia. }
  rewrite !Z.add_0_r. change (0 - 0) with 0.
  set (e' := Z.min (fexp64 (d1 - d2)) 0).
  assert (-1074 <= e' <= 0) as He' by (unfold e', fexp64; lia).
  set (m' := match 0 - e' with
             | 0 => Zpos p
             | Zpos _ => Z.shiftl (Zpos p) (0 - e')
             | Zneg _ => 0
             end).
  assert (m' = Zpos p * 2 ^ (- e')) as Hm'.
  { unfold m'. replace (0 - e') with (- e') by lia.
    destruct (- e') eqn:E;
      [simpl; lia | now rewrite Z.shiftl_mul_pow2 by lia | lia]. }
  clearbody m'.
  pose proof (Z_div_mod m' (Zpos d) ltac:(lia)) as Hdm.
  destruct (Z.div_eucl m' (Zpos d)) as [q r]. destruct Hdm as [Heq Hr].
  assert (0 < 2 ^ (- e')) as Hp by (apply Z.pow_pos_nonneg; lia).
  assert (0 <= q) as Hq by nia.
  assert (e' <= fexp64 (Zdigits2 q + e')) as Hpre.
  { destruct (Z.eq_dec e' (-1074)) as [->|Hne]; [unfold fexp64; lia|].
    assert (53 <= Zdigits2 q); [|unfold fexp64; lia].
    destruct (Z.eq_dec e' 0) as [E0|E0].
    - (* the quotient has at least [d1 - d2] digits *)
      rewrite E0 in *. simpl in Hm'. rewrite Z.mul_1_r in Hm'.
      assert (53 <= d1 - d2) by (unfold e', fexp64 in *; lia).
      assert (2 ^ (d1 - d2 - 1) <= q) as Hlow.
      { assert (2 ^ (d1 - 1) = 2 ^ (d1 - d2 - 1) * 2 ^ d2) as Hsplit
          by (rewrite <- Z.pow_add_r by lia; f_equal; lia).
        assert (0 < 2 ^ (d1 - d2 - 1)) by (apply Z.pow_pos_nonneg; lia).
        nia. }
      pose proof (Zdigits2_ge_of_le q (d1 - d2 - 1) ltac:(lia) Hlow). lia.
    - (* the quotient has 53 digits *)
      assert (e' = d1 - d2 - 53) as Ee by (unfold e', fexp64 in *; lia).
      assert (2 ^ 52 <= q) as Hlow.
      { assert (2 ^ (d1 - 1) * 2 ^ (- e') = 2 ^ 52 * 2 ^ d2) as Hsplit
          by (rewrite <- !Z.pow_add_r by lia; f_equal; lia).
        assert (0 < 2 ^ 52) by reflexivity.
        nia. }
      pose proof (Zdigits2_ge_of_le q 52 ltac:(lia) Hlow). lia. }
  destruct (round_desc q e' (new_location (Zpos d) r) Hq Hpre)
    as (q1 & Q & E & Heq' & _ & _ & _ & _ & HQ & Hcan).
  cbv beta iota zeta. rewrite Heq'. apply nonneg64_pack; auto.
Qed.

End RoundingValue.

(** ** Sorting and the percentiles *)

Module PercentileFacts.
Import Binary64 Py Metrics Rounding FloatOrder.
Local Open Scope Z_scope.

Definition fle (x y : float) : Prop := leb x y = true.
Definition no_nan (l : list float) : Prop := Forall (fun x => is_nan x = false) l.

Lemma insert_perm x l : Permutation (insert x l) (x :: l).
Proof.
  induction l as [|y l IH]; simpl; [reflexivity|].
  destruct (ltb y x); [|reflexivity].
  rewrite IH. apply perm_swap.
Qed.

Lemma sorted_perm l : Permutation (sorted l) l.
Proof.
  induction l as [|x l IH]; simpl; [reflexivity|].
  unfold sorted in *. simpl. rewrite insert_perm. now apply perm_skip.
Qed.

Lemma sorted_length l : length (sorted l) = length l.
Proof. apply Permutation_length, sorted_perm. Qed.

Lemma sorted_no_nan l : no_nan l -> no_nan (sorted l).
Proof. unfold no_nan. now rewrite sorted_perm. Qed.

Lemma insert_sorted x l :
  is_nan x = false -> no_nan l ->
  StronglySorted fle l -> StronglySorted fle (insert x l).
Proof.
  intros Hx Hl Hs. revert Hl.
  induction Hs as [|y l Hs IH Hy]; intros Hl; simpl.
  - repeat constructor.
  - apply Forall_cons in Hl as [Hny Hl].
    destruct (ltb y x) eqn:E.
    + constructor; [now apply IH|].
      rewrite insert_perm. constructor; [|assumption].
      now apply ltb_leb.
    + assert (fle x y) as Hxy by now apply ltb_false_leb.
      constructor; [now constructor|].
      constructor; [assumption|].
      rewrite Forall_forall in Hy, Hl |- *. intros z Hz.
      apply (leb_trans x y z); [assumption|assumption|now apply Hl|assumption|now apply Hy].
Qed.

(** On a list without NaN, [sorted] is ascending. *)
Theorem sorted_ascending l : no_nan l -> StronglySorted fle (sorted l).
Proof.
  intros Hl. induction Hl as [|x l Hx Hl IH]; [constructor|].
  change (sorted (x :: l)) with (insert x (sorted l)).
  apply insert_sorted; auto using sorted_no_nan.
Qed.

Lemma strongly_sorted_lookup (l : list float) i j a b :
  StronglySorted fle l -> no_nan l -> (i <= j)%nat ->
  l !! i = Some a -> l !! j = Some b -> fle a b.
Proof.
  intros Hs. revert i j. induction Hs as [|x l Hs IH Hx]; intros i j Hn Hij Ha Hb.
  - discriminate.
  - apply Forall_cons in Hn as [Hnx Hn].
    destruct i as [|i], j as [|j]; simpl in *; try lia.
    + injection Ha as <-. injection Hb as <-. now apply leb_refl.
    + injection Ha as <-. rewrite Forall_forall in Hx. apply Hx.
      eapply list_elem_of_lookup_2; eassumption.
    + apply (IH i j); auto. lia.
Qed.

Lemma index_lookup {A} (l : list A) i x :
  0 <= i -> l !! Z.to_nat i = Some x -> index l i = Ret x.
Proof.
  intros Hi Hx. unfold index.
  replace (Z.ltb i 0) with false by (symmetry; apply Z.ltb_ge; lia).
  replace (Z.ltb i 0) with false by (symmetry; apply Z.ltb_ge; lia).
  now rewrite Hx.
Qed.

Lemma lookup_in_range {A} (l : list A) i :
  0 <= i < len l -> exists x, l !! Z.to_nat i = Some x.
Proof.
  intros Hi. unfold len in Hi.
  assert (Z.to_nat i < length l)%nat as Hlt by lia.
  destruct (lookup_lt_is_Some_2 l (Z.to_nat i) Hlt) as [x Hx]. eauto.
Qed.

Lemma c_0_95_eq : c_0_95 = S754_finite false 8556839292003942 (-53).
Proof. reflexivity. Qed.

Lemma c_0_99_eq : c_0_99 = S754_finite false 8917127262193582 (-53).
Proof. reflexivity. Qed.

(** [int(n * 0.95)] and [int(n * 0.99)] are the floors of [95 n / 100]
    and [99 n / 100] for every count below 2^47. *)
Theorem rank_index_0_95 n :
  0 < n < 2 ^ 47 ->
  int_mul_float n c_0_95 ≫= int_of_float = Ret (95 * n / 100).
Proof.
  intros Hn. rewrite c_0_95_eq.
  rewrite (int_mul_float_exact 8556839292003942 19 20
             ltac:(cbv; split; [discriminate | reflexivity]) ltac:(lia)
             core_0_95) by lia.
  f_equal. replace (95 * n) with (5 * (19 * n)) by lia.
  change 100 with (5 * 20). now rewrite Z.div_mul_cancel_l by lia.
Qed.

Theorem rank_index_0_99 n :
  0 < n < 2 ^ 47 ->
  int_mul_float n c_0_99 ≫= int_of_float = Ret (99 * n / 100).
Proof.
  intros Hn. rewrite c_0_99_eq.
  now rewrite (int_mul_float_exact 8917127262193582 99 100
                 ltac:(cbv; split; [discriminate | reflexivity]) ltac:(lia)
                 core_0_99) by lia.
Qed.

End PercentileFacts.

(** ** The aggregate an analysis run builds *)

Module AnalyzerFacts.
Import PyStr PyStrFacts Re ReFacts Parser ParserFacts Binary64 Py Metrics.
Import FoldFacts Rounding FloatOrder RoundingValue PercentileFacts.
Local Open Scope Z_scope.

(** The aggregate after [process_log_line]. *)
Definition after (line : string) (m : CacheMetrics) : CacheMetrics :=
  snd (process_log_line_on line m).

(** A line [process_log_line] gets through: it does not parse, or its
    status and its bytes are short enough for [int]. *)
Definition convertible (line : string) : bool :=
  match parse_line line with
  | Some parsed =>
      fits_int (default ""%string (parsed !! "status"%string))
      && fits_int (default ""%string (parsed !! "bytes"%string))
  | None => true
  end.

(** How [process_log_line] ends on a line. *)
Definition ending (line : string) : outcome unit :=
  if convertible line then Ret tt else Raise ValueError.

Lemma ended_fits st bs :
  all_in is_digit st = true /\ st <> EmptyString ->
  all_in is_digit bs = true /\ bs <> EmptyString ->
  ended (py_int st) (py_int bs)
  = if fits_int st && fits_int bs then Ret tt else Raise ValueError.
Proof.
  intros Hst Hbs.
  pose proof (py_int_digits st Hst) as Hs. pose proof (py_int_digits bs Hbs) as Hb.
  destruct (fits_int st); [destruct Hs as (n & -> & _) | now rewrite Hs].
  destruct (fits_int bs); [destruct Hb as (k & -> & _) | now rewrite Hb].
  reflexivity.
Qed.

Lemma process_log_line_on_after line m :
  process_log_line_on line m = (ending line, after line m)
  /\ folded line m (ending line) (after line m).
Proof.
  destruct (process_log_line_on_folded line m) as (o & m' & E & F).
  unfold after. rewrite E. simpl.
  assert (o = ending line) as <-; [|auto].
  unfold ending, convertible.
  destruct F as [Hn|parsed F Hp]; [now rewrite Hn|].
  rewrite Hp, (get_status _ F), (get_bytes _ F). simpl.
  apply ended_fits; [apply (status_digits _ F) | apply (bytes_digits _ F)].
Qed.

(** The lines [process_log_content] does not skip. *)
Definition nonblank (line : string) : bool :=
  match strip line with EmptyString => false | _ => true end.

Lemma blank_convertible line : nonblank line = false -> convertible line = true.
Proof.
  unfold nonblank, convertible. intros H.
  destruct (parse_line line) as [parsed|] eqn:Hp; [|reflexivity].
  apply parse_line_nonempty in Hp. destruct (strip line); [congruence | discriminate].
Qed.

Definition fold_lines (lines : list string) (m : CacheMetrics) : CacheMetrics :=
  fold_left (fun m line => if nonblank line then after line m else m) lines m.

(** The aggregate of a block of text. *)
Definition aggregate (content : string) : CacheMetrics :=
  fold_lines (splitlines content) CacheMetrics_new.

(** The lines the loop of [process_log_content] gets to: those before the
    first on which [process_log_line] raises, and that one. *)
Fixpoint reached (lines : list string) : list string :=
  match lines with
  | [] => []
  | line :: lines' => if convertible line then line :: reached lines' else [line]
  end.

Lemma reached_all lines : forallb convertible lines = true -> reached lines = lines.
Proof.
  induction lines as [|line lines IH]; simpl; [reflexivity|].
  intros [-> H]%andb_prop. now rewrite IH.
Qed.

(** A text [process_log_content] gets through, and the aggregate it
    leaves in any case: that of the lines it got to. *)
Definition completes (content : string) : bool :=
  forallb convertible (splitlines content).

Definition progress (content : string) : CacheMetrics :=
  fold_lines (reached (splitlines content)) CacheMetrics_new.

Lemma progress_completes content :
  completes content = true -> progress content = aggregate content.
Proof. intros H. unfold progress, aggregate. now rewrite reached_all. Qed.

(** An analyzer whose [metrics] attribute refers to a live object. *)
Definition alive (w : world) (self : ref) (m : CacheMetrics) : Prop :=
  exists r, analyzers w !! self = Some (mkMetricsAnalyzer r)
            /\ objects w !! r = Some m.

Lemma process_log_line_run w self r m line :
  analyzers w !! self = Some (mkMetricsAnalyzer r) ->
  objects w !! r = Some m ->
  process_log_line self line w =
    (ending line, mkWorld (<[r := after line m]> (objects w)) (analyzers w)).
Proof.
  intros Ha Ho. unfold process_log_line, on_metrics, get_metrics.
  unfold mbind, M_bind. rewrite Ha. simpl. rewrite Ho.
  destruct (process_log_line_on_after line m) as [-> _]. reflexivity.
Qed.

Lemma for_each_lines self r lines : forall objs ans m,
  ans !! self = Some (mkMetricsAnalyzer r) ->
  objs !! r = Some m ->
  for_each lines
    (fun line => match strip line with
                 | EmptyString => pass
                 | _ => process_log_line self line
                 end) (mkWorld objs ans)
  = (if forallb convertible lines then Ret tt else Raise ValueError,
     mkWorld (<[r := fold_lines (reached lines) m]> objs) ans).
Proof.
  induction lines as [|line lines IH]; intros objs ans m Ha Ho.
  - simpl. unfold mret, M_ret. now rewrite insert_id.
  - simpl for_each. unfold mbind, M_bind.
    assert ((match strip line with
             | EmptyString => pass
             | _ => process_log_line self line
             end) (mkWorld objs ans)
            = (ending line,
               mkWorld (<[r := if nonblank line then after line m else m]> objs) ans))
      as ->.
    { unfold nonblank. destruct (strip line) eqn:E.
      - unfold ending. rewrite blank_convertible by (unfold nonblank; now rewrite E).
        unfold pass, mret, M_ret. now rewrite insert_id.
      - now rewrite (process_log_line_run _ self r m). }
    unfold ending. cbn [forallb reached]. destruct (convertible line).
    + rewrite (IH _ _ (if nonblank line then after line m else m)); simpl;
        [|assumption|apply lookup_insert_eq].
      now rewrite insert_insert_eq.
    + reflexivity.
Qed.

(** One analysis run: a new object is allocated, it becomes
    [self.metrics], the lines are folded into it, and it is returned, or
    the exception of the first line that raises one is passed on. *)
Theorem process_log_content_run w self content :
  let r := fresh (dom (objects w)) in
  process_log_content self content w =
    (if completes content then Ret r else Raise ValueError,
     mkWorld (<[r := progress content]> (objects w))
       (<[self := mkMetricsAnalyzer r]> (analyzers w))).
Proof.
  intros r. unfold process_log_content, new_CacheMetrics, set_metrics.
  unfold mbind at 1 2, M_bind at 1 2. fold r. simpl.
  unfold mbind, M_bind.
  rewrite (for_each_lines self r _ _ _ CacheMetrics_new);
    [|apply lookup_insert_eq|apply lookup_insert_eq].
  fold (completes content). fold (progress content).
  rewrite insert_insert_eq.
  destruct (completes content); [|reflexivity].
  unfold get_metrics. simpl. now rewrite lookup_insert_eq.
Qed.

Lemma fresh_object w : objects w !! fresh (dom (objects w)) = None.
Proof. apply not_elem_of_dom, is_fresh. Qed.

(** *** The aggregates an analyzer can hold *)

Inductive reachable : CacheMetrics -> Prop :=
  | reachable_new : reachable CacheMetrics_new
  | reachable_line m line : reachable m -> reachable (after line m).

Lemma fold_lines_reachable lines m : reachable m -> reachable (fold_lines lines m).
Proof.
  revert m. induction lines as [|line lines IH]; intros m Hm; simpl; [assumption|].
  apply IH. destruct (nonblank line); [now constructor | assumption].
Qed.

Lemma aggregate_reachable content : reachable (aggregate content).
Proof. apply fold_lines_reachable. constructor. Qed.

(** The aggregate of a new analyzer after [process_log_line] on each line
    of a sequence, in turn. *)
Definition run (lines : list string) : CacheMetrics :=
  fold_left (fun m line => after line m) lines CacheMetrics_new.

Lemma run_snoc lines line : run (lines ++ [line]) = after line (run lines).
Proof. unfold run. now rewrite fold_left_app. Qed.

Lemma run_reachable lines : reachable (run lines).
Proof.
  induction lines as [|line lines IH] using rev_ind; [constructor|].
  rewrite run_snoc. now constructor.
Qed.

Lemma reachable_run m : reachable m -> exists lines, m = run lines.
Proof.
  induction 1 as [|m line _ [lines ->]]; [now exists []|].
  exists (lines ++ [line]). now rewrite run_snoc.
Qed.

(** The sum of the six cache-status counters. *)
Definition status_sum (m : CacheMetrics) : Z :=
  cache_hits m + cache_misses m + cache_bypass m + cache_stale m
  + cache_updating m + cache_revalidated m.

Definition status_counters : list counter :=
  [Cache_hits; Cache_misses; Cache_bypass; Cache_stale; Cache_updating;
   Cache_revalidated].

Definition recognized : list string :=
  ["HIT"; "MISS"; "BYPASS"; "STALE"; "UPDATING"; "REVALIDATED"]%string.

Lemma cache_counter_none tag : ~ In tag recognized -> cache_counter tag = None.
Proof.
  intros H. unfold cache_counter.
  repeat match goal with
    | |- context [String.eqb tag ?s] =>
        destruct (String.eqb_spec tag s) as [->|_]; [exfalso; apply H; simpl; tauto|]
    end.
  reflexivity.
Qed.

(** The cases of a counted record: the counter of its cache status, if
    any, and the counter of its status code, if any. *)
Ltac counted_cases :=
  unfold counted, bump, cache_counter, error_counter, observe, latencies_append,
    modify;
  repeat match goal with
    | |- context [if ?b then _ else _] => destruct b
    | |- context [match ?o with Ret _ => _ | Raise _ => _ end] => destruct o
    end; simpl.

(** A nonnegative quotient is a rounding with a nonnegative mantissa:
    zero, a positive float or infinity. *)
Lemma of_quotient_pack a b :
  0 <= a -> 0 < b -> exists m e, of_quotient a b = pack m e /\ 0 <= m.
Proof.
  intros Ha Hb. destruct b as [|d|d]; try lia.
  destruct a as [|p|p]; try lia.
  { exists 0, 0. split; [reflexivity | lia]. }
  unfold of_quotient, div, exact, SFdiv.
  destruct (SFdiv_core_binary _ _ _ _ _ _) as [[mz ez] lz] eqn:Ed.
  assert (0 <= mz) as Hmz.
  { unfold SFdiv_core_binary in Ed.
    set (m' := match _ with Zpos _ => _ | Z0 => _ | Zneg _ => _ end) in Ed.
    assert (0 <= m') as Hm'.
    { unfold m'. destruct (_ - _ - _); try lia. apply Z.shiftl_nonneg. lia. }
    pose proof (Z_div_mod m' (Zpos d) ltac:(lia)) as Hdm.
    destruct (Z.div_eucl m' (Zpos d)) as [q r]. simpl in Ed.
    assert (mz = q) as -> by congruence.
    destruct Hdm. nia. }
  destruct (binary_round_aux_shape mz ez lz Hmz) as (m2 & Hm2 & Heq).
  simpl xorb. change prec with 53. change emax with 1024. rewrite Heq.
  set (e1 := Z.max _ _) in *.
  assert (0 <= mz / 2 ^ (e1 - ez))
    by (apply Z.div_pos; [lia | apply Z.pow_pos_nonneg; unfold e1; lia]).
  set (e3 := Z.max e1 _).
  exists (m2 / 2 ^ (e3 - e1)), e3. split; [reflexivity|].
  apply Z.div_pos; [lia | apply Z.pow_pos_nonneg; unfold e3; lia].
Qed.

Lemma pack_nonneg m e :
  0 <= m -> is_nan (pack m e) = false /\ leb zero (pack m e) = true.
Proof.
  intros Hm. destruct m as [|p|p]; try lia; simpl; [split; reflexivity|].
  destruct (Z.leb e 971); split; reflexivity.
Qed.

Lemma scan_decimal_nonneg s : forall dot acc scale any n k,
  0 <= acc -> scan_decimal s dot acc scale any = Some (n, k) -> 0 <= n.
Proof.
  induction s as [|c s IH]; intros dot acc scale any n k Hacc; simpl.
  - destruct any; [now intros [= <- _] | discriminate].
  - destruct (PyStr.is_digit c) eqn:Ec.
    + apply IH. pose proof (digit_value_nonneg c Ec). lia.
    + match goal with |- context [if ?b then _ else _] => destruct b end;
        [|discriminate].
      destruct dot; [discriminate|]. now apply IH.
Qed.

(** What [float] returns for a latency field is zero, positive or
    infinite, never a NaN. *)
Lemma py_float_nonneg s x :
  py_float s = Ret x -> is_nan x = false /\ leb zero x = true.
Proof.
  unfold py_float. destruct (scan_decimal s false 0 0 false) as [[n k]|] eqn:E;
    [|discriminate].
  intros [= <-]. apply scan_decimal_nonneg in E; [|lia].
  assert (0 < 10 ^ Z.of_nat k) as Hp by (apply Z.pow_pos_nonneg; lia).
  destruct (of_quotient_pack n (10 ^ Z.of_nat k) E Hp) as (m & e & Heq & Hm).
  unfold of_decimal. rewrite Heq. now apply pack_nonneg.
Qed.

(** What [float] returns for a latency field is a binary64 value. *)
Lemma py_float_nonneg64 s x : py_float s = Ret x -> nonneg64 x = true.
Proof.
  unfold py_float. destruct (scan_decimal s false 0 0 false) as [[n k]|] eqn:E;
    [|discriminate].
  intros [= <-]. apply scan_decimal_nonneg in E; [|lia].
  apply of_quotient_nonneg64; [exact E | apply Z.pow_pos_nonneg; lia].
Qed.

(** What holds of every aggregate an analyzer can hold. *)
Record invariant (m : CacheMetrics) : Prop := mkInvariant {
  inv_nonneg :
    Forall (fun f => 0 <= counter_of f m)
      [Total_requests; Cache_hits; Cache_misses; Cache_bypass; Cache_stale;
       Cache_updating; Cache_revalidated; Error_5xx; Error_4xx; Total_bytes];
  inv_errors : error_4xx m + error_5xx m <= total_requests m;
  inv_status : status_sum m <= total_requests m;
  inv_observed : len (latencies m) <= total_requests m;
  inv_no_nan : no_nan (latencies m);
  inv_latencies_nonneg : Forall (fun x => leb zero x = true) (latencies m);
  inv_latencies_binary64 : Forall (fun x => nonneg64 x = true) (latencies m)
}.

Lemma invariant_new : invariant CacheMetrics_new.
Proof.
  split; simpl; unfold status_sum, len, no_nan; simpl; try lia;
    repeat constructor; simpl; lia.
Qed.

(** Counting a record keeps the invariant, wherever the count ends. *)
Lemma invariant_counted cs status bytes latency m :
  int_outcome status -> int_outcome bytes ->
  (forall x, latency = Ret x ->
     is_nan x = false /\ leb zero x = true /\ nonneg64 x = true) ->
  invariant m -> invariant (counted cs status bytes latency m).
Proof.
  intros Hs Hb Hl [Hn He Hst Hob Hnn Hlp Hlv].
  destruct m as [tr ch cm cb cs' cu cr e5 e4 tb ls].
  repeat (apply Forall_cons in Hn as [? Hn]). unfold status_sum, len, no_nan in *.
  simpl in *.
  destruct status as [status|?], bytes as [bytes|?], latency as [x|?];
    simpl in Hs, Hb;
    try (destruct (Hl x eq_refl) as (Hx1 & Hx2 & Hx3));
    counted_cases; split; unfold status_sum, len, no_nan; simpl;
      rewrite ?length_app; simpl;
      repeat first [apply Forall_nil | apply Forall_cons; split
                   | apply Forall_app; split];
      simpl; auto; lia.
Qed.

Lemma invariant_step line m o m' : folded line m o m' -> invariant m -> invariant m'.
Proof.
  intros [Hnone|parsed F Hp]; [trivial|].
  apply invariant_counted.
  - apply py_int_outcome, (status_digits _ F).
  - apply py_int_outcome, (bytes_digits _ F).
  - intros x Hx. destruct (py_float_nonneg _ _ Hx).
    pose proof (py_float_nonneg64 _ _ Hx). auto.
Qed.

Theorem reachable_invariant m : reachable m -> invariant m.
Proof.
  induction 1 as [|m line Hm IH]; [apply invariant_new|].
  eapply invariant_step; [|exact IH]. apply process_log_line_on_after.
Qed.

End AnalyzerFacts.

(** ** The derived statistics *)

Module AccessorFacts.
Import Binary64 Py Metrics Rounding FloatOrder PercentileFacts.
Local Open Scope Z_scope.

Lemma bind_ret_inv {A B} (o : outcome A) (f : A -> outcome B) b :
  o ≫= f = Ret b -> exists a, o = Ret a /\ f a = Ret b.
Proof. destruct o as [a|e]; [eauto | discriminate]. Qed.

(** The specification's rank-index percentile, in its words: sort the
    observations ascending, take [index = floor(count * fraction)], clamp
    it to the last element if [index >= count], and read the value there.
    The fraction is [num / 100]. *)
Definition spec_rank (num : Z) (l : list float) : option float :=
  let ascending := sorted l in
  let count := len l in
  let index := num * count / 100 in
  if Z.leb count index then last ascending
  else ascending !! Z.to_nat index.

Lemma len_sorted l : len (sorted l) = len l.
Proof. unfold len. now rewrite sorted_length. Qed.

Lemma rank_in_range num n : 0 <= num < 100 -> 0 < n -> 0 <= num * n / 100 < n.
Proof.
  intros Hnum Hn. split.
  - apply Z.div_pos; nia.
  - apply Z.div_lt_upper_bound; nia.
Qed.

Lemma rank_latency_eval fraction num self :
  (forall n, 0 < n < 2 ^ 47 ->
     int_mul_float n fraction ≫= int_of_float = Ret (num * n / 100)) ->
  0 <= num < 100 ->
  latencies self <> [] -> len (latencies self) < 2 ^ 47 ->
  exists x, rank_latency fraction self = Ret x
            /\ spec_rank num (latencies self) = Some x
            /\ sorted (latencies self) !!
                 Z.to_nat (num * len (latencies self) / 100) = Some x.
Proof.
  intros Hidx Hnum Hne Hlen. unfold rank_latency, spec_rank.
  destruct (latencies self) as [|a l] eqn:El; [congruence|].
  rewrite len_sorted.
  set (n := len (a :: l)) in *.
  assert (0 < n) as Hn by (unfold n, len; simpl; lia).
  destruct (bind_ret_inv _ _ _ (Hidx n ltac:(lia))) as (y & -> & Hy).
  cbn [mbind outcome_bind]. rewrite Hy. cbn [mbind outcome_bind].
  pose proof (rank_in_range num n Hnum Hn) as Hr.
  replace (Z.ltb (num * n / 100) n) with true by (symmetry; apply Z.ltb_lt; lia).
  replace (Z.leb n (num * n / 100)) with false by (symmetry; apply Z.leb_gt; lia).
  destruct (lookup_in_range (sorted (a :: l)) (num * n / 100)) as [x Hx];
    [rewrite len_sorted; exact Hr|].
  exists x. split; [|split; assumption]. now apply index_lookup.
Qed.

(** [statistics.median] on a list that is not empty: the middle element
    of the sorted list, or the mean of the two middle elements. *)
Lemma median_eval l :
  l <> [] ->
  let s := sorted l in
  let n := len l in
  if Z.odd n then
    exists x, median l = Ret x /\ s !! Z.to_nat (n / 2) = Some x
  else
    exists lo hi, median l = Ret (div (add lo hi) two)
      /\ s !! Z.to_nat (n / 2 - 1) = Some lo /\ s !! Z.to_nat (n / 2) = Some hi.
Proof.
  intros Hne s n. unfold median. cbv zeta. rewrite sorted_length.
  change (Z.of_nat (length l)) with n. fold s.
  assert (0 < n) as Hn by (unfold n, len; destruct l; simpl; [congruence | lia]).
  replace (Z.eqb n 0) with false by (symmetry; apply Z.eqb_neq; lia).
  rewrite Zmod_odd. destruct (Z.odd n) eqn:Eo; simpl Z.eqb; cbv iota.
  - destruct (lookup_in_range s (n / 2)) as [x Hx].
    { unfold s. rewrite len_sorted. fold n. split; [apply Z.div_pos; lia|].
      apply Z.div_lt_upper_bound; lia. }
    exists x. split; [|assumption]. apply index_lookup; [apply Z.div_pos; lia | assumption].
  - assert (2 <= n) as Hn2.
    { destruct (Z.eq_dec n 1) as [E|E]; [rewrite E in Eo; discriminate | lia]. }
    assert (1 <= n / 2) by (apply Z.div_le_lower_bound; lia).
    assert (n / 2 < n) by (apply Z.div_lt_upper_bound; lia).
    destruct (lookup_in_range s (n / 2 - 1)) as [lo Hlo];
      [unfold s; rewrite len_sorted; fold n; lia|].
    destruct (lookup_in_range s (n / 2)) as [hi Hhi];
      [unfold s; rewrite len_sorted; fold n; lia|].
    exists lo, hi. split; [|split; assumption].
    rewrite (index_lookup s (n / 2 - 1) lo), (index_lookup s (n / 2) hi)
      by (assumption || lia).
    reflexivity.
Qed.

End AccessorFacts.

(** ** What a delimited pattern matches *)

Module GrammarFacts.
Import PyStr PyStrFacts Re ReFacts Parser ParserFacts.
Local Open Scope string_scope.

(** The text a pattern describes when its groups hold the values [g]. *)
Fixpoint render (its : list item) (g : string -> string) : string :=
  match its with
  | [] => ""
  | Lit l :: its' => l ++ render its' g
  | Group name _ _ :: its' => g name ++ render its' g
  end.

(** The values [g] are runs of the classes of their groups, of at least
    the minimal lengths. *)
Fixpoint fits (its : list item) (g : string -> string) : bool :=
  match its with
  | [] => true
  | Lit _ :: its' => fits its' g
  | Group name cls least :: its' =>
      all_in cls (g name) && Nat.leb least (String.length (g name))
      && fits its' g
  end.

(** The dictionary of a match whose groups hold the values [g]. *)
Fixpoint bind_groups (its : list item) (g : string -> string) (d : groupdict)
  : groupdict :=
  match its with
  | [] => d
  | Lit _ :: its' => bind_groups its' g d
  | Group name _ _ :: its' => bind_groups its' g (<[name := g name]> d)
  end.

Lemma strip_prefix_same l s : strip_prefix l (l ++ s) = Some s.
Proof.
  induction l as [|a l IH]; simpl; [reflexivity|].
  now rewrite Ascii.eqb_refl.
Qed.

Lemma strip_prefix_inv l : forall s s', strip_prefix l s = Some s' -> s = l ++ s'.
Proof.
  induction l as [|a l IH]; intros s s'; simpl.
  - now intros [= ->].
  - destruct s as [|b s]; [discriminate|].
    destruct (Ascii.eqb_spec a b) as [->|]; [|discriminate].
    intros H. now rewrite (IH _ _ H).
Qed.

Lemma span_run cls v c rest :
  all_in cls v = true -> cls c = false ->
  span cls (v ++ String c rest) = (v, String c rest).
Proof.
  intros Hv Hc. induction v as [|x v IH]; simpl in *.
  - now rewrite Hc.
  - apply andb_prop in Hv as [Hx Hv]. now rewrite Hx, (IH Hv).
Qed.

(** Completeness: the text a delimited pattern describes matches, with
    the groups it was written from, whatever follows it. *)
Theorem match_det_render its :
  delimited its = true ->
  forall g rest d, fits its g = true ->
    match_det its (render its g ++ rest) d = Some (bind_groups its g d).
Proof.
  induction its as [|[l|name cls least] its IH]; intros Hd g rest d Hf.
  - reflexivity.
  - simpl in *. rewrite append_assoc, strip_prefix_same. now apply IH.
  - simpl in Hd. destruct its as [|[[|c l]|] its']; try discriminate.
    apply andb_prop in Hd as [Hc Hd]. apply negb_true_iff in Hc.
    cbn [fits] in Hf. apply andb_prop in Hf as [Hf Hf'].
    apply andb_prop in Hf as [Hall Hlen].
    cbn [render match_det bind_groups] in *.
    rewrite append_assoc.
    change ((String c l ++ render its' g) ++ rest)
      with (String c ((l ++ render its' g) ++ rest)).
    rewrite (span_run cls (g name) c _ Hall Hc), Hlen.
    specialize (IH Hd g rest (<[name := g name]> d) Hf').
    cbn [render match_det bind_groups] in IH. exact IH.
Qed.

(** A pattern matched in two parts: the text its first part describes
    is taken, with its groups, and the match goes on with the second part
    on what follows. *)
Theorem match_det_prefix its1 :
  delimited its1 = true ->
  forall its2 g s d, fits its1 g = true ->
    match_det (its1 ++ its2) (render its1 g ++ s) d
    = match_det its2 s (bind_groups its1 g d).
Proof.
  induction its1 as [|[l|name cls least] its1 IH]; intros Hd its2 g s d Hf.
  - reflexivity.
  - simpl in *. rewrite append_assoc, strip_prefix_same. now apply IH.
  - simpl in Hd. destruct its1 as [|[[|c l]|] its']; try discriminate.
    apply andb_prop in Hd as [Hc Hd]. apply negb_true_iff in Hc.
    cbn [fits] in Hf. apply andb_prop in Hf as [Hf Hf'].
    apply andb_prop in Hf as [Hall Hlen].
    cbn [render match_det bind_groups app] in *.
    rewrite append_assoc.
    change ((String c l ++ render its' g) ++ s)
      with (String c ((l ++ render its' g) ++ s)).
    rewrite (span_run cls (g name) c _ Hall Hc), Hlen.
    specialize (IH Hd its2 g s (<[name := g name]> d) Hf').
    cbn [render match_det bind_groups app] in IH. exact IH.
Qed.

(** Soundness: a text that matches starts with the text the pattern
    describes for the groups of the match. *)
Theorem match_det_inv its :
  NoDup (names its) ->
  forall s d r, match_det its s d = Some r ->
    let g := fun name => default "" (r !! name) in
    exists rest, s = render its g ++ rest /\ fits its g = true
                 /\ r = bind_groups its g d.
Proof.
  induction its as [|[l|name cls least] its IH]; intros Hn s d r Hm g.
  - exists s. simpl in *. split; [reflexivity|]. split; [reflexivity|].
    congruence.
  - simpl in Hm. destruct (strip_prefix l s) as [s'|] eqn:E; [|discriminate].
    destruct (IH Hn s' d r Hm) as (rest & Hs & Hf & Hr).
    exists rest. cbn [render fits bind_groups]. fold g in Hs, Hf, Hr.
    split; [|auto]. rewrite append_assoc, <- Hs. now apply strip_prefix_inv.
  - simpl in Hm, Hn.
    pose proof (span_eq cls s) as Hs. pose proof (span_all_in cls s) as Hall.
    destruct (span cls s) as [got rest0]; simpl in Hs, Hall.
    destruct (Nat.leb least (String.length got)) eqn:El; [|discriminate].
    assert (g name = got) as Hg.
    { unfold g. rewrite (match_det_other _ _ _ _ name Hm).
      - now rewrite lookup_insert_eq.
      - apply NoDup_cons_1_1 in Hn. now rewrite <- list_elem_of_In. }
    apply NoDup_cons_1_2 in Hn.
    destruct (IH Hn rest0 _ r Hm) as (rest & Hs' & Hf & Hr). fold g in Hs', Hf, Hr.
    exists rest. cbn [render fits bind_groups]. rewrite Hg, Hall, El, Hf.
    split; [|auto]. now rewrite append_assoc, <- Hs', Hs.
Qed.

End GrammarFacts.

(** ** The access-log line *)

Module LogLineFacts.
Import PyStr PyStrFacts Re ReFacts Parser ParserFacts GrammarFacts.
Local Open Scope string_scope.

(** The fields of a request in the access log. *)
Record entry := mkEntry {
  e_ip : string;
  e_time : string;
  e_method : string;
  e_path : string;
  e_protocol : string;
  e_status : string;
  e_bytes : string;
  e_latency : string;
  e_cache_status : string
}.

(** The line of the log format the module documents: the address, a
    dash, the time in brackets, the quoted request (method, path and
    protocol), the status, the bytes sent, the request time and the quoted
    cache status. *)
Definition log_line (e : entry) : string :=
  e_ip e ++ " - [" ++ e_time e ++ "] " ++ q ++ e_method e ++ " " ++ e_path e
  ++ " " ++ e_protocol e ++ q ++ " " ++ e_status e ++ " " ++ e_bytes e ++ " "
  ++ e_latency e ++ " " ++ q ++ e_cache_status e ++ q.

(** The dictionary [groupdict()] returns for these fields. *)
Definition groups (e : entry) : groupdict :=
  <["cache_status" := e_cache_status e]>
    (<["latency" := e_latency e]>
       (<["bytes" := e_bytes e]>
          (<["status" := e_status e]>
             (<["protocol" := e_protocol e]>
                (<["path" := e_path e]>
                   (<["method" := e_method e]>
                      (<["time" := e_time e]>
                         (<["ip" := e_ip e]> ∅)))))))).

(** A run of a class, not empty. *)
Definition run_of (cls : ascii -> bool) (s : string) : bool :=
  all_in cls s && Nat.leb 1 (String.length s).

(** The fields the pattern lets through: addresses and latencies made of
    digits and points, a time without a closing bracket, a method of word
    characters, a path without white space, a protocol and a cache status
    without a double quote, a status and a number of bytes made of
    digits; only the cache status may be empty. *)
Definition well_formed (e : entry) : bool :=
  run_of digit_or_dot (e_ip e)
  && run_of (not_char "]") (e_time e)
  && run_of is_word (e_method e)
  && run_of not_space (e_path e)
  && run_of (not_char dquote) (e_protocol e)
  && run_of is_digit (e_status e)
  && run_of is_digit (e_bytes e)
  && run_of digit_or_dot (e_latency e)
  && all_in (not_char dquote) (e_cache_status e).

Definition field (e : entry) (name : string) : string :=
  if String.eqb name "ip" then e_ip e
  else if String.eqb name "time" then e_time e
  else if String.eqb name "method" then e_method e
  else if String.eqb name "path" then e_path e
  else if String.eqb name "protocol" then e_protocol e
  else if String.eqb name "status" then e_status e
  else if String.eqb name "bytes" then e_bytes e
  else if String.eqb name "latency" then e_latency e
  else if String.eqb name "cache_status" then e_cache_status e
  else "".

Lemma render_log_line e : render LOG_PATTERN (field e) = log_line e.
Proof. reflexivity. Qed.

Lemma fits_well_formed e : fits LOG_PATTERN (field e) = well_formed e.
Proof.
  unfold well_formed, run_of. cbn [fits LOG_PATTERN]. simpl field.
  rewrite !andb_true_r, !andb_assoc. reflexivity.
Qed.

Lemma bind_groups_log e : bind_groups LOG_PATTERN (field e) ∅ = groups e.
Proof. reflexivity. Qed.

(** A text that starts with a well-formed line matches the pattern. *)
Lemma match_log_line e rest :
  well_formed e = true ->
  match_det LOG_PATTERN (log_line e ++ rest) ∅ = Some (groups e).
Proof.
  intros H. rewrite <- render_log_line, <- bind_groups_log.
  apply match_det_render; [reflexivity | now rewrite fits_well_formed].
Qed.

(** The entry a dictionary of groups stands for. *)
Definition entry_of (parsed : groupdict) : entry :=
  let g := fun name => default "" (parsed !! name) in
  mkEntry (g "ip") (g "time") (g "method") (g "path") (g "protocol")
    (g "status") (g "bytes") (g "latency") (g "cache_status").

Lemma match_log_inv s parsed :
  match_det LOG_PATTERN s ∅ = Some parsed ->
  exists rest, well_formed (entry_of parsed) = true
    /\ s = log_line (entry_of parsed) ++ rest
    /\ parsed = groups (entry_of parsed).
Proof.
  intros H.
  destruct (match_det_inv LOG_PATTERN LOG_PATTERN_names s ∅ parsed H)
    as (rest & Hs & Hf & Hr).
  exists rest. split; [|split].
  - rewrite <- fits_well_formed. exact Hf.
  - exact Hs.
  - exact Hr.
Qed.

Lemma lstrip_pad pad s : all_in is_space pad = true -> lstrip (pad ++ s) = lstrip s.
Proof.
  induction pad as [|c pad IH]; simpl; [reflexivity|].
  intros [Hc Hp]%andb_prop. rewrite Hc. now apply IH.
Qed.

Lemma rstrip_end s c :
  is_space c = false -> rstrip (s ++ String c "") = s ++ String c "".
Proof.
  intros Hc. induction s as [|x s IH]; simpl.
  - now rewrite Hc.
  - rewrite IH. now destruct (s ++ String c "") eqn:E; [destruct s; discriminate|].
Qed.

Lemma digit_or_dot_not_space c : digit_or_dot c = true -> is_space c = false.
Proof.
  unfold digit_or_dot, is_digit, is_char, is_space, in_range, code.
  destruct c as [[] [] [] [] [] [] [] []]; vm_compute; congruence.
Qed.

Lemma well_formed_ip e : well_formed e = true -> run_of digit_or_dot (e_ip e) = true.
Proof.
  unfold well_formed. intros H. do 8 (apply andb_prop in H as [H ?]). exact H.
Qed.

(** A line of the format begins with a character of the address and ends
    with a double quote: [strip] leaves it as it is. *)
Lemma strip_log_line e rest :
  run_of digit_or_dot (e_ip e) = true ->
  exists u, strip (log_line e ++ rest) = log_line e ++ u.
Proof.
  intros H. unfold strip. unfold run_of in H. apply andb_prop in H as [H Hlen].
  assert (lstrip (log_line e) = log_line e) as Hl.
  { unfold log_line. destruct (e_ip e) as [|c ip]; [discriminate|].
    simpl in *. apply andb_prop in H as [Hc _].
    now rewrite (digit_or_dot_not_space c Hc). }
  assert (lstrip (log_line e) <> "") as Hne.
  { rewrite Hl. unfold log_line.
    destruct (e_ip e); [discriminate | simpl; discriminate]. }
  rewrite (lstrip_append _ rest Hne), Hl.
  destruct (rstrip_append (log_line e) rest) as [u Hu]. exists u.
  rewrite Hu. f_equal.
  assert (log_line e
          = (e_ip e ++ " - [" ++ e_time e ++ "] " ++ q ++ e_method e ++ " "
             ++ e_path e ++ " " ++ e_protocol e ++ q ++ " " ++ e_status e ++ " "
             ++ e_bytes e ++ " " ++ e_latency e ++ " " ++ q ++ e_cache_status e)
            ++ String dquote "") as ->.
  { unfold log_line, q. now rewrite !append_assoc. }
  apply rstrip_end. reflexivity.
Qed.

(** A line of the format, with white space before it and any text after
    it, parses to its fields. *)
Lemma parse_log_line e pad rest :
  well_formed e = true -> all_in is_space pad = true ->
  parse_line (pad ++ log_line e ++ rest) = Some (groups e).
Proof.
  intros Hw Hp. rewrite parse_line_det.
  destruct (strip_log_line e rest (well_formed_ip e Hw)) as [u Hu].
  unfold strip in *. rewrite lstrip_pad by assumption. rewrite Hu.
  now apply match_log_line.
Qed.

(** The four groups [process_log_line] reads. *)
Lemma groups_lookup e :
  groups e !! "cache_status" = Some (e_cache_status e)
  /\ groups e !! "status" = Some (e_status e)
  /\ groups e !! "bytes" = Some (e_bytes e)
  /\ groups e !! "latency" = Some (e_latency e).
Proof.
  unfold groups. repeat split;
    repeat (rewrite lookup_insert_ne by discriminate); apply lookup_insert_eq.
Qed.

(** The same request with another latency field. *)
Definition with_latency (lat : string) (e : entry) : entry :=
  mkEntry (e_ip e) (e_time e) (e_method e) (e_path e) (e_protocol e)
    (e_status e) (e_bytes e) lat (e_cache_status e).

(** The pattern up to the latency, and from the latency on. *)
Definition before_latency : list item := take 14 LOG_PATTERN.
Definition from_latency : list item := drop 14 LOG_PATTERN.

(** A text that does not begin with a digit or a point. *)
Definition no_numeral (s : string) : bool :=
  match s with
  | String c _ => negb (digit_or_dot c)
  | EmptyString => true
  end.

(** A line whose latency field does not begin with a digit or a point
    does not match the pattern, whatever its other fields. *)
Lemma match_no_numeral e lat rest :
  well_formed e = true -> no_numeral lat = true ->
  match_det LOG_PATTERN (log_line (with_latency lat e) ++ rest) ∅ = None.
Proof.
  intros Hw Hl.
  assert (fits before_latency (field e) = true) as Hf.
  { unfold well_formed, run_of in Hw.
    repeat match goal with
      | H : _ && _ = true |- _ => apply andb_prop in H as [? ?]
      end.
    cbn [fits before_latency take LOG_PATTERN].
    repeat (apply andb_true_intro; split); try reflexivity; assumption. }
  assert (log_line (with_latency lat e) ++ rest
          = render before_latency (field e)
            ++ (lat ++ " " ++ q ++ e_cache_status e ++ q ++ rest)) as ->.
  { unfold log_line, with_latency. cbn [render before_latency take LOG_PATTERN].
    simpl field. cbn [e_ip e_time e_method e_path e_protocol e_status e_bytes
                      e_latency e_cache_status].
    rewrite !append_assoc. reflexivity. }
  change LOG_PATTERN with (before_latency ++ from_latency)%list.
  rewrite match_det_prefix by (reflexivity || assumption).
  cbn [from_latency drop LOG_PATTERN match_det].
  destruct lat as [|c lat]; simpl in *.
  - reflexivity.
  - apply negb_true_iff in Hl. now rewrite Hl.
Qed.

Lemma parse_no_numeral e lat pad rest :
  well_formed e = true -> no_numeral lat = true ->
  all_in is_space pad = true ->
  parse_line (pad ++ log_line (with_latency lat e) ++ rest) = None.
Proof.
  intros Hw Hl Hp. rewrite parse_line_det.
  destruct (strip_log_line (with_latency lat e) rest (well_formed_ip e Hw))
    as [u Hu].
  unfold strip in *. rewrite lstrip_pad by assumption. rewrite Hu.
  now apply match_no_numeral.
Qed.

End LogLineFacts.

(** * The claims of the specification *)

Import PyStr PyStrFacts Re ReFacts Parser ParserFacts Binary64 Py Metrics.
Import FoldFacts Rounding FloatOrder RoundingValue PercentileFacts.
Import AnalyzerFacts AccessorFacts GrammarFacts LogLineFacts.
Local Open Scope Z_scope.

(** The four groups [process_log_line] reads, for a line that parses. *)
Definition groups_read (line : string)
  : option (option string * option string * option string * option string) :=
  match parse_line line with
  | Some parsed =>
      Some (parsed !! "cache_status"%string, parsed !! "status"%string,
            parsed !! "bytes"%string, parsed !! "latency"%string)
  | None => None
  end.

(** A parsed line, by the text of its groups. *)
Lemma process_log_line_on_parsed line cs st bs lat m :
  groups_read line = Some (Some cs, Some st, Some bs, Some lat) ->
  process_log_line_on line m
  = (ended (py_int st) (py_int bs),
     counted cs (py_int st) (py_int bs) (py_float lat) m).
Proof.
  unfold groups_read. destruct (parse_line line) as [parsed|] eqn:Hp; [|discriminate].
  intros [= Hcs Hst Hbs Hlat].
  destruct (parse_line_fields _ _ Hp) as [F _].
  pose proof (get_cache_status _ F) as E1. pose proof (get_status _ F) as E2.
  pose proof (get_bytes _ F) as E3. pose proof (get_latency _ F) as E4.
  rewrite Hcs in E1. rewrite Hst in E2. rewrite Hbs in E3. rewrite Hlat in E4.
  injection E1 as E1. injection E2 as E2. injection E3 as E3. injection E4 as E4.
  unfold process_log_line_on. rewrite Hp. unfold truthy.
  rewrite bool_decide_eq_false_2 by (eapply parse_line_truthy; eassumption).
  change (negb false) with true. cbv iota.
  rewrite (count_record_eq parsed F m).
  now rewrite <- E1, <- E2, <- E3, <- E4.
Qed.

Lemma process_log_line_on_unparsed line m :
  parse_line line = None -> process_log_line_on line m = (Ret tt, m).
Proof. intros H. unfold process_log_line_on. now rewrite H. Qed.

(** The groups of a parsed line, and whether [int] converts its status
    and its bytes. *)
Lemma groups_read_parsed line parsed :
  parse_line line = Some parsed ->
  exists cs st bs lat,
    groups_read line = Some (Some cs, Some st, Some bs, Some lat)
    /\ parsed !! "cache_status"%string = Some cs
    /\ parsed !! "status"%string = Some st
    /\ parsed !! "bytes"%string = Some bs
    /\ parsed !! "latency"%string = Some lat
    /\ int_outcome (py_int st) /\ int_outcome (py_int bs)
    /\ convertible line = fits_int st && fits_int bs
    /\ ended (py_int st) (py_int bs) = ending line.
Proof.
  intros Hp. destruct (parse_line_fields _ _ Hp) as [F _].
  exists (f_cache_status _ F), (f_status _ F), (f_bytes _ F), (f_latency _ F).
  unfold groups_read, ending, convertible. rewrite Hp.
  rewrite (get_cache_status _ F), (get_status _ F), (get_bytes _ F),
    (get_latency _ F). cbn [default].
  repeat (split; [reflexivity|]).
  split; [apply py_int_outcome, (status_digits _ F)|].
  split; [apply py_int_outcome, (bytes_digits _ F)|].
  split; [reflexivity|].
  apply ended_fits; [apply (status_digits _ F) | apply (bytes_digits _ F)].
Qed.

(** What the count of a record does to [total_requests], to the bytes
    and to the latencies. *)
Lemma counted_total cs status bytes lat m :
  total_requests (counted cs status bytes lat m) = total_requests m + 1.
Proof. destruct m, status, bytes; counted_cases; reflexivity. Qed.

Lemma counted_no_latency cs status bytes e m :
  latencies (counted cs status bytes (Raise e) m) = latencies m.
Proof. destruct m, status, bytes; counted_cases; reflexivity. Qed.

Lemma counted_bytes cs status bytes lat m :
  total_bytes (counted cs (Ret status) (Ret bytes) lat m) = total_bytes m + bytes.
Proof. destruct m; counted_cases; reflexivity. Qed.

Lemma counted_no_bytes cs status bytes lat m :
  ended status bytes = Raise ValueError ->
  total_bytes (counted cs status bytes lat m) = total_bytes m
  /\ latencies (counted cs status bytes lat m) = latencies m.
Proof.
  destruct status, bytes; try discriminate; intros _;
    destruct m; counted_cases; split; reflexivity.
Qed.

Lemma counted_latency cs status bytes x m :
  counted cs (Ret status) (Ret bytes) (Ret x) m
  = snd (latencies_append x (counted cs (Ret status) (Ret bytes)
                               (Raise ValueError) m)).
Proof. destruct m; counted_cases; reflexivity. Qed.

(** A run of [n] zeros. *)
Fixpoint zeros (n : nat) : string :=
  match n with
  | O => EmptyString
  | S n' => String "0" (zeros n')
  end.

(** A new analyzer, in a store that holds nothing else. *)
Definition new_analyzer_world : world := snd (MetricsAnalyzer_new empty_world).

(** ** C1: a latency field that is no number *)

Lemma parse_notanumber : parse_line line_notanumber = None.
Proof. vm_compute. reflexivity. Qed.

(** C1, as the specification states it, fails: the line whose latency
    field is [notanumber] does not match [LOG_PATTERN], whose latency group
    is a run of digits and points, and a new analyzer that processes it
    has counted no request and no hit. *)
Lemma C1_notanumber_is_not_counted :
  ~ (let m := snd (process_log_line_on line_notanumber CacheMetrics_new) in
     total_requests m = total_requests CacheMetrics_new + 1
     /\ cache_hits m = cache_hits CacheMetrics_new + 1
     /\ length (latencies m) = length (latencies CacheMetrics_new)).
Proof.
  rewrite (process_log_line_on_unparsed _ _ parse_notanumber). simpl.
  intros [H _]. discriminate.
Qed.

Lemma well_formed_digits e :
  well_formed e = true ->
  (all_in is_digit (e_status e) = true /\ e_status e <> EmptyString)
  /\ (all_in is_digit (e_bytes e) = true /\ e_bytes e <> EmptyString).
Proof.
  unfold well_formed. intros H. do 8 (apply andb_prop in H as [H ?]).
  unfold run_of in *.
  repeat match goal with
    | H : _ && _ = true |- _ => apply andb_prop in H as [? ?]
    end.
  repeat split; try assumption; apply nonempty_of_length; now apply Nat.leb_le.
Qed.

(** C1, amended. Take any line of the log format, with white space
    before it and any text after it. With the token [notanumber] as its
    latency field it does not parse, and [process_log_line] returns and
    leaves the aggregate as it is. With a latency field of digits and
    points that [float] rejects, such as [1.2.3], [process_log_line] adds
    one to [total_requests], adds one to [cache_hits] when the trimmed
    cache status is [HIT], and leaves the latencies as they are; it
    returns unless the status or the bytes are too long for [int]. *)
Theorem C1_non_numeric_latency (e : entry) (pad rest : string) (m : CacheMetrics) :
  well_formed e = true -> all_in is_space pad = true ->
  let skipped := (pad ++ log_line (with_latency "notanumber" e) ++ rest)%string in
  let line := (pad ++ log_line e ++ rest)%string in
  parse_line skipped = None
  /\ process_log_line_on skipped m = (Ret tt, m)
  /\ (py_float (e_latency e) = Raise ValueError ->
      exists m',
        process_log_line_on line m
        = (if fits_int (e_status e) && fits_int (e_bytes e)
           then Ret tt else Raise ValueError, m')
        /\ total_requests m' = total_requests m + 1
        /\ (strip (e_cache_status e) = "HIT"%string ->
            cache_hits m' = cache_hits m + 1)
        /\ latencies m' = latencies m).
Proof.
  intros Hw Hp skipped line.
  assert (parse_line skipped = None) as Hs
    by (apply parse_no_numeral; auto).
  split; [exact Hs|]. split; [exact (process_log_line_on_unparsed _ _ Hs)|].
  intros Hf.
  pose proof (parse_log_line e pad rest Hw Hp) as Hl. fold line in Hl.
  destruct (groups_lookup e) as (G1 & G2 & G3 & G4).
  destruct (well_formed_digits e Hw) as [Hst Hbs].
  rewrite (process_log_line_on_parsed line (e_cache_status e) (e_status e)
             (e_bytes e) (e_latency e))
    by (unfold groups_read; now rewrite Hl, G1, G2, G3, G4).
  rewrite (ended_fits _ _ Hst Hbs), Hf.
  eexists. split; [reflexivity|].
  split; [apply counted_total|]. split; [|apply counted_no_latency].
  intros Hhit. unfold counted. rewrite Hhit.
  change (cache_counter "HIT") with (Some Cache_hits).
  destruct m, (py_int (e_status e)), (py_int (e_bytes e)); simpl;
    unfold bump, error_counter;
    repeat match goal with
      | |- context [if ?b then _ else _] => destruct b
      end; reflexivity.
Qed.

Definition entry_two_dots : entry :=
  mkEntry "192.168.1.1" "27/Oct/2025:10:00:00 +0000" "GET" "/" "HTTP/1.1"
    "200" "100" "1.2.3" "HIT".

Lemma C1_witness :
  parse_line line_notanumber = None
  /\ process_log_line_on line_notanumber CacheMetrics_new
     = (Ret tt, CacheMetrics_new)
  /\ (py_float "1.2.3" = Raise ValueError ->
      exists m',
        process_log_line_on line_two_dots CacheMetrics_new = (Ret tt, m')
        /\ total_requests m' = total_requests CacheMetrics_new + 1
        /\ (strip "HIT" = "HIT"%string ->
            cache_hits m' = cache_hits CacheMetrics_new + 1)
        /\ latencies m' = latencies CacheMetrics_new).
Proof.
  apply (C1_non_numeric_latency entry_two_dots "" "" CacheMetrics_new);
    vm_compute; reflexivity.
Defined.

(** ** C7: a latency that is no number *)

(** A request whose bytes field is a 1 followed by 4300 zeros, and whose
    latency field is [1.2.3]. *)
Definition line_long_bytes : string :=
  sample_line "192.168.1.100" "00" "/api/static" "200"
    (String "1" (zeros 4300)) "1.2.3" "HIT".

(** C7, as the specification states it, fails: the line matches the
    grammar and [float] rejects its latency, but its bytes field has 4301
    digits, [int] raises [ValueError] on it, outside the [try], and
    [total_bytes] is left at zero. *)
Lemma C7_long_bytes_are_not_counted :
  process_log_line_on line_long_bytes CacheMetrics_new
  = (Raise ValueError, mkCacheMetrics 1 1 0 0 0 0 0 0 0 0 [])
  /\ ~ (let m := snd (process_log_line_on line_long_bytes CacheMetrics_new) in
        total_bytes m = total_bytes CacheMetrics_new + 10 ^ 4300).
Proof.
  assert (process_log_line_on line_long_bytes CacheMetrics_new
          = (Raise ValueError, mkCacheMetrics 1 1 0 0 0 0 0 0 0 0 [])) as E
    by (vm_compute; reflexivity).
  split; [exact E|]. rewrite E. cbv zeta. cbn [snd total_bytes CacheMetrics_new].
  assert (0 < 10 ^ 4300) as Hpos by (apply Z.pow_pos_nonneg; lia).
  set (bytes := 10 ^ 4300) in *. clearbody bytes. lia.
Qed.

(** C7, amended. A line that matches the grammar and whose latency
    field [float] rejects is counted like any other. When its status and
    its bytes are short enough for [int], [process_log_line] returns,
    [total_requests] goes up by one, [total_bytes] by the bytes of the
    record, the latency list is as it was, and the aggregate is the one a
    record with the same cache status, status code and bytes and a numeric
    latency leaves, short of that one observation. When they are not,
    [process_log_line] raises the [ValueError] of [int], before it reads
    the latency: the request is counted, the bytes and the latencies are
    as they were. *)
Theorem C7_unparseable_latency_is_counted line parsed lat m :
  parse_line line = Some parsed ->
  parsed !! "latency"%string = Some lat ->
  py_float lat = Raise ValueError ->
  (convertible line = true ->
   exists m' bs bytes,
     process_log_line_on line m = (Ret tt, m')
     /\ total_requests m' = total_requests m + 1
     /\ parsed !! "bytes"%string = Some bs /\ py_int bs = Ret bytes
     /\ total_bytes m' = total_bytes m + bytes
     /\ latencies m' = latencies m
     /\ forall line2 parsed2 lat2 x,
          parse_line line2 = Some parsed2 ->
          parsed2 !! "cache_status"%string = parsed !! "cache_status"%string ->
          parsed2 !! "status"%string = parsed !! "status"%string ->
          parsed2 !! "bytes"%string = parsed !! "bytes"%string ->
          parsed2 !! "latency"%string = Some lat2 -> py_float lat2 = Ret x ->
          process_log_line_on line2 m = (Ret tt, snd (latencies_append x m')))
  /\ (convertible line = false ->
      exists m',
        process_log_line_on line m = (Raise ValueError, m')
        /\ total_requests m' = total_requests m + 1
        /\ total_bytes m' = total_bytes m
        /\ latencies m' = latencies m).
Proof.
  intros Hp Hlat Hf.
  destruct (groups_read_parsed _ _ Hp)
    as (cs & st & bs & lat' & Hg & Gcs & Gst & Gbs & Glat & Hs & Hb & Hc & He).
  rewrite Hlat in Glat. injection Glat as <-.
  rewrite (process_log_line_on_parsed line cs st bs lat m Hg), Hf.
  unfold ending in He. split; intros Hconv; rewrite Hconv in He.
  - destruct (py_int st) as [status|?] eqn:Est; [|discriminate].
    destruct (py_int bs) as [bytes|?] eqn:Ebs; [|discriminate].
    exists (counted cs (Ret status) (Ret bytes) (Raise ValueError) m), bs, bytes.
    split; [reflexivity|]. split; [apply counted_total|].
    split; [exact Gbs|]. split; [exact Ebs|].
    split; [apply counted_bytes|]. split; [apply counted_no_latency|].
    intros line2 parsed2 lat2 x Hp2 Hcs2 Hst2 Hbs2 Hlat2 Hx.
    rewrite (process_log_line_on_parsed line2 cs st bs lat2 m)
      by (unfold groups_read; now rewrite Hp2, Hcs2, Hst2, Hbs2, Hlat2, Gcs, Gst, Gbs).
    rewrite Est, Ebs, Hx, counted_latency. reflexivity.
  - rewrite He. eexists. split; [reflexivity|]. split; [apply counted_total|].
    now apply counted_no_bytes.
Qed.

Definition parsed_two_dots : groupdict := default ∅ (parse_line line_two_dots).

Lemma C7_witness :
  (convertible line_two_dots = true ->
   exists m' bs bytes,
     process_log_line_on line_two_dots CacheMetrics_new = (Ret tt, m')
     /\ total_requests m' = total_requests CacheMetrics_new + 1
     /\ parsed_two_dots !! "bytes"%string = Some bs /\ py_int bs = Ret bytes
     /\ total_bytes m' = total_bytes CacheMetrics_new + bytes
     /\ latencies m' = latencies CacheMetrics_new
     /\ forall line2 parsed2 lat2 x,
          parse_line line2 = Some parsed2 ->
          parsed2 !! "cache_status"%string = parsed_two_dots !! "cache_status"%string ->
          parsed2 !! "status"%string = parsed_two_dots !! "status"%string ->
          parsed2 !! "bytes"%string = parsed_two_dots !! "bytes"%string ->
          parsed2 !! "latency"%string = Some lat2 -> py_float lat2 = Ret x ->
          process_log_line_on line2 CacheMetrics_new
          = (Ret tt, snd (latencies_append x m')))
  /\ (convertible line_two_dots = false ->
      exists m',
        process_log_line_on line_two_dots CacheMetrics_new = (Raise ValueError, m')
        /\ total_requests m' = total_requests CacheMetrics_new + 1
        /\ total_bytes m' = total_bytes CacheMetrics_new
        /\ latencies m' = latencies CacheMetrics_new).
Proof.
  apply (C7_unparseable_latency_is_counted line_two_dots parsed_two_dots
           "1.2.3"%string CacheMetrics_new); vm_compute; reflexivity.
Defined.

(** ** C6 and C5: the counters of a reachable aggregate *)

Lemma counted_status cs status bytes lat m :
  let m' := counted cs status bytes lat m in
  total_requests m' = total_requests m + 1
  /\ Forall (fun f => counter_of f m <= counter_of f m') status_counters
  /\ status_sum m' <= status_sum m + 1
  /\ (cache_counter (strip cs) = None ->
      Forall (fun f => counter_of f m' = counter_of f m) status_counters).
Proof.
  destruct m as [tr ch cm cb cst cu cr e5 e4 tb ls]. unfold status_sum.
  split; [destruct status, bytes; counted_cases; reflexivity|].
  split; [destruct status, bytes; counted_cases; repeat constructor; simpl; lia|].
  split; [destruct status, bytes; counted_cases; lia|].
  unfold counted at 1. intros ->. unfold bump at 1 2 4.
  destruct status, bytes; counted_cases; repeat constructor.
Qed.

(** C6. Whether it returns or raises, [process_log_line] on a line that
    parses increments [total_requests] by one; none of the six cache-status
    counters goes down and their sum goes up by at most one, so at most one
    of them is incremented; none is when the trimmed tag is none of the six
    names. Hence in the aggregate after any sequence of lines the six
    counters sum to at most [total_requests]. *)
Theorem C6_one_status_counter_per_record line parsed m (lines : list string) :
  parse_line line = Some parsed ->
  (exists o m' tag,
     process_log_line_on line m = (o, m')
     /\ strip <$> parsed !! "cache_status"%string = Some tag
     /\ total_requests m' = total_requests m + 1
     /\ Forall (fun f => counter_of f m <= counter_of f m') status_counters
     /\ status_sum m' <= status_sum m + 1
     /\ (forall f g, In f status_counters -> In g status_counters ->
         counter_of f m' <> counter_of f m -> counter_of g m' <> counter_of g m ->
         f = g)
     /\ (~ In tag recognized ->
         Forall (fun f => counter_of f m' = counter_of f m) status_counters))
  /\ status_sum (run lines) <= total_requests (run lines).
Proof.
  intros Hp. split; [|apply reachable_invariant, run_reachable].
  destruct (groups_read_parsed _ _ Hp)
    as (cs & st & bs & lat & Hg & Gcs & _).
  pose proof (counted_status cs (py_int st) (py_int bs) (py_float lat) m)
    as (Ht & Hmono & Hsum & Hnone).
  eexists _, _, (strip cs).
  split; [apply (process_log_line_on_parsed line cs st bs lat m Hg)|].
  split; [now rewrite Gcs|].
  split; [assumption|]. split; [assumption|]. split; [assumption|].
  split; [|intros Hn; now apply Hnone, cache_counter_none].
  set (m' := counted _ _ _ _ m) in *.
  unfold status_sum in Hsum.
  repeat (apply Forall_cons in Hmono as [? Hmono]). simpl in *.
  intros f g Hf Hg' Hdf Hdg.
  repeat (destruct Hf as [<-|Hf]; [|]); try contradiction;
    repeat (destruct Hg' as [<-|Hg']; [|]); try contradiction;
    try reflexivity; simpl in *; lia.
Qed.

Lemma C6_witness :
  (exists o m' tag,
     process_log_line_on line_hit CacheMetrics_new = (o, m')
     /\ strip <$> default ∅ (parse_line line_hit) !! "cache_status"%string = Some tag
     /\ total_requests m' = total_requests CacheMetrics_new + 1
     /\ Forall (fun f => counter_of f CacheMetrics_new <= counter_of f m')
          status_counters
     /\ status_sum m' <= status_sum CacheMetrics_new + 1
     /\ (forall f g, In f status_counters -> In g status_counters ->
         counter_of f m' <> counter_of f CacheMetrics_new ->
         counter_of g m' <> counter_of g CacheMetrics_new -> f = g)
     /\ (~ In tag recognized ->
         Forall (fun f => counter_of f m' = counter_of f CacheMetrics_new)
           status_counters))
  /\ status_sum (run sample_log_lines) <= total_requests (run sample_log_lines).
Proof.
  apply (C6_one_status_counter_per_record line_hit
           (default ∅ (parse_line line_hit)) CacheMetrics_new sample_log_lines).
  vm_compute. reflexivity.
Defined.

(** The quotient of two counters, the first at most the second. *)
Lemma ratio_unit_interval (a b : Z) :
  0 <= a <= b ->
  exists x, (if Z.eqb b 0 then Ret zero else truediv a b) = Ret x
    /\ (b = 0 -> x = zero) /\ (b <> 0 -> x = of_quotient a b)
    /\ leb zero x = true /\ leb x one = true.
Proof.
  intros Hab. destruct (Z.eqb_spec b 0) as [E|E].
  - exists zero. repeat split; try reflexivity. congruence.
  - destruct (of_quotient_unit a b) as (Hfin & Hq0 & Hq1); [lia | lia |].
    unfold truediv. rewrite (proj2 (Z.eqb_neq _ _) E), Hfin.
    eexists. split; [reflexivity|]. repeat split; try assumption. congruence.
Qed.

Lemma run_errors lines :
  0 <= error_5xx (run lines) + error_4xx (run lines) <= total_requests (run lines).
Proof.
  destruct (reachable_invariant _ (run_reachable lines)) as [Hn He _ _ _ _].
  repeat (apply Forall_cons in Hn as [? Hn]). simpl in *. lia.
Qed.

(** The counters of an aggregate after any sequence of lines are not
    negative, so C3 applies to it. *)
Lemma run_counters_nonneg lines :
  0 <= cache_hits (run lines) /\ 0 <= cache_misses (run lines).
Proof.
  destruct (reachable_invariant _ (run_reachable lines)) as [Hn _ _ _ _ _].
  repeat (apply Forall_cons in Hn as [? Hn]). simpl in *. auto.
Qed.

(** C5. In the aggregate after any sequence of lines the two error
    counters sum to at most [total_requests]; [error_rate] returns their
    quotient by [total_requests], or [0.0] when [total_requests] is zero,
    and the value lies between [0.0] and [1.0]. *)
Theorem C5_error_rate_unit_interval (lines : list string) :
  let m := run lines in
  error_4xx m + error_5xx m <= total_requests m
  /\ exists x, error_rate m = Ret x
       /\ (total_requests m = 0 -> x = zero)
       /\ (total_requests m <> 0 ->
           x = of_quotient (error_5xx m + error_4xx m) (total_requests m))
       /\ leb zero x = true /\ leb x one = true.
Proof.
  intros m. pose proof (run_errors lines) as He. fold m in He.
  split; [lia|]. apply ratio_unit_interval. assumption.
Qed.

(** ** C3: the hit ratio *)

(** C3. With counters that are not negative, [hit_ratio] returns the
    quotient of [cache_hits] by [cache_hits + cache_misses], or [0.0] when
    that sum is zero; the value lies between [0.0] and [1.0]; and an
    aggregate with the same hits and misses has the same hit ratio, whatever
    its other counters. *)
Theorem C3_hit_ratio_unit_interval (m : CacheMetrics) :
  0 <= cache_hits m -> 0 <= cache_misses m ->
  (exists x, hit_ratio m = Ret x
     /\ (cache_hits m + cache_misses m = 0 -> x = zero)
     /\ (cache_hits m + cache_misses m <> 0 ->
         x = of_quotient (cache_hits m) (cache_hits m + cache_misses m))
     /\ leb zero x = true /\ leb x one = true)
  /\ forall m2, cache_hits m2 = cache_hits m -> cache_misses m2 = cache_misses m ->
       hit_ratio m2 = hit_ratio m.
Proof.
  intros Hh Hm. split; [|intros m2 E1 E2; unfold hit_ratio; now rewrite E1, E2].
  apply ratio_unit_interval. lia.
Qed.

Definition busy_metrics : CacheMetrics :=
  mkCacheMetrics 12 3 1 4 2 1 1 0 0 0 [].

Lemma C3_witness :
  (exists x, hit_ratio busy_metrics = Ret x
     /\ (cache_hits busy_metrics + cache_misses busy_metrics = 0 -> x = zero)
     /\ (cache_hits busy_metrics + cache_misses busy_metrics <> 0 ->
         x = of_quotient (cache_hits busy_metrics)
               (cache_hits busy_metrics + cache_misses busy_metrics))
     /\ leb zero x = true /\ leb x one = true)
  /\ forall m2, cache_hits m2 = cache_hits busy_metrics ->
       cache_misses m2 = cache_misses busy_metrics ->
       hit_ratio m2 = hit_ratio busy_metrics.
Proof. apply (C3_hit_ratio_unit_interval busy_metrics); simpl; lia. Defined.


(** ** C4: every analysis run starts from an empty aggregate *)

(** A request whose status field is a 2 followed by 4300 zeros. *)
Definition line_long_status : string :=
  sample_line "192.168.1.100" "00" "/api/static" (String "2" (zeros 4300))
    "1234" "0.050" "HIT".

(** The sample log followed by that request. *)
Definition long_log : string := String.append sample_log line_long_status.

Lemma long_log_stops : completes long_log = false.
Proof. vm_compute. reflexivity. Qed.

(** C4, as the specification states it, fails: on a text one of whose
    lines has a status of 4301 digits, [process_log_content] raises the
    [ValueError] of [int] and returns no snapshot, the first time and the
    second. *)
Lemma C4_long_log_gives_no_snapshot :
  ~ (exists r1 w1 r2 w2,
       process_log_content 1%positive long_log new_analyzer_world = (Ret r1, w1)
       /\ process_log_content 1%positive long_log w1 = (Ret r2, w2)).
Proof.
  intros (r1 & w1 & r2 & w2 & H1 & _).
  rewrite process_log_content_run, long_log_stops in H1. discriminate.
Qed.

(** C4, amended. Two calls of [process_log_content] with the same text
    on the same analyzer, in any state of the store, end the same way:
    both return when the text has no status or bytes too long for [int],
    both raise [ValueError] when it has. Each call allocates a new object,
    makes it the analyzer's [metrics] and folds the lines into it, so the
    two objects are different and hold the same aggregate, that of the
    lines the loop got to, which is the aggregate of the whole text when
    the calls return; the second call leaves the first object as it was. *)
Theorem C4_process_log_content_twice (w : world) (self : ref) (content : string) :
  exists r1 w1 r2 w2,
    process_log_content self content w
    = (if completes content then Ret r1 else Raise ValueError, w1)
    /\ process_log_content self content w1
       = (if completes content then Ret r2 else Raise ValueError, w2)
    /\ r1 <> r2
    /\ objects w !! r1 = None
    /\ get_metrics self w1 = (Ret r1, w1)
    /\ objects w1 !! r1 = Some (progress content)
    /\ get_metrics self w2 = (Ret r2, w2)
    /\ objects w2 !! r1 = Some (progress content)
    /\ objects w2 !! r2 = Some (progress content)
    /\ (completes content = true -> progress content = aggregate content).
Proof.
  pose proof (process_log_content_run w self content) as H1. cbv zeta in H1.
  set (r1 := fresh (dom (objects w))) in *.
  set (w1 := mkWorld (<[r1 := progress content]> (objects w))
               (<[self := mkMetricsAnalyzer r1]> (analyzers w))) in *.
  pose proof (process_log_content_run w1 self content) as H2. cbv zeta in H2.
  set (r2 := fresh (dom (objects w1))) in *.
  assert (objects w1 !! r1 = Some (progress content)) as Hr1
    by (unfold w1; simpl; apply lookup_insert_eq).
  assert (r1 <> r2) as Hne.
  { intros E. pose proof (fresh_object w1) as Hf. fold r2 in Hf.
    rewrite <- E in Hf. congruence. }
  eexists r1, w1, r2, _. split; [exact H1|]. split; [exact H2|].
  split; [assumption|]. split; [apply fresh_object|].
  split; [unfold get_metrics, w1; simpl; now rewrite lookup_insert_eq|].
  split; [assumption|].
  split; [unfold get_metrics; simpl; now rewrite lookup_insert_eq|].
  simpl. split; [|split; [apply lookup_insert_eq | apply progress_completes]].
  rewrite lookup_insert_ne by congruence. assumption.
Qed.

(** ** C10: the pattern is matched as a prefix *)

(** C10. Whatever is appended to a line that parses, the longer line
    parses too, to the same groups. *)
Theorem C10_parse_line_prefix (s t : string) (parsed : groupdict) :
  parse_line s = Some parsed -> parse_line (s ++ t) = Some parsed.
Proof.
  intros H. pose proof (parse_line_nonempty _ _ H) as Hne.
  destruct (strip_append s t Hne) as [u Hu].
  rewrite parse_line_det in *. rewrite Hu.
  now apply match_det_append; [apply LOG_PATTERN_delimited|].
Qed.

Lemma C10_witness :
  parse_line (line_hit ++ " and whatever follows")
  = Some (default ∅ (parse_line line_hit)).
Proof.
  apply (C10_parse_line_prefix line_hit " and whatever follows").
  vm_compute. reflexivity.
Defined.

(** ** C9: what raises *)

Lemma fold_lines_unparsed lines m :
  Forall (fun line => parse_line line = None) lines -> fold_lines lines m = m.
Proof.
  induction 1 as [|line lines Hl _ IH]; simpl; [reflexivity|].
  unfold after. rewrite (process_log_line_on_unparsed _ _ Hl). simpl.
  now destruct (nonblank line).
Qed.

Lemma unparsed_convertible line : parse_line line = None -> convertible line = true.
Proof. intros H. unfold convertible. now rewrite H. Qed.

Lemma unparsed_completes content :
  Forall (fun line => parse_line line = None) (splitlines content) ->
  completes content = true.
Proof.
  unfold completes. induction 1 as [|line lines Hl _ IH]; [reflexivity|].
  cbn [forallb]. now rewrite (unparsed_convertible _ Hl).
Qed.

(** C9, as the specification states it, fails: [process_log_line] on a
    request whose status has 4301 digits raises the [ValueError] of [int],
    and so does [process_log_content] on a text that holds this line. *)
Lemma C9_long_status_raises :
  fst (process_log_line 1%positive line_long_status new_analyzer_world)
  = Raise ValueError
  /\ fst (process_log_content 1%positive line_long_status new_analyzer_world)
     = Raise ValueError.
Proof.
  split.
  - rewrite (process_log_line_run new_analyzer_world 1%positive 1%positive
               CacheMetrics_new) by (vm_compute; reflexivity).
    vm_compute. reflexivity.
  - rewrite process_log_content_run.
    replace (completes line_long_status) with false
      by (vm_compute; reflexivity).
    reflexivity.
Qed.

(** C9, amended. The one exception these operations raise is the
    [ValueError] of [int]. [process_log_line] on a live analyzer returns unless the
    line parses and its status or its bytes are too long for [int], and
    changes nothing when the line does not parse; [process_log_content]
    returns unless one of the lines of the text makes [process_log_line]
    raise, and returns the all-zero aggregate when no line of the text
    parses; and on the aggregate after any sequence of lines, with fewer
    than 2^47 observations, the five derived statistics return. *)
Theorem C9_only_int_raises (w : world) (self : ref) (m0 : CacheMetrics)
  (line content : string) (lines : list string) :
  alive w self m0 ->
  len (latencies (run lines)) < 2 ^ 47 ->
  (exists w',
     process_log_line self line w
     = (if convertible line then Ret tt else Raise ValueError, w')
     /\ (parse_line line = None -> convertible line = true /\ w' = w))
  /\ (exists r w',
        process_log_content self content w
        = (if completes content then Ret r else Raise ValueError, w')
        /\ (completes content = true ->
            objects w' !! r = Some (aggregate content)))
  /\ (Forall (fun l => parse_line l = None) (splitlines content) ->
      completes content = true /\ aggregate content = CacheMetrics_new)
  /\ (let m := run lines in
      returns (hit_ratio m) && returns (error_rate m) && returns (p50_latency m)
      && returns (p95_latency m) && returns (p99_latency m) = true).
Proof.
  intros (r & Ha & Ho) Hlen. split; [|split; [|split]].
  - rewrite (process_log_line_run w self r m0 line Ha Ho).
    eexists. split; [reflexivity|]. intros Hn.
    split; [now apply unparsed_convertible|].
    unfold after. rewrite (process_log_line_on_unparsed _ _ Hn). simpl.
    rewrite insert_id by assumption. now destruct w.
  - rewrite process_log_content_run. eexists _, _. split; [reflexivity|].
    intros Hc. simpl. rewrite lookup_insert_eq. f_equal.
    now apply progress_completes.
  - intros Hn. split; [now apply unparsed_completes | now apply fold_lines_unparsed].
  - destruct (ratio_unit_interval _ _ (run_errors lines)) as (x & Hx & _).
    destruct (run_counters_nonneg lines) as [Hh Hm].
    destruct (ratio_unit_interval (cache_hits (run lines))
                (cache_hits (run lines) + cache_misses (run lines)) ltac:(lia))
      as (y & Hy & _).
    cbv zeta. unfold hit_ratio, error_rate. rewrite Hx, Hy.
    set (m := run lines) in *.
    simpl. unfold p50_latency, p95_latency, p99_latency.
    destruct (latencies m) as [|a l] eqn:El.
    { unfold rank_latency. rewrite El. reflexivity. }
    assert (latencies m <> []) as Hne by (rewrite El; discriminate).
    rewrite <- El in Hlen.
    destruct (rank_latency_eval c_0_95 95 m rank_index_0_95 ltac:(lia) Hne Hlen)
      as (b & -> & _).
    destruct (rank_latency_eval c_0_99 99 m rank_index_0_99 ltac:(lia) Hne Hlen)
      as (c & -> & _).
    pose proof (median_eval (latencies m) Hne) as Hmed. cbv zeta in Hmed.
    rewrite El in Hmed.
    destruct (Z.odd (len (a :: l))); [destruct Hmed as (? & -> & _)
                                     | destruct Hmed as (? & ? & -> & _)];
      reflexivity.
Qed.

Lemma C9_witness :
  (exists w',
     process_log_line 1%positive line_notanumber new_analyzer_world
     = (if convertible line_notanumber then Ret tt else Raise ValueError, w')
     /\ (parse_line line_notanumber = None ->
         convertible line_notanumber = true /\ w' = new_analyzer_world))
  /\ (exists r w',
        process_log_content 1%positive sample_log new_analyzer_world
        = (if completes sample_log then Ret r else Raise ValueError, w')
        /\ (completes sample_log = true ->
            objects w' !! r = Some (aggregate sample_log)))
  /\ (Forall (fun l => parse_line l = None) (splitlines sample_log) ->
      completes sample_log = true /\ aggregate sample_log = CacheMetrics_new)
  /\ (let m := run sample_log_lines in
      returns (hit_ratio m) && returns (error_rate m) && returns (p50_latency m)
      && returns (p95_latency m) && returns (p99_latency m) = true).
Proof.
  apply (C9_only_int_raises new_analyzer_world 1%positive CacheMetrics_new
           line_notanumber sample_log sample_log_lines).
  - exists 1%positive. split; vm_compute; reflexivity.
  - vm_compute. reflexivity.
Defined.

(** ** C2: the rank-index percentiles *)

(** C2. With no observation the three percentiles are [0.0]. With
    fewer than 2^47 observations, [p95_latency] and [p99_latency] return
    the element of the sorted list at the floor of 95 and of 99 hundredths
    of the count, the specification's rank-index percentile; and the
    sorted list is ascending and a permutation of the observations when
    none of them is a NaN. *)
Theorem C2_rank_index_percentiles (self : CacheMetrics) :
  len (latencies self) < 2 ^ 47 ->
  (latencies self = [] ->
   p50_latency self = Ret zero /\ p95_latency self = Ret zero
   /\ p99_latency self = Ret zero)
  /\ (latencies self <> [] ->
      exists x y,
        p95_latency self = Ret x /\ spec_rank 95 (latencies self) = Some x
        /\ p99_latency self = Ret y /\ spec_rank 99 (latencies self) = Some y)
  /\ (no_nan (latencies self) ->
      StronglySorted fle (sorted (latencies self))
      /\ Permutation (sorted (latencies self)) (latencies self)).
Proof.
  intros Hlen. split; [|split].
  - intros E. unfold p50_latency, p95_latency, p99_latency, rank_latency.
    rewrite E. auto.
  - intros Hne.
    destruct (rank_latency_eval c_0_95 95 self rank_index_0_95 ltac:(lia) Hne Hlen)
      as (x & Hx & Sx & _).
    destruct (rank_latency_eval c_0_99 99 self rank_index_0_99 ltac:(lia) Hne Hlen)
      as (y & Hy & Sy & _).
    exists x, y. auto.
  - intros Hn. split; [now apply sorted_ascending | apply sorted_perm].
Qed.

Lemma C2_witness :
  let self := run sample_log_lines in
  (latencies self = [] ->
   p50_latency self = Ret zero /\ p95_latency self = Ret zero
   /\ p99_latency self = Ret zero)
  /\ (latencies self <> [] ->
      exists x y,
        p95_latency self = Ret x /\ spec_rank 95 (latencies self) = Some x
        /\ p99_latency self = Ret y /\ spec_rank 99 (latencies self) = Some y)
  /\ (no_nan (latencies self) ->
      StronglySorted fle (sorted (latencies self))
      /\ Permutation (sorted (latencies self)) (latencies self)).
Proof.
  apply (C2_rank_index_percentiles (run sample_log_lines)).
  vm_compute. reflexivity.
Defined.

(** ** C8: the order of the three percentiles *)

(** Two requests whose latency field is a 9 followed by 307 zeros. *)
Definition line_huge : string :=
  sample_line "192.168.1.100" "00" "/api/static" "200" "1234"
    (String "9" (zeros 307)) "HIT".

Definition huge_log : string :=
  String.append line_huge (String.append newline line_huge).

(** C8, as the specification states it, fails: the median of two
    observations is half their sum, and the sum of two latencies of 9e307
    seconds is infinite, above the P95, which is 9e307. *)
Lemma C8_median_overflows :
  ~ (let m := aggregate huge_log in
     exists a b c,
       p50_latency m = Ret a /\ p95_latency m = Ret b /\ p99_latency m = Ret c
       /\ leb a b = true /\ leb b c = true).
Proof.
  assert (p50_latency (aggregate huge_log) = Ret infinity) as H50
    by (vm_compute; reflexivity).
  assert (p95_latency (aggregate huge_log)
          = Ret (S754_finite false 4509378810020189 971)) as H95
    by (vm_compute; reflexivity).
  cbv zeta. intros (a & b & c & Ha & Hb & _ & Hab & _).
  rewrite H50 in Ha. rewrite H95 in Hb.
  injection Ha as <-. injection Hb as <-. discriminate.
Qed.

(** C8, amended. For a nonempty list of fewer than 2^47 latencies, each
    of them zero, a positive binary64 number or infinity, as every latency
    the analyzer records is: P95 is at most P99; P50 is at most P95 when
    the count is odd; when the count is even P50 is half the sum of the two
    middle values of the sorted list, which are in order and at most P95,
    and P50 is at most P95 unless the upper middle value is finite and
    that sum overflows. *)
Theorem C8_percentiles_ordered (self : CacheMetrics) :
  latencies self <> [] ->
  Forall (fun x => nonneg64 x = true) (latencies self) ->
  len (latencies self) < 2 ^ 47 ->
  let s := sorted (latencies self) in
  let n := len (latencies self) in
  exists a b c,
    p50_latency self = Ret a /\ p95_latency self = Ret b
    /\ p99_latency self = Ret c
    /\ leb b c = true
    /\ (Z.odd n = true -> leb a b = true)
    /\ (Z.odd n = false ->
        exists lo hi,
          s !! Z.to_nat (n / 2 - 1) = Some lo /\ s !! Z.to_nat (n / 2) = Some hi
          /\ a = div (add lo hi) two
          /\ leb lo hi = true /\ leb hi b = true
          /\ ((is_finite hi = true -> is_finite (add lo hi) = true) ->
              leb a b = true)).
Proof.
  intros Hne Hval Hlen s n.
  assert (no_nan (latencies self)) as Hnan
    by (eapply Forall_impl; [exact Hval | apply nonneg64_no_nan]).
  assert (forall i x, s !! i = Some x -> nonneg64 x = true) as Hsv.
  { intros i x Hx. rewrite Forall_forall in Hval. apply Hval.
    rewrite <- (sorted_perm (latencies self)).
    eapply list_elem_of_lookup_2. exact Hx. }
  destruct (rank_latency_eval c_0_95 95 self rank_index_0_95 ltac:(lia) Hne Hlen)
    as (b & Hb & _ & Sb).
  destruct (rank_latency_eval c_0_99 99 self rank_index_0_99 ltac:(lia) Hne Hlen)
    as (c & Hc & _ & Sc).
  fold s n in Sb, Sc.
  assert (0 < n) as Hn
    by (unfold n, len; destruct (latencies self); simpl; [congruence | lia]).
  pose proof (sorted_ascending _ Hnan) as Hs. fold s in Hs.
  pose proof (sorted_no_nan _ Hnan) as Hsn. fold s in Hsn.
  assert (forall i j x y, 0 <= i <= j -> s !! Z.to_nat i = Some x ->
            s !! Z.to_nat j = Some y -> leb x y = true) as Hord.
  { intros i j x y Hij Hx Hy.
    apply (strongly_sorted_lookup s (Z.to_nat i) (Z.to_nat j)); auto. lia. }
  assert (n / 2 <= 95 * n / 100) as H1.
  { apply Z.div_le_lower_bound; [lia|].
    pose proof (Z.mul_div_le n 2 ltac:(lia)). lia. }
  assert (95 * n / 100 <= 99 * n / 100) as H2 by (apply Z.div_le_mono; lia).
  assert (0 <= n / 2) as H0 by (apply Z.div_pos; lia).
  pose proof (median_eval (latencies self) Hne) as Hmed. cbv zeta in Hmed.
  fold s n in Hmed.
  assert (p50_latency self = median (latencies self)) as ->.
  { unfold p50_latency. destruct (latencies self); [congruence | reflexivity]. }
  unfold p95_latency, p99_latency.
  destruct (Z.odd n) eqn:Eo.
  - destruct Hmed as (a & Ha & Sa). exists a, b, c.
    repeat split; try assumption.
    + apply (Hord (95 * n / 100) (99 * n / 100)); auto. lia.
    + intros _. apply (Hord (n / 2) (95 * n / 100)); auto.
    + discriminate.
  - destruct Hmed as (lo & hi & Ha & Slo & Shi).
    assert (2 <= n) as Hn2.
    { destruct (Z.eq_dec n 1) as [E|E]; [rewrite E in Eo; discriminate | lia]. }
    assert (1 <= n / 2) by (apply Z.div_le_lower_bound; lia).
    assert (leb hi b = true) as Hhb
      by (apply (Hord (n / 2) (95 * n / 100)); auto).
    exists (div (add lo hi) two), b, c.
    repeat split; try assumption.
    + apply (Hord (95 * n / 100) (99 * n / 100)); auto. lia.
    + discriminate.
    + intros _. exists lo, hi. repeat split; try assumption.
      * apply (Hord (n / 2 - 1) (n / 2)); auto. lia.
      * intros Hfin.
        assert (leb lo hi = true) as Hlh
          by (apply (Hord (n / 2 - 1) (n / 2)); auto; lia).
        pose proof (mean_le_upper lo hi (Hsv _ _ Slo) (Hsv _ _ Shi) Hlh Hfin)
          as Hah.
        assert (is_nan (div (add lo hi) two) = false) as Hna
          by (destruct (div (add lo hi) two); try reflexivity; discriminate).
        unfold no_nan in Hsn. rewrite Forall_forall in Hsn.
        apply (leb_trans _ hi b); auto; apply Hsn;
          eapply list_elem_of_lookup_2; eassumption.
Qed.

Lemma C8_witness :
  let self := run sample_log_lines in
  let s := sorted (latencies self) in
  let n := len (latencies self) in
  exists a b c,
    p50_latency self = Ret a /\ p95_latency self = Ret b
    /\ p99_latency self = Ret c
    /\ leb b c = true
    /\ (Z.odd n = true -> leb a b = true)
    /\ (Z.odd n = false ->
        exists lo hi,
          s !! Z.to_nat (n / 2 - 1) = Some lo /\ s !! Z.to_nat (n / 2) = Some hi
          /\ a = div (add lo hi) two
          /\ leb lo hi = true /\ leb hi b = true
          /\ ((is_finite hi = true -> is_finite (add lo hi) = true) ->
              leb a b = true)).
Proof.
  apply (C8_percentiles_ordered (run sample_log_lines)).
  - vm_compute. discriminate.
  - vm_compute. repeat constructor.
  - vm_compute. reflexivity.
Defined.

(** * Further properties of [metrics.py]: the lemmas *)

(** ** What a line contributes to the aggregate *)

Module RecordFacts.
Import PyStr PyStrFacts Re ReFacts Parser ParserFacts Binary64 Py Metrics.
Import FoldFacts AnalyzerFacts.
Local Open Scope Z_scope.

(** What [process_log_line] reads from a line that parses: the cache
    status as written, what [int] makes of the status code and of the
    bytes, and what [float] makes of the latency. *)
Record record := mkRecord {
  r_cache_status : string;
  r_status : outcome Z;
  r_bytes : outcome Z;
  r_latency : outcome float
}.

(** The value a computation returns, if it returns. *)
Definition ret_of {A} (o : outcome A) : option A :=
  match o with Ret a => Some a | Raise _ => None end.

(** The record of a line, read as [process_log_line] reads it; there is
    none when [parse_line] returns [None]. *)
Definition record_of (line : string) : option record :=
  parsed ← parse_line line;
  cs ← parsed !! "cache_status"%string;
  st ← parsed !! "status"%string;
  bs ← parsed !! "bytes"%string;
  lat ← parsed !! "latency"%string;
  Some (mkRecord cs (py_int st) (py_int bs) (py_float lat)).

(** The aggregate once [process_log_line] has counted a record, as far
    as it gets. *)
Definition count (r : record) (m : CacheMetrics) : CacheMetrics :=
  counted (r_cache_status r) (r_status r) (r_bytes r) (r_latency r) m.

(** A record counted to the end: [int] converted its status and its
    bytes. *)
Definition complete (r : record) : bool :=
  returns (r_status r) && returns (r_bytes r).

Lemma record_of_parsed line parsed :
  parse_line line = Some parsed ->
  exists r, record_of line = Some r
    /\ int_outcome (r_status r) /\ int_outcome (r_bytes r)
    /\ parsed !! "cache_status"%string = Some (r_cache_status r)
    /\ (exists lat, parsed !! "latency"%string = Some lat
                    /\ r_latency r = py_float lat)
    /\ complete r = convertible line.
Proof.
  intros Hp. destruct (parse_line_fields _ _ Hp) as [F _].
  exists (mkRecord (f_cache_status _ F) (py_int (f_status _ F))
            (py_int (f_bytes _ F)) (py_float (f_latency _ F))).
  unfold record_of, complete, convertible. rewrite Hp. simpl.
  rewrite (get_cache_status _ F), (get_status _ F), (get_bytes _ F),
    (get_latency _ F). simpl.
  split; [reflexivity|].
  split; [apply py_int_outcome, (status_digits _ F)|].
  split; [apply py_int_outcome, (bytes_digits _ F)|].
  split; [reflexivity|]. split; [eauto|].
  now rewrite (py_int_returns _ (status_digits _ F)),
    (py_int_returns _ (bytes_digits _ F)).
Qed.

Lemma record_of_none line : parse_line line = None <-> record_of line = None.
Proof.
  split.
  - intros H. unfold record_of. now rewrite H.
  - destruct (parse_line line) as [parsed|] eqn:Hp; [|reflexivity].
    destruct (record_of_parsed _ _ Hp) as (r & -> & _). discriminate.
Qed.

(** [process_log_line] counts the record of the line, if it has one. *)
Lemma after_record line m :
  after line m = match record_of line with
                 | Some r => count r m
                 | None => m
                 end.
Proof.
  unfold after. destruct (parse_line line) as [parsed|] eqn:Hp.
  - destruct (parse_line_fields _ _ Hp) as [F _].
    unfold process_log_line_on, truthy. rewrite Hp.
    rewrite bool_decide_eq_false_2 by (eapply parse_line_truthy; eassumption).
    change (negb false) with true. cbv iota.
    rewrite (count_record_eq parsed F m).
    unfold record_of. rewrite Hp. simpl.
    rewrite (get_cache_status _ F), (get_status _ F), (get_bytes _ F),
      (get_latency _ F). reflexivity.
  - rewrite (proj1 (record_of_none line) Hp).
    unfold process_log_line_on. now rewrite Hp.
Qed.

(** [process_log_line] returns on the lines that have no record or a
    complete one. *)
Lemma convertible_record line :
  convertible line = match record_of line with
                     | Some r => complete r
                     | None => true
                     end.
Proof.
  destruct (parse_line line) as [parsed|] eqn:Hp.
  - destruct (record_of_parsed _ _ Hp) as (r & -> & _ & _ & _ & _ & Hc). now symmetry.
  - rewrite (proj1 (record_of_none line) Hp). unfold convertible. now rewrite Hp.
Qed.

(** A blank line has no record: the test [if line.strip()] of
    [process_log_content] skips nothing that would count. *)
Lemma blank_no_record line : nonblank line = false -> record_of line = None.
Proof.
  unfold nonblank. intros H. apply record_of_none.
  destruct (parse_line line) as [parsed|] eqn:Hp; [|reflexivity].
  apply parse_line_nonempty in Hp. destruct (strip line); [congruence | discriminate].
Qed.

Lemma fold_lines_records lines : forall m,
  fold_lines lines m = fold_left (fun m r => count r m) (omap record_of lines) m.
Proof.
  induction lines as [|line lines IH]; intros m; [reflexivity|].
  change (fold_lines (line :: lines) m)
    with (fold_lines lines (if nonblank line then after line m else m)).
  rewrite IH.
  assert ((if nonblank line then after line m else m)
          = match record_of line with Some r => count r m | None => m end) as ->.
  { destruct (nonblank line) eqn:Hb; [apply after_record|].
    now rewrite (blank_no_record _ Hb). }
  cbn [omap list_omap]. now destruct (record_of line).
Qed.

Lemma run_records lines :
  run lines = fold_left (fun m r => count r m) (omap record_of lines)
                CacheMetrics_new.
Proof.
  unfold run. generalize CacheMetrics_new.
  induction lines as [|line lines IH]; intros m; [reflexivity|].
  cbn [fold_left]. rewrite IH, after_record.
  cbn [omap list_omap]. now destruct (record_of line).
Qed.

(** The records the loop of [process_log_content] gets to: those before
    the first that is not complete, and that one. *)
Fixpoint got_to (rs : list record) : list record :=
  match rs with
  | [] => []
  | r :: rs' => if complete r then r :: got_to rs' else [r]
  end.

Lemma got_to_all rs : forallb complete rs = true -> got_to rs = rs.
Proof.
  induction rs as [|r rs IH]; simpl; [reflexivity|].
  intros [-> H]%andb_prop. now rewrite IH.
Qed.

Lemma records_reached lines :
  omap record_of (reached lines) = got_to (omap record_of lines).
Proof.
  induction lines as [|line lines IH]; [reflexivity|].
  cbn [reached omap list_omap]. rewrite convertible_record.
  destruct (record_of line) as [r|] eqn:Er.
  - cbn [got_to]. destruct (complete r).
    + cbn [omap list_omap]. now rewrite Er, IH.
    + cbn [omap list_omap]. now rewrite Er.
  - cbn [omap list_omap]. now rewrite Er.
Qed.

Lemma records_convertible lines :
  forallb convertible lines = forallb complete (omap record_of lines).
Proof.
  induction lines as [|line lines IH]; [reflexivity|].
  cbn [forallb omap list_omap]. rewrite convertible_record, IH.
  now destruct (record_of line).
Qed.

End RecordFacts.

(** ** Aggregates put together *)

Module AggregateFacts.
Import PyStr PyStrFacts Re ReFacts Parser ParserFacts Binary64 Py Metrics.
Import FoldFacts AnalyzerFacts RecordFacts.
Local Open Scope Z_scope.

(** Two aggregates put together: the counters add up, and the
    observations of the second follow those of the first. *)
Definition plus (a b : CacheMetrics) : CacheMetrics :=
  mkCacheMetrics
    (total_requests a + total_requests b)
    (cache_hits a + cache_hits b)
    (cache_misses a + cache_misses b)
    (cache_bypass a + cache_bypass b)
    (cache_stale a + cache_stale b)
    (cache_updating a + cache_updating b)
    (cache_revalidated a + cache_revalidated b)
    (error_5xx a + error_5xx b)
    (error_4xx a + error_4xx b)
    (total_bytes a + total_bytes b)
    (latencies a ++ latencies b).

Lemma plus_new_r a : plus a CacheMetrics_new = a.
Proof.
  destruct a. unfold plus. simpl. rewrite !Z.add_0_r, app_nil_r. reflexivity.
Qed.

Lemma count_plus r a b : count r (plus a b) = plus a (count r b).
Proof.
  destruct r as [cs status bytes lat], a, b. unfold count, plus. simpl.
  destruct status, bytes; counted_cases; rewrite <- ?app_assoc; f_equal; lia.
Qed.

Lemma fold_count_plus rs : forall a b,
  fold_left (fun m r => count r m) rs (plus a b)
  = plus a (fold_left (fun m r => count r m) rs b).
Proof.
  induction rs as [|r rs IH]; intros a b; simpl; [reflexivity|].
  now rewrite count_plus, IH.
Qed.

Lemma fold_count_app rs1 rs2 :
  fold_left (fun m r => count r m) (rs1 ++ rs2) CacheMetrics_new
  = plus (fold_left (fun m r => count r m) rs1 CacheMetrics_new)
         (fold_left (fun m r => count r m) rs2 CacheMetrics_new).
Proof.
  rewrite fold_left_app.
  rewrite <- (plus_new_r (fold_left _ rs1 CacheMetrics_new)) at 1.
  apply fold_count_plus.
Qed.

(** What [process_log_line] adds does not depend on what was counted
    before. *)
Lemma after_plus line m : after line m = plus m (after line CacheMetrics_new).
Proof.
  rewrite !after_record. destruct (record_of line) as [r|].
  - rewrite <- count_plus. now rewrite plus_new_r.
  - now rewrite plus_new_r.
Qed.

(** The contribution of one record. *)
Lemma count_new_nonneg r :
  int_outcome (r_status r) -> int_outcome (r_bytes r) ->
  let d := count r CacheMetrics_new in
  (forall f, 0 <= counter_of f d)
  /\ (latencies d = [] \/ exists x, latencies d = [x]).
Proof.
  destruct r as [cs [status|?] [bytes|?] lat]; simpl; intros Hs Hb;
    unfold count; simpl; (split;
      [intros f; destruct f; counted_cases; lia | counted_cases; eauto]).
Qed.

End AggregateFacts.

(** ** The lines of a text *)

Module LinesFacts.
Import PyStr PyStrFacts Parser Metrics AnalyzerFacts RecordFacts.
Local Open Scope string_scope.

Definition CR : ascii := ascii_of_nat 13.
Definition LF : ascii := ascii_of_nat 10.

(** What follows a line boundary: after a carriage return a line feed
    belongs to the boundary. *)
Definition skip_lf (c : ascii) (s : string) : string :=
  match s with
  | String c' s' =>
      if Nat.eqb (code c) 13 && Nat.eqb (code c') 10 then s' else s
  | EmptyString => s
  end.

Lemma splitlines_from_break cur c s :
  is_linebreak c = true ->
  splitlines_from cur (String c s) = cur :: splitlines_from "" (skip_lf c s).
Proof.
  intros H. simpl. rewrite H. unfold skip_lf. destruct s as [|c' s']; [reflexivity|].
  now destruct (Nat.eqb (code c) 13 && Nat.eqb (code c') 10).
Qed.

Lemma splitlines_from_char cur c s :
  is_linebreak c = false ->
  splitlines_from cur (String c s) = splitlines_from (cur ++ String c "") s.
Proof. intros H. simpl. now rewrite H. Qed.

Lemma skip_lf_length c s : (String.length (skip_lf c s) <= String.length s)%nat.
Proof.
  unfold skip_lf. destruct s as [|c' s']; [lia|].
  destruct (Nat.eqb (code c) 13 && Nat.eqb (code c') 10); simpl; lia.
Qed.

Lemma skip_lf_append c s t :
  s <> "" -> skip_lf c (s ++ t) = skip_lf c s ++ t.
Proof.
  destruct s as [|c' s']; [congruence|]. intros _. simpl.
  now destruct (Nat.eqb (code c) 13 && Nat.eqb (code c') 10).
Qed.

Lemma code_inj a b : code a = code b -> a = b.
Proof.
  unfold code. intros H.
  rewrite <- (ascii_nat_embedding a), <- (ascii_nat_embedding b). now rewrite H.
Qed.

Lemma record_of_empty : record_of "" = None.
Proof. apply blank_no_record. reflexivity. Qed.

Lemma skip_lf_other c s : Nat.eqb (code c) 13 = false -> skip_lf c s = s.
Proof. intros H. unfold skip_lf. rewrite H. now destruct s. Qed.

Lemma skip_lf_cr c s : Nat.eqb (code c) 13 = true -> skip_lf c (String LF s) = s.
Proof. intros H. unfold skip_lf. now rewrite H. Qed.

Lemma splitlines_from_lf cur s :
  splitlines_from cur (String LF s) = cur :: splitlines s.
Proof.
  rewrite splitlines_from_break by reflexivity.
  now rewrite skip_lf_other by reflexivity.
Qed.

Lemma records_cons cur (l : list string) :
  omap record_of (cur :: l)
  = match record_of cur with
    | Some r => r :: omap record_of l
    | None => omap record_of l
    end.
Proof. reflexivity. Qed.

Lemma records_last cur :
  omap record_of (splitlines_from cur "") = omap record_of [cur].
Proof.
  destruct cur; [|reflexivity]. simpl splitlines_from.
  rewrite records_cons, record_of_empty. reflexivity.
Qed.

(** The records of the lines of two texts joined by a line feed are the
    records of the first followed by those of the second. *)
Lemma records_join b : forall n a cur,
  (String.length a <= n)%nat ->
  omap record_of (splitlines_from cur (a ++ String LF b))
  = (omap record_of (splitlines_from cur a) ++ omap record_of (splitlines b))%list.
Proof.
  assert (forall cur, omap record_of (splitlines_from cur (String LF b))
            = (omap record_of (splitlines_from cur "")
               ++ omap record_of (splitlines b))%list) as Hbase.
  { intros cur. rewrite splitlines_from_lf, records_last, !records_cons.
    now destruct (record_of cur). }
  induction n as [|n IH]; intros a cur Hn.
  - destruct a; [apply Hbase | simpl in Hn; lia].
  - destruct a as [|c a]; [apply Hbase|].
    simpl in Hn. simpl append.
    destruct (is_linebreak c) eqn:Ec.
    + rewrite !splitlines_from_break by assumption. rewrite !records_cons.
      assert (omap record_of (splitlines_from "" (skip_lf c (a ++ String LF b)))
              = (omap record_of (splitlines_from "" (skip_lf c a))
                 ++ omap record_of (splitlines b))%list) as ->;
        [|now destruct (record_of cur)].
      destruct a as [|c' a'].
      * simpl append. change (skip_lf c "") with "".
        destruct (Nat.eqb (code c) 13) eqn:E13.
        -- now rewrite skip_lf_cr by assumption.
        -- rewrite skip_lf_other by assumption.
           rewrite splitlines_from_lf, records_cons, record_of_empty.
           reflexivity.
      * rewrite skip_lf_append by discriminate.
        apply IH. pose proof (skip_lf_length c (String c' a')). simpl in *. lia.
    + rewrite !splitlines_from_char by assumption.
      apply IH. lia.
Qed.

(** A text with each line feed replaced by a carriage return and a line
    feed. *)
Fixpoint to_crlf (s : string) : string :=
  match s with
  | EmptyString => EmptyString
  | String c s' =>
      if Nat.eqb (code c) 10 then String CR (String LF (to_crlf s'))
      else String c (to_crlf s')
  end.

Lemma to_crlf_lf s : to_crlf (String LF s) = String CR (String LF (to_crlf s)).
Proof. reflexivity. Qed.

Lemma to_crlf_other c s :
  Nat.eqb (code c) 10 = false -> to_crlf (String c s) = String c (to_crlf s).
Proof. intros H. simpl. now rewrite H. Qed.

Lemma records_crlf : forall n a cur,
  (String.length a <= n)%nat ->
  omap record_of (splitlines_from cur (to_crlf a))
  = omap record_of (splitlines_from cur a).
Proof.
  induction n as [|n IH]; intros a cur Hn.
  - destruct a; [reflexivity | simpl in Hn; lia].
  - destruct a as [|c a]; [reflexivity|]. simpl in Hn.
    destruct (Nat.eqb (code c) 10) eqn:E10.
    + apply Nat.eqb_eq in E10.
      assert (c = LF) as -> by (apply code_inj; exact E10).
      rewrite to_crlf_lf, splitlines_from_lf.
      rewrite (splitlines_from_break cur CR) by reflexivity.
      rewrite skip_lf_cr by reflexivity.
      rewrite !records_cons. unfold splitlines. rewrite (IH a "") by lia.
      reflexivity.
    + rewrite to_crlf_other by assumption.
      destruct (is_linebreak c) eqn:Ec.
      * rewrite !splitlines_from_break by assumption. rewrite !records_cons.
        assert (omap record_of (splitlines_from "" (skip_lf c (to_crlf a)))
                = omap record_of (splitlines_from "" (skip_lf c a))) as ->;
          [|reflexivity].
        destruct (Nat.eqb (code c) 13) eqn:E13.
        -- destruct a as [|c' a']; [reflexivity|].
           destruct (Nat.eqb (code c') 10) eqn:E10'.
           ++ apply Nat.eqb_eq in E10'.
              assert (c' = LF) as -> by (apply code_inj; exact E10').
              rewrite to_crlf_lf, (skip_lf_cr c a') by assumption.
              assert (skip_lf c (String CR (String LF (to_crlf a')))
                      = String CR (String LF (to_crlf a'))) as ->.
              { unfold skip_lf. now rewrite andb_false_r. }
              rewrite (splitlines_from_break "" CR) by reflexivity.
              rewrite skip_lf_cr by reflexivity.
              rewrite records_cons, record_of_empty.
              apply IH. simpl in Hn. lia.
           ++ rewrite to_crlf_other by assumption.
              assert (forall t, skip_lf c (String c' t) = String c' t) as Hs.
              { intros t. unfold skip_lf. now rewrite E10', andb_false_r. }
              rewrite !Hs. rewrite <- to_crlf_other by assumption.
              apply IH. lia.
        -- rewrite !skip_lf_other by assumption. apply IH. lia.
      * rewrite !splitlines_from_char by assumption. apply IH. lia.
Qed.

End LinesFacts.

(** ** The aggregate as counts over the records *)

Module SummaryFacts.
Import PyStr PyStrFacts Parser Binary64 Py Metrics.
Import FoldFacts AnalyzerFacts RecordFacts AggregateFacts.
Local Open Scope Z_scope.

(** The records whose trimmed cache status is [tag]. *)
Definition tagged (tag : string) (r : record) : bool :=
  String.eqb (strip (r_cache_status r)) tag.

(** The records whose status code was converted and lies in [lo, hi). *)
Definition status_in (lo hi : Z) (r : record) : bool :=
  match r_status r with
  | Ret status => Z.leb lo status && Z.ltb status hi
  | Raise _ => false
  end.

Definition tally (p : record -> bool) (rs : list record) : Z :=
  len (List.filter p rs).

(** The bytes a record adds: those of a complete record. *)
Definition bytes_of (r : record) : Z :=
  match r_status r, r_bytes r with
  | Ret _, Ret bytes => bytes
  | _, _ => 0
  end.

(** The latency a record adds: that of a complete record whose latency
    field is a number. *)
Definition observed (r : record) : option float :=
  if complete r then ret_of (r_latency r) else None.

(** The aggregate, said without a loop: how many records there are, how
    many of each cache status and of each class of status codes, the sum
    of their bytes, and their latencies in order. *)
Definition summary (rs : list record) : CacheMetrics :=
  mkCacheMetrics
    (len rs)
    (tally (tagged "HIT") rs)
    (tally (tagged "MISS") rs)
    (tally (tagged "BYPASS") rs)
    (tally (tagged "STALE") rs)
    (tally (tagged "UPDATING") rs)
    (tally (tagged "REVALIDATED") rs)
    (tally (status_in 500 600) rs)
    (tally (status_in 400 500) rs)
    (foldr Z.add 0 (bytes_of <$> rs))
    (omap observed rs).

Lemma tally_cons p r rs :
  tally p (r :: rs) = (if p r then 1 else 0) + tally p rs.
Proof.
  unfold tally, len. simpl. destruct (p r); simpl length; lia.
Qed.

Lemma summary_cons r rs :
  summary (r :: rs) = plus (count r CacheMetrics_new) (summary rs).
Proof.
  unfold summary. rewrite !tally_cons.
  assert (len (r :: rs) = 1 + len rs) as -> by (unfold len; simpl length; lia).
  destruct r as [cs status bytes lat].
  unfold count, counted, tagged, status_in, plus, observed, bytes_of, complete.
  simpl.
  cbn [omap list_omap fmap list_fmap foldr r_latency r_bytes r_status].
  set (t := strip cs).
  assert (forall status, error_counter status
          = if Z.leb 500 status && Z.ltb status 600 then Some Error_5xx
            else if Z.leb 400 status && Z.ltb status 500 then Some Error_4xx
            else None) as He by reflexivity.
  assert (forall status, Z.leb 500 status && Z.ltb status 600 = true ->
          Z.leb 400 status && Z.ltb status 500 = false) as Hex.
  { intros s [H1 H2]%andb_prop. apply Z.leb_le in H1.
    apply andb_false_iff. right. apply Z.ltb_ge. lia. }
  destruct status as [status|?];
    [rewrite He; specialize (Hex status);
     destruct (Z.leb 500 status && Z.ltb status 600) eqn:E5;
       [rewrite (Hex eq_refl) | destruct (Z.leb 400 status && Z.ltb status 500)]
    |];
    clear He Hex;
    unfold cache_counter;
    repeat match goal with
      | |- context [String.eqb t ?s] =>
          destruct (String.eqb_spec t s) as [->|?]
      end;
    destruct bytes, lat; simpl; f_equal; lia.
Qed.

Theorem fold_count_summary rs :
  fold_left (fun m r => count r m) rs CacheMetrics_new = summary rs.
Proof.
  induction rs as [|r rs IH]; [reflexivity|].
  cbn [fold_left]. rewrite <- (plus_new_r (count r CacheMetrics_new)).
  now rewrite fold_count_plus, IH, summary_cons.
Qed.

Lemma run_summary lines : run lines = summary (omap record_of lines).
Proof. rewrite run_records. apply fold_count_summary. Qed.

Lemma aggregate_summary content :
  aggregate content = summary (omap record_of (splitlines content)).
Proof. unfold aggregate. rewrite fold_lines_records. apply fold_count_summary. Qed.

(** What [process_log_content] leaves: the summary of the records it got
    to. *)
Lemma progress_summary content :
  progress content = summary (got_to (omap record_of (splitlines content))).
Proof.
  unfold progress. rewrite fold_lines_records, records_reached.
  apply fold_count_summary.
Qed.

Lemma completes_records content :
  completes content = forallb complete (omap record_of (splitlines content)).
Proof. apply records_convertible. Qed.

End SummaryFacts.

(** ** The order of the lines *)

Module OrderFacts.
Import Binary64 Py Metrics FloatOrder RoundingValue PercentileFacts.
Import AnalyzerFacts RecordFacts AggregateFacts SummaryFacts.
Local Open Scope Z_scope.

(** Two latencies each at most the other are the same float. *)
Lemma leb_antisym x y :
  nonneg64 x = true -> nonneg64 y = true ->
  leb x y = true -> leb y x = true -> x = y.
Proof.
  destruct x as [[]|[]| |[] mx ex], y as [[]|[]| |[] my ey];
    try discriminate; try reflexivity.
  intros _ _ H1 H2. apply leb_finite in H1, H2.
  assert (ex = ey /\ Zpos mx = Zpos my) as [-> E] by lia.
  now injection E as ->.
Qed.

(** An ascending list is determined by its elements. *)
Lemma sorted_unique l1 : forall l2,
  StronglySorted fle l1 -> StronglySorted fle l2 -> Permutation l1 l2 ->
  Forall (fun x => nonneg64 x = true) l1 -> l1 = l2.
Proof.
  induction l1 as [|x l1 IH]; intros l2 S1 S2 P V.
  - now apply Permutation_nil in P.
  - destruct l2 as [|y l2]; [now apply Permutation_sym, Permutation_nil in P|].
    apply StronglySorted_inv in S1 as [S1 Hx], S2 as [S2 Hy].
    rewrite Forall_forall in Hx, Hy.
    assert (Forall (fun x => nonneg64 x = true) (y :: l2)) as V2
      by now rewrite <- P.
    pose proof (Forall_inv V) as Vx. pose proof (Forall_inv V2) as Vy.
    assert (x = y) as ->.
    { assert (In x (y :: l2)) as [->|Hin] by (rewrite <- P; now left);
        [reflexivity|].
      assert (In y (x :: l1)) as [->|Hin'] by (rewrite P; now left);
        [reflexivity|].
      apply leb_antisym; auto.
      - apply Hx. now apply list_elem_of_In.
      - apply Hy. now apply list_elem_of_In. }
    f_equal. apply IH; auto.
    + now apply Permutation_cons_inv in P.
    + now apply Forall_inv_tail in V.
Qed.

(** [sorted] gives the same list whatever the order of the latencies. *)
Theorem sorted_perm_eq l1 l2 :
  Permutation l1 l2 -> Forall (fun x => nonneg64 x = true) l1 ->
  sorted l1 = sorted l2.
Proof.
  intros P V.
  assert (Forall (fun x => nonneg64 x = true) l2) as V2 by now rewrite <- P.
  assert (forall l, Forall (fun x => nonneg64 x = true) l -> no_nan l) as Hnn.
  { intros l Hl. eapply Forall_impl; [exact Hl | apply nonneg64_no_nan]. }
  apply sorted_unique.
  - apply sorted_ascending; auto.
  - apply sorted_ascending; auto.
  - now rewrite !sorted_perm.
  - now rewrite sorted_perm.
Qed.

Lemma tally_perm p rs1 rs2 : Permutation rs1 rs2 -> tally p rs1 = tally p rs2.
Proof.
  induction 1 as [|r l1 l2 _ IH|r1 r2 l|l1 l2 l3 _ IH1 _ IH2];
    rewrite ?tally_cons; [reflexivity | lia | lia | congruence].
Qed.

Lemma bytes_perm (rs1 rs2 : list record) :
  Permutation rs1 rs2 ->
  foldr Z.add 0 (bytes_of <$> rs1) = foldr Z.add 0 (bytes_of <$> rs2).
Proof.
  induction 1 as [|r l1 l2 _ IH|r1 r2 l|l1 l2 l3 _ IH1 _ IH2];
    cbn [fmap list_fmap foldr] in *; [reflexivity | lia | lia | congruence].
Qed.

Lemma summary_perm rs1 rs2 :
  Permutation rs1 rs2 ->
  (forall f, counter_of f (summary rs1) = counter_of f (summary rs2))
  /\ Permutation (latencies (summary rs1)) (latencies (summary rs2)).
Proof.
  intros P. split.
  - intros f. destruct f; simpl; auto using tally_perm, bytes_perm.
    unfold len. now rewrite P.
  - simpl. now rewrite P.
Qed.

(** The percentiles read the latencies through [sorted] and [len]. *)
Lemma percentiles_sorted m1 m2 :
  sorted (latencies m1) = sorted (latencies m2) ->
  p50_latency m1 = p50_latency m2 /\ p95_latency m1 = p95_latency m2
  /\ p99_latency m1 = p99_latency m2.
Proof.
  intros E.
  assert (length (latencies m1) = length (latencies m2)) as El
    by (rewrite <- (sorted_length (latencies m1)), E; apply sorted_length).
  unfold p50_latency, p95_latency, p99_latency, rank_latency, median.
  destruct (latencies m1) as [|a l1] eqn:E1, (latencies m2) as [|b l2] eqn:E2;
    try discriminate; [auto|].
  rewrite E. auto.
Qed.

End OrderFacts.

(** ** Quotients of integers *)

Module QuotientFacts.
Import Binary64 Py Rounding FloatOrder RoundingValue.
Local Open Scope Z_scope.

(** The quotient of two positive integers: the integer quotient [q] of
    the scaled numerator, and its rounding. *)
Lemma of_quotient_desc (pa pb : positive) :
  let d1 := Zdigits2 (Zpos pa) in
  let d2 := Zdigits2 (Zpos pb) in
  let e' := Z.min (fexp64 (d1 - d2)) 0 in
  exists q r q1 Q E,
    Zpos pa * 2 ^ (- e') = Zpos pb * q + r /\ 0 <= r < Zpos pb /\ 0 <= q
    /\ of_quotient (Zpos pa) (Zpos pb) = pack Q E
    /\ let c := fexp64 (Zdigits2 q + e') in
       e' <= c
       /\ (q1 = q / 2 ^ (c - e') \/ q1 = q / 2 ^ (c - e') + 1)
       /\ c <= E <= c + 1 /\ Q * 2 ^ (E - c) = q1 /\ 0 <= Q
       /\ (Q = 0 \/ canonical Q E).
Proof.
  intros d1 d2 e'.
  unfold of_quotient, div, exact, SFdiv. simpl xorb.
  change prec with 53. change emax with 1024.
  unfold SFdiv_core_binary. change (fexp 53 1024) with fexp64.
  fold d1 d2.
  pose proof (Zdigits2_lower (Zpos pa) ltac:(lia)) as Hl1.
  pose proof (Zdigits2_upper (Zpos pa) ltac:(lia)) as Hu1.
  pose proof (Zdigits2_lower (Zpos pb) ltac:(lia)) as Hl2.
  pose proof (Zdigits2_upper (Zpos pb) ltac:(lia)) as Hu2.
  fold d1 in Hl1, Hu1. fold d2 in Hl2, Hu2.
  assert (1 <= d1) as Hd1.
  { pose proof (Zdigits2_ge_of_le (Zpos pa) 0 ltac:(lia) ltac:(simpl; lia)).
    fold d1 in H. lia. }
  assert (1 <= d2) as Hd2.
  { pose proof (Zdigits2_ge_of_le (Zpos pb) 0 ltac:(lia) ltac:(simpl; lia)).
    fold d2 in H. lia. }
  rewrite !Z.add_0_r. change (0 - 0) with 0. fold e'.
  assert (-1074 <= e' <= 0) as He' by (unfold e', fexp64; lia).
  set (m' := match 0 - e' with
             | 0 => Zpos pa
             | Zpos _ => Z.shiftl (Zpos pa) (0 - e')
             | Zneg _ => 0
             end).
  assert (m' = Zpos pa * 2 ^ (- e')) as Hm'.
  { unfold m'. replace (0 - e') with (- e') by lia.
    destruct (- e') eqn:E;
      [simpl; lia | now rewrite Z.shiftl_mul_pow2 by lia | lia]. }
  clearbody m'.
  pose proof (Z_div_mod m' (Zpos pb) ltac:(lia)) as Hdm.
  destruct (Z.div_eucl m' (Zpos pb)) as [q r]. destruct Hdm as [Heq Hr].
  assert (0 < 2 ^ (- e')) as Hp by (apply Z.pow_pos_nonneg; lia).
  assert (0 <= q) as Hq by nia.
  assert (e' <= fexp64 (Zdigits2 q + e')) as Hpre.
  { destruct (Z.eq_dec e' (-1074)) as [->|Hne]; [unfold fexp64; lia|].
    assert (53 <= Zdigits2 q); [|unfold fexp64; lia].
    destruct (Z.eq_dec e' 0) as [E0|E0].
    - rewrite E0 in *. simpl in Hm'. rewrite Z.mul_1_r in Hm'.
      assert (53 <= d1 - d2) by (unfold e', fexp64 in *; lia).
      assert (2 ^ (d1 - d2 - 1) <= q) as Hlow.
      { assert (2 ^ (d1 - 1) = 2 ^ (d1 - d2 - 1) * 2 ^ d2) as Hsplit
          by (rewrite <- Z.pow_add_r by lia; f_equal; lia).
        assert (0 < 2 ^ (d1 - d2 - 1)) by (apply Z.pow_pos_nonneg; lia).
        nia. }
      pose proof (Zdigits2_ge_of_le q (d1 - d2 - 1) ltac:(lia) Hlow). lia.
    - assert (e' = d1 - d2 - 53) as Ee by (unfold e', fexp64 in *; lia).
      assert (2 ^ 52 <= q) as Hlow.
      { assert (2 ^ (d1 - 1) * 2 ^ (- e') = 2 ^ 52 * 2 ^ d2) as Hsplit
          by (rewrite <- !Z.pow_add_r by lia; f_equal; lia).
        assert (0 < 2 ^ 52) by reflexivity.
        nia. }
      pose proof (Zdigits2_ge_of_le q 52 ltac:(lia) Hlow). lia. }
  destruct (round_desc q e' (new_location (Zpos pb) r) Hq Hpre)
    as (q1 & Q & E & Heq' & Hq1 & _ & HE & HQ & HQ0 & Hcan).
  exists q, r, q1, Q, E. cbv beta iota zeta. rewrite Heq'.
  repeat split; try assumption; try lia.
Qed.

(** A quotient is finite when the numerator has at most 1022 binary
    digits more than the denominator. *)
Lemma of_quotient_finite a b :
  0 <= a -> 0 < b -> Zdigits2 a <= Zdigits2 b + 1022 ->
  is_finite (of_quotient a b) = true.
Proof.
  intros Ha Hb Hd. destruct b as [|pb|pb]; try lia.
  destruct a as [|pa|pa]; try lia; [reflexivity|].
  destruct (of_quotient_desc pa pb)
    as (q & r & q1 & Q & E & Heq & Hr & Hq & -> & Hpre & Hq1 & HE & HQ & HQ0 & Hcan).
  set (d1 := Zdigits2 (Zpos pa)) in *. set (d2 := Zdigits2 (Zpos pb)) in *.
  set (e' := Z.min (fexp64 (d1 - d2)) 0) in *.
  pose proof (Zdigits2_upper (Zpos pa) ltac:(lia)) as Hu1.
  pose proof (Zdigits2_lower (Zpos pb) ltac:(lia)) as Hl2.
  fold d1 in Hu1. fold d2 in Hl2.
  assert (1 <= d2) as Hd2.
  { pose proof (Zdigits2_ge_of_le (Zpos pb) 0 ltac:(lia) ltac:(simpl; lia)).
    fold d2 in H. lia. }
  pose proof (Zdigits2_nonneg (Zpos pa)) as Hd1. fold d1 in Hd1.
  assert (-1074 <= e' <= 0) as He' by (unfold e', fexp64; lia).
  assert (Zdigits2 q + e' <= d1 - d2 + 1 \/ q = 0) as Hdq.
  { destruct (Z.eq_dec q 0) as [|Hq0]; [now right | left].
    set (j := d1 - e' - d2 + 1).
    assert (0 < 2 ^ (- e')) by (apply Z.pow_pos_nonneg; lia).
    assert (0 < 2 ^ (d2 - 1)) by (apply Z.pow_pos_nonneg; lia).
    assert (0 < j) as Hj.
    { destruct (Z_lt_le_dec 0 j) as [|Hj0]; [assumption | exfalso].
      assert (2 ^ d1 * 2 ^ (- e') <= 2 ^ (d2 - 1)).
      { rewrite <- Z.pow_add_r by lia. apply Z.pow_le_mono_r; lia. }
      nia. }
    assert (q < 2 ^ j) as Hlt.
    { assert (2 ^ d1 * 2 ^ (- e') = 2 ^ j * 2 ^ (d2 - 1)) as Hs
        by (rewrite <- !Z.pow_add_r by lia; f_equal; lia).
      assert (0 < 2 ^ j) by (apply Z.pow_pos_nonneg; lia).
      nia. }
    pose proof (Zdigits2_le_of_lt q j ltac:(lia) ltac:(lia)). lia. }
  assert (E <= 971) as HE971.
  { destruct Hdq as [Hdq| ->]; [unfold fexp64 in *; lia|].
    change (Zdigits2 0) with 0 in *. unfold fexp64 in *. lia. }
  destruct Q as [|p|p]; try lia; [reflexivity|].
  simpl. apply Z.leb_le in HE971. now rewrite HE971.
Qed.

(** A quotient of at least 2^1024 is too large for a float. *)
Lemma of_quotient_overflow a b :
  0 < b -> 2 ^ 1024 * b <= a -> of_quotient a b = infinity.
Proof.
  intros Hb Hab. destruct b as [|pb|pb]; try lia.
  assert (0 < 2 ^ 1024) as H1024 by reflexivity.
  destruct a as [|pa|pa]; try lia.
  destruct (of_quotient_desc pa pb)
    as (q & r & q1 & Q & E & Heq & Hr & Hq & -> & Hpre & Hq1 & HE & HQ & HQ0 & Hcan).
  set (d1 := Zdigits2 (Zpos pa)) in *. set (d2 := Zdigits2 (Zpos pb)) in *.
  set (e' := Z.min (fexp64 (d1 - d2)) 0) in *.
  pose proof (Zdigits2_upper (Zpos pb) ltac:(lia)) as Hu2. fold d2 in Hu2.
  pose proof (Zdigits2_nonneg (Zpos pb)) as Hd2. fold d2 in Hd2.
  assert (d2 + 1024 <= d1) as Hd.
  { destruct (Z_lt_le_dec d1 (d2 + 1024)) as [Hlt|]; [exfalso | assumption].
    pose proof (Zdigits2_upper (Zpos pa) ltac:(lia)) as Hu1. fold d1 in Hu1.
    pose proof (Zdigits2_lower (Zpos pb) ltac:(lia)) as Hl2. fold d2 in Hl2.
    assert (1 <= d2) as Hd2'.
    { pose proof (Zdigits2_ge_of_le (Zpos pb) 0 ltac:(lia) ltac:(simpl; lia)).
      fold d2 in H. lia. }
    pose proof (Zdigits2_nonneg (Zpos pa)) as Hd1. fold d1 in Hd1.
    assert (2 ^ d1 <= 2 ^ (d2 - 1 + 1024)) by (apply Z.pow_le_mono_r; lia).
    rewrite Z.pow_add_r in H by lia. nia. }
  assert (e' = 0) as He' by (unfold e', fexp64; lia).
  rewrite He' in *. simpl in Heq. rewrite Z.mul_1_r in Heq.
  assert (2 ^ 1024 <= q) as Hq1024 by nia.
  pose proof (Zdigits2_ge_of_le q 1024 ltac:(lia) Hq1024) as Hdq.
  pose proof (Zdigits2_lower q ltac:(lia)) as Hlq.
  set (dq := Zdigits2 q) in *.
  assert (fexp64 (dq + 0) = dq - 53) as Hc by (unfold fexp64; lia).
  rewrite Hc in *. rewrite Z.sub_0_r in Hq1.
  assert (2 ^ 52 <= q / 2 ^ (dq - 53)) as Hlow.
  { apply Z.div_le_lower_bound; [apply Z.pow_pos_nonneg; lia|].
    rewrite Z.mul_comm, <- Z.pow_add_r by lia.
    replace (52 + (dq - 53)) with (dq - 1) by lia. exact Hlq. }
  assert (0 < 2 ^ 52) by reflexivity.
  assert (0 < Q) as HQpos.
  { destruct (Z.eq_dec Q 0) as [->|]; [|lia]. simpl in HQ. lia. }
  destruct Q as [|p|p]; try lia. unfold pack.
  replace (Z.leb E 971) with false by (symmetry; apply Z.leb_gt; lia).
  reflexivity.
Qed.

(** The quotient of two different counts below 2^53, the first the
    smaller and not zero, is neither [0.0] nor [1.0]. *)
Lemma of_quotient_strict a b :
  0 < a < b -> b < 2 ^ 53 ->
  of_quotient a b <> zero /\ of_quotient a b <> one.
Proof.
  intros [Ha Hab] Hb53.
  destruct a as [|pa|pa]; try lia. destruct b as [|pb|pb]; try lia.
  destruct (of_quotient_desc pa pb)
    as (q & r & q1 & Q & E & Heq & Hr & Hq & -> & Hpre & Hq1 & HE & HQ & HQ0 & Hcan).
  set (d1 := Zdigits2 (Zpos pa)) in *. set (d2 := Zdigits2 (Zpos pb)) in *.
  set (e' := Z.min (fexp64 (d1 - d2)) 0) in *.
  pose proof (Zdigits2_lower (Zpos pa) ltac:(lia)) as Hl1.
  pose proof (Zdigits2_upper (Zpos pb) ltac:(lia)) as Hu2.
  fold d1 in Hl1. fold d2 in Hu2.
  assert (1 <= d1) as Hd1.
  { pose proof (Zdigits2_ge_of_le (Zpos pa) 0 ltac:(lia) ltac:(simpl; lia)).
    fold d1 in H. lia. }
  assert (d1 <= d2) as Hd12 by (apply Zdigits2_mono; lia).
  assert (d2 <= 53) as Hd2 by (apply Zdigits2_le_of_lt; lia).
  assert (e' = d1 - d2 - 53) as He' by (unfold e', fexp64; lia).
  set (s := 53 + d2 - d1).
  replace (- e') with s in Heq by (unfold s; lia).
  assert (0 < 2 ^ s) as Hps by (apply Z.pow_pos_nonneg; unfold s; lia).
  assert (2 ^ 52 <= q) as Hq52.
  { assert (2 ^ (d1 - 1) * 2 ^ s = 2 ^ 52 * 2 ^ d2) as Hsplit
      by (rewrite <- !Z.pow_add_r by (unfold s; lia); f_equal; unfold s; lia).
    assert (0 < 2 ^ 52) by reflexivity. nia. }
  assert (2 ^ s = 2 ^ (s - 53) * 2 ^ 53) as Hs53
    by (rewrite <- Z.pow_add_r by (unfold s; lia); f_equal; lia).
  assert (0 < 2 ^ (s - 53)) as Hps53 by (apply Z.pow_pos_nonneg; unfold s; lia).
  assert (q < 2 ^ s - 2 ^ (s - 53)) as Hqs.
  { assert (Zpos pb * q <= (Zpos pb - 1) * 2 ^ s) by nia.
    assert (Zpos pb * 2 ^ (s - 53) < 2 ^ s) by nia.
    nia. }
  pose proof (Zdigits2_ge_of_le q 52 ltac:(lia) Hq52) as Hdq53.
  assert (Zdigits2 q <= s) as Hdqs
    by (apply Zdigits2_le_of_lt; [unfold s; lia | lia]).
  pose proof (Zdigits2_lower q ltac:(lia)) as Hlq.
  set (dq := Zdigits2 q) in *.
  assert (fexp64 (dq + e') = dq + e' - 53) as Hc
    by (unfold fexp64; unfold s in *; lia).
  rewrite Hc in *.
  set (k := dq - 53).
  replace (dq + e' - 53 - e') with k in Hq1 by (unfold k; lia).
  assert (0 < 2 ^ k) as Hpk by (apply Z.pow_pos_nonneg; unfold k; lia).
  assert (2 ^ 52 <= q / 2 ^ k) as Hlow.
  { apply Z.div_le_lower_bound; [assumption|].
    rewrite Z.mul_comm, <- Z.pow_add_r by (unfold k; lia).
    replace (52 + k) with (dq - 1) by (unfold k; lia). exact Hlq. }
  set (A := 2 ^ (s - 53 - k)).
  assert (0 < A) as HA by (apply Z.pow_pos_nonneg; unfold k; lia).
  assert (2 ^ (s - 53) = A * 2 ^ k) as HsA
    by (unfold A; rewrite <- Z.pow_add_r by (unfold k; lia); f_equal; lia).
  assert (q / 2 ^ k < A * 2 ^ 53 - A) as Hup.
  { apply Z.div_lt_upper_bound; [assumption|]. nia. }
  assert (0 < 2 ^ 52) by reflexivity.
  split.
  - intros Hz. destruct Q as [|p|p]; try lia.
    unfold pack in Hz. destruct (Z.leb E 971); discriminate.
  - intros H1. destruct Q as [|p|p]; try lia.
    unfold pack in H1. destruct (Z.leb E 971); [|discriminate].
    injection H1 as Hp HE1. rewrite Hp, HE1 in HQ.
    assert (-52 - (dq + e' - 53) = s - 53 - k + 1) as Hx
      by (unfold k, s; lia).
    rewrite Hx in HQ.
    rewrite Z.pow_add_r in HQ by (unfold k; lia). fold A in HQ.
    change (Zpos 4503599627370496) with (2 ^ 52) in HQ.
    change (2 ^ 1) with 2 in HQ.
    assert (2 ^ 53 = 2 * 2 ^ 52) by reflexivity. nia.
Qed.

End QuotientFacts.

(** ** The numerals [float] reads *)

Module NumeralFacts.
Import PyStr PyStrFacts Parser Binary64 Py FoldFacts.
Local Open Scope Z_scope.

(** The number of points and the number of digits of a string. *)
Fixpoint points (s : string) : nat :=
  match s with
  | EmptyString => O
  | String c s' => if is_char "." c then S (points s') else points s'
  end.

Fixpoint digits (s : string) : nat :=
  match s with
  | EmptyString => O
  | String c s' => if is_digit c then S (digits s') else digits s'
  end.

(** The number the digits of a string spell, the points left out. *)
Fixpoint spelled (acc : Z) (s : string) : Z :=
  match s with
  | EmptyString => acc
  | String c s' =>
      if is_digit c then spelled (10 * acc + digit_value c) s' else spelled acc s'
  end.

(** The number of digits after the first point. *)
Fixpoint decimals (s : string) : nat :=
  match s with
  | EmptyString => O
  | String c s' => if is_char "." c then digits s' else decimals s'
  end.

Lemma digit_not_point c : is_digit c = true -> is_char "." c = false.
Proof.
  unfold is_digit, is_char, in_range, code.
  destruct c as [[] [] [] [] [] [] [] []]; vm_compute; congruence.
Qed.

Lemma scan_after_point s : forall acc scale any,
  all_in digit_or_dot s = true ->
  scan_decimal s true acc scale any
  = if Nat.eqb (points s) 0 && (any || Nat.ltb 0 (digits s))
    then Some (spelled acc s, (scale + digits s)%nat)
    else None.
Proof.
  induction s as [|c s IH]; intros acc scale any Hs;
    cbn [scan_decimal points digits spelled decimals].
  - simpl. rewrite orb_false_r, Nat.add_0_r. reflexivity.
  - cbn [all_in] in Hs. apply andb_prop in Hs as [Hc Hs].
    destruct (is_digit c) eqn:Ed.
    + rewrite (digit_not_point c Ed), (IH _ _ _ Hs).
      rewrite !orb_true_r, Nat.add_succ_r. reflexivity.
    + unfold digit_or_dot in Hc. rewrite Ed, orb_false_l in Hc. rewrite Hc.
      reflexivity.
Qed.

Lemma scan_before_point s : forall acc any,
  all_in digit_or_dot s = true ->
  scan_decimal s false acc 0 any
  = if Nat.leb (points s) 1 && (any || Nat.ltb 0 (digits s))
    then Some (spelled acc s, decimals s)
    else None.
Proof.
  induction s as [|c s IH]; intros acc any Hs;
    cbn [scan_decimal points digits spelled decimals].
  - simpl. rewrite orb_false_r. reflexivity.
  - cbn [all_in] in Hs. apply andb_prop in Hs as [Hc Hs].
    destruct (is_digit c) eqn:Ed.
    + rewrite (digit_not_point c Ed), (IH _ _ Hs).
      rewrite !orb_true_r. reflexivity.
    + unfold digit_or_dot in Hc. rewrite Ed, orb_false_l in Hc. rewrite Hc.
      rewrite (scan_after_point s acc 0 any Hs). simpl.
      destruct (points s); reflexivity.
Qed.

(** [float] reads a run of digits and points exactly when it has at
    most one point and at least one digit, and then returns the binary64
    value nearest to the number its digits spell, scaled by the digits
    after the point. *)
Theorem py_float_numeral s :
  all_in digit_or_dot s = true ->
  py_float s
  = if Nat.leb (points s) 1 && Nat.leb 1 (digits s)
    then Ret (of_decimal (spelled 0 s) (decimals s))
    else Raise ValueError.
Proof.
  intros Hs. unfold py_float. rewrite (scan_before_point s 0 false Hs).
  simpl orb. change (Nat.ltb 0 (digits s)) with (Nat.leb 1 (digits s)).
  now destruct (Nat.leb (points s) 1 && Nat.leb 1 (digits s)).
Qed.

End NumeralFacts.

(** ** The reports of [metrics.py]: [to_dict] and [get_metrics_summary] *)

From Stdlib Require Import DecimalString.

Module Report.
Import PyStr Parser Binary64 Py Metrics.
Local Open Scope Z_scope.

(** *** [CacheMetrics.to_dict] *)

(** The values of the dictionary: integers, floats, and the list
    [asdict] copies. *)
Inductive value :=
  | VInt (n : Z)
  | VFloat (x : float)
  | VList (l : list float).

(** A [dict], its keys in the order they were put in. *)
Definition pydict := list (string * value).

(** [d[key] = v]: a key that is there keeps its place. *)
Fixpoint setitem (key : string) (v : value) (d : pydict) : pydict :=
  match d with
  | [] => [(key, v)]
  | (k, v') :: d' =>
      if String.eqb k key then (k, v) :: d' else (k, v') :: setitem key v d'
  end.

(** [asdict(self)]: the fields in the order of their declaration. *)
Definition asdict (self : CacheMetrics) : pydict :=
  [ ("total_requests", VInt (total_requests self));
    ("cache_hits", VInt (cache_hits self));
    ("cache_misses", VInt (cache_misses self));
    ("cache_bypass", VInt (cache_bypass self));
    ("cache_stale", VInt (cache_stale self));
    ("cache_updating", VInt (cache_updating self));
    ("cache_revalidated", VInt (cache_revalidated self));
    ("error_5xx", VInt (error_5xx self));
    ("error_4xx", VInt (error_4xx self));
    ("total_bytes", VInt (total_bytes self));
    ("latencies", VList (latencies self)) ]%string.

Definition to_dict (self : CacheMetrics) : outcome pydict :=
  let data := asdict self in
  let data := setitem "latencies" (VInt (len (latencies self))) data in
  x ← hit_ratio self;
  let data := setitem "hit_ratio" (VFloat x) data in
  x ← error_rate self;
  let data := setitem "error_rate" (VFloat x) data in
  x ← p50_latency self;
  let data := setitem "p50_latency" (VFloat x) data in
  x ← p95_latency self;
  let data := setitem "p95_latency" (VFloat x) data in
  x ← p99_latency self;
  let data := setitem "p99_latency" (VFloat x) data in
  mret data.

(** *** [MetricsAnalyzer.get_metrics_summary] *)

(** [str(n)], the decimal numeral of [n]. It serves for the counters of
    an aggregate, which count lines and stay far below the 4300 digits
    past which [str] raises, and to spell the digits of a formatted float,
    which have no such limit. *)
Definition str (n : Z) : string := NilZero.string_of_int (Z.to_int n).

(** The integer nearest to [n / d], the even one of two that are as
    near, for [d] positive. *)
Definition round_half_even (n d : Z) : Z :=
  let q := n / d in
  let r := n mod d in
  if Z.ltb (2 * r) d then q
  else if Z.ltb d (2 * r) then q + 1
  else if Z.even q then q else q + 1.

(** The hundredths of [m * 2^e], rounded. *)
Definition hundredths (m : positive) (e : Z) : Z :=
  if Z.leb 0 e then 100 * Zpos m * 2 ^ e
  else round_half_even (100 * Zpos m) (2 ^ (- e)).

Definition two_digits (n : Z) : string :=
  if Z.ltb n 10 then String.append "0" (str n) else str n.

Definition sign (s : bool) : string := if s then "-"%string else ""%string.

(** [format(x, '.2f')]: the decimal numeral with two digits after the
    point nearest to [x]. *)
Definition format_2f (x : float) : string :=
  match x with
  | S754_nan => "nan"
  | S754_infinity s => String.append (sign s) "inf"
  | S754_zero s => String.append (sign s) "0.00"
  | S754_finite s m e =>
      let n := hundredths m e in
      String.append (sign s)
        (String.append (str (n / 100))
           (String.append "." (two_digits (n mod 100))))
  end.

(** [x * n] for a float [x] and an integer [n]. *)
Definition float_mul_int (x : float) (n : Z) : outcome float :=
  y ← float_of_int n; mret (mul x y).

(** The lines of a text, joined by line feeds. *)
Definition unlines (lines : list string) : string :=
  String.concat newline lines.

(** The f-string of [get_metrics_summary], on the object [m]. *)
Definition summary_text (m : CacheMetrics) : outcome string :=
  hit ← hit_ratio m;
  hit ← float_mul_int hit 100;
  err ← error_rate m;
  err ← float_mul_int err 100;
  p50 ← p50_latency m;
  p50 ← float_mul_int p50 1000;
  p95 ← p95_latency m;
  p95 ← float_mul_int p95 1000;
  p99 ← p99_latency m;
  p99 ← float_mul_int p99 1000;
  mb ← truediv (total_bytes m) (1024 * 1024);
  mret (unlines
    [ "";
      "Cache Metrics Summary";
      "=====================";
      String.append "Total Requests: " (str (total_requests m));
      String.append "Cache Hits:     "
        (String.append (str (cache_hits m))
           (String.append " (" (String.append (format_2f hit) "%)")));
      String.append "Cache Misses:   " (str (cache_misses m));
      String.append "Cache Bypass:   " (str (cache_bypass m));
      String.append "Cache Stale:    " (str (cache_stale m));
      String.append "Cache Updating: " (str (cache_updating m));
      "";
      String.append "Error Rate: " (String.append (format_2f err) "%");
      String.append "  4xx errors: " (str (error_4xx m));
      String.append "  5xx errors: " (str (error_5xx m));
      "";
      "Latency:";
      String.append "  P50: " (String.append (format_2f p50) "ms");
      String.append "  P95: " (String.append (format_2f p95) "ms");
      String.append "  P99: " (String.append (format_2f p99) "ms");
      "";
      String.append "Total Bytes: " (String.append (format_2f mb) " MB");
      "" ]%string).

Definition get_metrics_summary (self : ref) : M world string :=
  r ← get_metrics self;
  ((fun w =>
      match objects w !! r with
      | Some m => (summary_text m, w)
      | None => (Raise BadReference, w)
      end) : M world string).

End Report.

(** ** What the reports return *)

Module ReportFacts.
Import PyStr Parser Binary64 Py Metrics Rounding FloatOrder RoundingValue.
Import PercentileFacts AnalyzerFacts AccessorFacts QuotientFacts Report.
Local Open Scope Z_scope.

(** The quotient of two counters, the first at most the second, or
    [0.0] for a denominator of zero. *)
Lemma ratio_returns (a b : Z) :
  0 <= a <= b ->
  exists x, (if Z.eqb b 0 then Ret zero else truediv a b) = Ret x
    /\ leb zero x = true /\ leb x one = true.
Proof.
  intros Hab. destruct (Z.eqb_spec b 0) as [E|E].
  - exists zero. repeat split; reflexivity.
  - destruct (of_quotient_unit a b) as (Hfin & Hq0 & Hq1); [lia | lia |].
    unfold truediv. rewrite (proj2 (Z.eqb_neq _ _) E), Hfin. eauto.
Qed.

(** After any sequence of lines, with fewer than 2^47 latencies, the
    five statistics return. *)
Lemma run_statistics lines :
  len (latencies (run lines)) < 2 ^ 47 ->
  let m := run lines in
  exists h e a b c,
    hit_ratio m = Ret h /\ error_rate m = Ret e /\ p50_latency m = Ret a
    /\ p95_latency m = Ret b /\ p99_latency m = Ret c
    /\ leb zero h = true /\ leb h one = true
    /\ leb zero e = true /\ leb e one = true.
Proof.
  intros Hlen m.
  destruct (reachable_invariant _ (run_reachable lines)) as [Hn He _ _ _ _ _].
  fold m in Hn, He, Hlen.
  repeat (apply Forall_cons in Hn as [? Hn]). simpl in *.
  destruct (ratio_returns (cache_hits m) (cache_hits m + cache_misses m)
              ltac:(lia)) as (h & Hh & Hh0 & Hh1).
  destruct (ratio_returns (error_5xx m + error_4xx m) (total_requests m)
              ltac:(lia)) as (e & Hee & He0 & He1).
  assert (exists a b c, p50_latency m = Ret a /\ p95_latency m = Ret b
                        /\ p99_latency m = Ret c) as (a & b & c & Ha & Hb & Hc).
  { unfold p50_latency, p95_latency, p99_latency.
    destruct (latencies m) as [|x l] eqn:El.
    { unfold rank_latency. rewrite El. now exists zero, zero, zero. }
    assert (latencies m <> []) as Hne by (rewrite El; discriminate).
    rewrite <- El in Hlen.
    destruct (rank_latency_eval c_0_95 95 m rank_index_0_95 ltac:(lia) Hne Hlen)
      as (b & -> & _).
    destruct (rank_latency_eval c_0_99 99 m rank_index_0_99 ltac:(lia) Hne Hlen)
      as (c & -> & _).
    pose proof (median_eval (latencies m) Hne) as Hmed. cbv zeta in Hmed.
    rewrite El in Hmed.
    destruct (Z.odd (len (x :: l)));
      [destruct Hmed as (? & -> & _) | destruct Hmed as (? & ? & -> & _)];
      do 3 eexists; repeat split; reflexivity. }
  exists h, e, a, b, c. unfold hit_ratio, error_rate. auto 10.
Qed.

Lemma float_mul_100 x : float_mul_int x 100 = Ret (mul x (of_Z 100)).
Proof. reflexivity. Qed.

Lemma float_mul_1000 x : float_mul_int x 1000 = Ret (mul x (of_Z 1000)).
Proof. reflexivity. Qed.

(** [total_bytes / (1024*1024)]: below 2^1043 bytes the quotient is a
    float, from 2^1044 bytes on it is too large for one. *)
Lemma megabytes_cases n :
  0 <= n ->
  (n < 2 ^ 1043 -> exists x, truediv n (1024 * 1024) = Ret x)
  /\ (2 ^ 1044 <= n -> truediv n (1024 * 1024) = Raise OverflowError).
Proof.
  intros Hn. unfold truediv. change (Z.eqb (1024 * 1024) 0) with false.
  cbv iota. split.
  - intros Hlt. rewrite of_quotient_finite; [eauto | lia | reflexivity |].
    change (Zdigits2 (1024 * 1024)) with 21.
    assert (Zdigits2 n <= 1043); [|lia].
    apply Zdigits2_le_of_lt; lia.
  - intros Hge. rewrite of_quotient_overflow; [reflexivity | reflexivity |].
    change (2 ^ 1024 * (1024 * 1024)) with (2 ^ 1044). exact Hge.
Qed.

(** The two reports read the counters, the number of latencies and the
    five statistics, and nothing else. *)
Lemma reports_equal m1 m2 :
  (forall f, counter_of f m1 = counter_of f m2) ->
  len (latencies m1) = len (latencies m2) ->
  hit_ratio m1 = hit_ratio m2 -> error_rate m1 = error_rate m2 ->
  p50_latency m1 = p50_latency m2 -> p95_latency m1 = p95_latency m2 ->
  p99_latency m1 = p99_latency m2 ->
  to_dict m1 = to_dict m2 /\ summary_text m1 = summary_text m2.
Proof.
  intros Hc Hl Hh He H50 H95 H99.
  pose proof (Hc Total_requests) as C1. pose proof (Hc Cache_hits) as C2.
  pose proof (Hc Cache_misses) as C3. pose proof (Hc Cache_bypass) as C4.
  pose proof (Hc Cache_stale) as C5. pose proof (Hc Cache_updating) as C6.
  pose proof (Hc Cache_revalidated) as C7. pose proof (Hc Error_5xx) as C8.
  pose proof (Hc Error_4xx) as C9. pose proof (Hc Total_bytes) as C10.
  simpl in C1, C2, C3, C4, C5, C6, C7, C8, C9, C10.
  unfold to_dict, asdict, summary_text.
  rewrite Hl, Hh, He, H50, H95, H99, C1, C2, C3, C4, C5, C6, C7, C8, C9, C10.
  split; reflexivity.
Qed.

End ReportFacts.

(** ** The mean of two latencies, from below *)

Module MeanFacts.
Import Binary64 Py Rounding FloatOrder RoundingValue.
Local Open Scope Z_scope.

Lemma rne_ge_grid m k G : 0 <= m -> 0 <= k -> G * 2 ^ k <= m -> G <= rne m k.
Proof.
  intros Hm Hk HG. assert (0 < 2 ^ k) as Hp by (apply Z.pow_pos_nonneg; lia).
  pose proof (rne_bounds m k Hm Hk).
  assert (G <= m / 2 ^ k) by (apply Z.div_le_lower_bound; lia). lia.
Qed.

(** The sum of two positive binary64 values, the first at most the
    second, is at least twice the first. *)
Lemma add_lower ml el mh eh :
  canonical (Zpos ml) el -> canonical (Zpos mh) eh ->
  el <= eh -> ival (Zpos ml) el <= ival (Zpos mh) eh ->
  exists Q E,
    add (S754_finite false ml el) (S754_finite false mh eh) = pack Q E
    /\ 0 <= Q /\ (Q = 0 \/ canonical Q E)
    /\ 2 * ival (Zpos ml) el <= ival Q E.
Proof.
  intros Cl Ch Hle Hval.
  destruct (canonical_bounds (Zpos ml) el ltac:(lia) Cl) as (Hel & Hul & _).
  unfold add, SFadd. replace (Z.min el eh) with el by lia.
  unfold shl_align at 1. rewrite Z.sub_diag. simpl fst.
  assert (exists mh', fst (shl_align mh eh el) = mh'
            /\ Zpos mh' = Zpos mh * 2 ^ (eh - el)) as (mh' & -> & Hmh').
  { unfold shl_align. destruct (el - eh) as [|d|d] eqn:Ed; try lia.
    - exists mh. split; [reflexivity|]. replace (eh - el) with 0 by lia. lia.
    - exists (Pos.iter xO mh d). split; [reflexivity|].
      rewrite iter_xO. f_equal. f_equal. lia. }
  unfold cond_Zopp. change (Zpos ml + Zpos mh') with (Zpos (ml + mh')).
  unfold binary_normalize, binary_round.
  change (fexp prec emax) with fexp64.
  change (Zpos (digits2_pos (ml + mh'))) with (Zdigits2 (Zpos (ml + mh'))).
  set (S := Zpos (ml + mh')).
  assert (S = Zpos ml + Zpos mh * 2 ^ (eh - el)) as HS by (unfold S; lia).
  assert (0 < 2 ^ (eh - el)) as Hp by (apply Z.pow_pos_nonneg; lia).
  assert (Zpos ml <= Zpos mh * 2 ^ (eh - el)) as Hlm.
  { unfold ival in Hval.
    replace (eh + 1074) with (eh - el + (el + 1074)) in Hval by lia.
    rewrite (Z.pow_add_r 2 (eh - el) (el + 1074)) in Hval by lia.
    assert (0 < 2 ^ (el + 1074)) by (apply Z.pow_pos_nonneg; lia). nia. }
  set (c := fexp64 (Zdigits2 S + el)).
  assert (el <= c) as Hc.
  { unfold canonical in Cl. rewrite <- Cl at 1. apply fexp64_mono.
    assert (Zdigits2 (Zpos ml) <= Zdigits2 S) by (apply Zdigits2_mono; lia). lia. }
  assert ((let '(mz, ez) := shl_align (ml + mh') el c in
           binary_round_aux prec emax false (Zpos mz) ez loc_Exact)
          = binary_round_aux 53 1024 false S el loc_Exact) as ->.
  { unfold shl_align. destruct (c - el) eqn:Ec; try lia; reflexivity. }
  destruct (round_desc S el loc_Exact ltac:(lia) Hc)
    as (q & Q & E & Heq & _ & Hq & HE & HQ & HQ0 & Hcan).
  fold c in Hq, HE, HQ. specialize (Hq eq_refl).
  exists Q, E. split; [exact Heq|]. split; [assumption|].
  split; [destruct Hcan; [left | right]; assumption|].
  rewrite (ival_pack_value q Q E c) by lia.
  set (k := c - el) in *.
  assert (0 < 2 ^ k) as Hpk by (apply Z.pow_pos_nonneg; unfold k; lia).
  assert (2 * Zpos ml <= q * 2 ^ k) as Hlow.
  { destruct (Z.eq_dec k 0) as [Hk0|Hk0].
    - rewrite Hk0 in *. rewrite rne_0 in Hq. simpl. lia.
    - destruct (Z.eq_dec k 1) as [Hk1|Hk1].
      + rewrite Hk1 in *. change (2 ^ 1) with 2.
        assert (Zpos ml <= q); [|lia].
        rewrite Hq. apply rne_ge_grid; [lia | lia |]. change (2 ^ 1) with 2. lia.
      + assert (2 <= k) as Hk2 by (unfold k in *; lia).
        assert (Zdigits2 S = 53 + k) as HdS
          by (unfold k, c, fexp64 in *; lia).
        pose proof (Zdigits2_lower S ltac:(lia)) as HlS. rewrite HdS in HlS.
        replace (53 + k - 1) with (52 + k) in HlS by lia.
        rewrite Z.pow_add_r in HlS by lia.
        assert (2 ^ 52 <= q)
          by (rewrite Hq; apply rne_ge_grid; [lia | lia | exact HlS]).
        assert (2 ^ 2 <= 2 ^ k) by (apply Z.pow_le_mono_r; lia).
        change (2 ^ 2) with 4 in *. change (2 ^ 52) with 4503599627370496 in *.
        change (2 ^ 53) with 9007199254740992 in *. nia. }
  unfold ival.
  replace (c + 1074) with (k + (el + 1074)) by (unfold k; lia).
  rewrite (Z.pow_add_r 2 k (el + 1074)) by (unfold k; lia).
  assert (0 < 2 ^ (el + 1074)) by (apply Z.pow_pos_nonneg; lia). nia.
Qed.

(** Half a positive binary64 value is at least any multiple [L] of
    2^-1074 whose double the value is at least. *)
Lemma half_lower p E :
  canonical (Zpos p) E ->
  exists Q' E',
    div (S754_finite false p E) two = pack Q' E'
    /\ 0 <= Q' /\ (Q' = 0 \/ canonical Q' E')
    /\ forall L, 2 * L <= ival (Zpos p) E -> L <= ival Q' E'.
Proof.
  intros C. destruct (canonical_bounds (Zpos p) E ltac:(lia) C) as (HE & Hu & Hn).
  unfold div, two, SFdiv, SFdiv_core_binary. simpl xorb.
  change (fexp prec emax) with fexp64.
  change (Zdigits2 4503599627370496) with 53.
  set (d := Zdigits2 (Zpos p)).
  assert (d <= 53) as Hd by (apply Zdigits2_le_of_lt; lia).
  pose proof (Zdigits2_nonneg (Zpos p)) as Hd0. fold d in Hd0.
  set (e' := Z.min (fexp64 (d + E - (53 + -51))) (E - -51)).
  destruct (Z.eq_dec E (-1074)) as [HE0|HE0].
  - assert (e' = -1074) as He' by (unfold e', fexp64; lia).
    rewrite He'. replace (E - -51 - -1074) with 51 by lia.
    rewrite Z.shiftl_mul_pow2 by lia.
    pose proof (Z_div_mod (Zpos p * 2 ^ 51) 4503599627370496 ltac:(lia)) as Hdm.
    destruct (Z.div_eucl (Zpos p * 2 ^ 51) 4503599627370496) as [q0 r].
    destruct Hdm as [Heq Hr]. change (2 ^ 51) with 2251799813685248 in Heq.
    assert (0 <= q0) as Hq0 by lia.
    assert (q0 < 2 ^ 52) as Hq52 by (change (2 ^ 52) with 4503599627370496;
                                     change (2 ^ 53) with 9007199254740992 in Hu; lia).
    assert (Zdigits2 q0 <= 52) as Hdq by (apply Zdigits2_le_of_lt; lia).
    pose proof (Zdigits2_nonneg q0) as Hdq0.
    assert (fexp64 (Zdigits2 q0 + -1074) = -1074) as Hc by (unfold fexp64; lia).
    destruct (round_desc q0 (-1074) (new_location 4503599627370496 r) Hq0
                ltac:(rewrite Hc; lia))
      as (q & Q' & E' & Heq' & Hq & Hex & HE' & HQ & HQ0 & Hcan).
    rewrite Hc in Hq, Hex, HE', HQ. rewrite Z.sub_diag in Hq, Hex.
    change (2 ^ 0) with 1 in Hq. rewrite Z.div_1_r in Hq.
    exists Q', E'. split; [exact Heq'|]. split; [assumption|].
    split; [destruct Hcan; [left | right]; assumption|].
    intros L Hval. rewrite (ival_pack_value q Q' E' (-1074)) by lia.
    unfold ival in Hval. rewrite HE0 in Hval. simpl in Hval |- *. lia.
  - assert (d = 53) as Hd53.
    { specialize (Hn ltac:(lia)).
      pose proof (Zdigits2_ge_of_le (Zpos p) 52 ltac:(lia) Hn). lia. }
    assert (exists mq, e' <= E - 1 /\
              (let '(q, r) := Z.div_eucl
                 match E - -51 - e' with
                 | 0 => Zpos p
                 | Zpos _ => Z.shiftl (Zpos p) (E - -51 - e')
                 | Zneg _ => 0
                 end 4503599627370496 in
               (q, e', new_location 4503599627370496 r))
              = (mq, e', loc_Exact)
              /\ mq = Zpos p * 2 ^ (E - 1 - e')) as (mq & He' & -> & Hmq).
    { destruct (Z.eq_dec E (-1073)) as [->|HE1].
      - assert (e' = -1074) as -> by (unfold e', fexp64; lia).
        exists (Zpos p). split; [lia|].
        change (-1073 - -51 - -1074) with 52.
        rewrite Z.shiftl_mul_pow2 by lia.
        pose proof (Z_div_mod (Zpos p * 2 ^ 52) 4503599627370496 ltac:(lia)) as Hdm.
        destruct (Z.div_eucl (Zpos p * 2 ^ 52) 4503599627370496) as [q0 r].
        destruct Hdm as [Heq Hr]. change (2 ^ 52) with 4503599627370496 in Heq.
        assert (q0 = Zpos p /\ r = 0) as [-> ->] by lia.
        rewrite new_location_0. split; [reflexivity | simpl; lia].
      - assert (e' = E - 2) as -> by (unfold e', fexp64; lia).
        exists (2 * Zpos p). split; [lia|].
        replace (E - -51 - (E - 2)) with 53 by lia.
        rewrite Z.shiftl_mul_pow2 by lia.
        pose proof (Z_div_mod (Zpos p * 2 ^ 53) 4503599627370496 ltac:(lia)) as Hdm.
        destruct (Z.div_eucl (Zpos p * 2 ^ 53) 4503599627370496) as [q0 r].
        destruct Hdm as [Heq Hr]. change (2 ^ 53) with 9007199254740992 in Heq.
        assert (q0 = 2 * Zpos p /\ r = 0) as [-> ->] by lia.
        rewrite new_location_0. split; [reflexivity|].
        replace (E - 1 - (E - 2)) with 1 by lia. simpl; lia. }
    assert (-1074 <= e') as He'0 by (unfold e', fexp64; lia).
    assert (0 < 2 ^ (E - 1 - e')) as Hp by (apply Z.pow_pos_nonneg; lia).
    assert (Zdigits2 mq = 53 + (E - 1 - e')) as Hdmq
      by (rewrite Hmq, Zdigits2_shift by lia; fold d; lia).
    assert (fexp64 (Zdigits2 mq + e') = E - 1) as Hc
      by (rewrite Hdmq; unfold fexp64; lia).
    destruct (round_desc mq e' loc_Exact ltac:(lia) ltac:(rewrite Hc; lia))
      as (q & Q' & E' & Heq' & _ & Hex & HE' & HQ & HQ0 & Hcan).
    rewrite Hc in Hex, HE', HQ. specialize (Hex eq_refl).
    assert (q = Zpos p) as Hq.
    { rewrite Hex, Hmq. unfold rne.
      rewrite Z.div_mul, Z.mod_mul by lia. simpl.
      destruct (2 ^ (E - 1 - e')) eqn:E2; try lia; try reflexivity. }
    exists Q', E'. split; [exact Heq'|]. split; [assumption|].
    split; [destruct Hcan; [left | right]; assumption|].
    intros L Hval. rewrite (ival_pack_value q Q' E' (E - 1)) by lia.
    unfold ival in Hval. rewrite Hq.
    replace (E + 1074) with (Z.succ (E - 1 + 1074)) in Hval by lia.
    rewrite Z.pow_succ_r in Hval by lia. lia.
Qed.

(** A binary64 value is at most a rounding result of at least its
    value. *)
Lemma finite_le_pack ml el Q E :
  canonical (Zpos ml) el -> 0 <= Q -> (Q = 0 \/ canonical Q E) ->
  ival (Zpos ml) el <= ival Q E ->
  leb (S754_finite false ml el) (pack Q E) = true.
Proof.
  intros Cl HQ Hcan Hval.
  destruct (canonical_bounds (Zpos ml) el ltac:(lia) Cl) as (Hel & _ & _).
  assert (0 < ival (Zpos ml) el) as Hpos.
  { unfold ival. apply Z.mul_pos_pos; [lia | apply Z.pow_pos_nonneg; lia]. }
  destruct Q as [|p|p]; try lia.
  { unfold ival in Hval at 2. simpl in Hval. lia. }
  destruct Hcan as [|CQ]; [discriminate|].
  unfold pack. destruct (Z.leb E 971); [|reflexivity].
  apply leb_finite. apply canonical_order in Hval; try lia; assumption.
Qed.

(** The mean of two latencies [lo <= hi], as [statistics.median]
    computes it, is at least [lo], and is itself zero, a positive binary64
    number or infinity. *)
Theorem mean_ge_lower lo hi :
  nonneg64 lo = true -> nonneg64 hi = true -> leb lo hi = true ->
  leb lo (div (add lo hi) two) = true
  /\ nonneg64 (div (add lo hi) two) = true.
Proof.
  intros Vl Vh Hle.
  destruct hi as [[]|[]| |[] mh eh]; try discriminate.
  - destruct lo as [[]|[]| |[] ml el]; try discriminate. split; reflexivity.
  - destruct lo as [[]|[]| |[] ml el]; try discriminate; split; reflexivity.
  - apply nonneg64_finite in Vh as [Ch Heh].
    destruct lo as [[]|[]| |[] ml el]; try discriminate.
    + change (add (S754_zero false) (S754_finite false mh eh))
        with (S754_finite false mh eh).
      destruct (half_lower mh eh Ch) as (Q' & E' & -> & HQ' & Hcan' & _).
      assert (nonneg64 (pack Q' E') = true) as Hv by now apply nonneg64_pack.
      split; [now apply nonneg64_zero_leb | exact Hv].
    + apply nonneg64_finite in Vl as [Cl Hel].
      apply leb_finite in Hle.
      assert (ival (Zpos ml) el <= ival (Zpos mh) eh) as Hval
        by (apply canonical_order; auto; lia).
      destruct (add_lower ml el mh eh Cl Ch ltac:(lia) Hval)
        as (Q & E & -> & HQ & Hcan & Hsum).
      destruct (canonical_bounds (Zpos ml) el ltac:(lia) Cl) as (Hel' & _ & _).
      assert (0 < ival (Zpos ml) el) as Hpos.
      { unfold ival. apply Z.mul_pos_pos; [lia | apply Z.pow_pos_nonneg; lia]. }
      destruct Q as [|p|p]; try lia.
      { unfold ival in Hsum at 2. simpl in Hsum. lia. }
      destruct Hcan as [|CQ]; [discriminate|].
      unfold pack. destruct (Z.leb E 971); [|split; reflexivity].
      destruct (half_lower p E CQ) as (Q' & E' & -> & HQ' & Hcan' & Hlow).
      split; [|now apply nonneg64_pack].
      apply finite_le_pack; auto.
Qed.

End MeanFacts.

(** * Further properties of [metrics.py], by source function *)

Import PyStr PyStrFacts Re ReFacts Parser ParserFacts Binary64 Py Metrics.
Import FoldFacts Rounding FloatOrder RoundingValue PercentileFacts.
Import AnalyzerFacts AccessorFacts.
Import RecordFacts AggregateFacts LinesFacts SummaryFacts OrderFacts.
Import GrammarFacts LogLineFacts QuotientFacts NumeralFacts Report ReportFacts
  MeanFacts.
Local Open Scope Z_scope.

(** ** [LOG_PATTERN] and [parse_line] *)

(** X1. [parse_line] returns a dictionary exactly for the lines that,
    once trimmed, begin with a well-formed line of the log format, and the
    dictionary holds the nine fields of that line; what follows the closing
    quote of the cache status is free. *)
Theorem X1_parse_line_grammar (line : string) (parsed : groupdict) :
  parse_line line = Some parsed
  <-> exists e rest,
        well_formed e = true
        /\ strip line = (log_line e ++ rest)%string
        /\ parsed = groups e.
Proof.
  rewrite parse_line_det. split.
  - intros H. destruct (match_log_inv _ _ H) as (rest & Hw & Hs & Hp).
    eauto.
  - intros (e & rest & Hw & -> & ->). now apply match_log_line.
Qed.

(** X2. A well-formed line of the log format is parsed back to its
    fields, whatever white space precedes it and whatever text follows
    it. *)
Theorem X2_parse_line_round_trip (e : entry) (pad rest : string) :
  well_formed e = true ->
  all_in is_space pad = true ->
  parse_line (pad ++ log_line e ++ rest)%string = Some (groups e).
Proof.
  intros Hw Hp. now apply parse_log_line.
Qed.

Definition entry_hit : entry :=
  mkEntry "192.168.1.100" "27/Oct/2025:10:00:00 +0000" "GET" "/api/static"
    "HTTP/1.1" "200" "1234" "0.050" "HIT".

Lemma X2_witness :
  parse_line ("  " ++ log_line entry_hit ++ " trailing text")%string
  = Some (groups entry_hit).
Proof.
  apply (X2_parse_line_round_trip entry_hit "  " " trailing text");
    vm_compute; reflexivity.
Defined.

(** ** [process_log_line] *)

(** X3. [process_log_line] never decrements: whatever the line and the
    aggregate, and whether the call returns or raises the [ValueError] of
    [int], no counter is lower afterwards, and the latencies are the
    former ones followed by at most one more. *)
Theorem X3_process_log_line_monotone (line : string) (m : CacheMetrics) :
  exists m',
    process_log_line_on line m
    = (if convertible line then Ret tt else Raise ValueError, m')
    /\ (forall f, counter_of f m <= counter_of f m')
    /\ (latencies m' = latencies m
        \/ exists x, latencies m' = latencies m ++ [x]).
Proof.
  destruct (process_log_line_on_after line m) as [Hrun _].
  exists (after line m). split; [exact Hrun|].
  rewrite after_plus. rewrite after_record.
  destruct (record_of line) as [r|] eqn:Er.
  - assert (int_outcome (r_status r) /\ int_outcome (r_bytes r)) as [Hs Hb].
    { destruct (parse_line line) as [parsed|] eqn:Hp.
      - destruct (record_of_parsed _ _ Hp) as (r' & Hr' & H1 & H2 & _).
        rewrite Er in Hr'. injection Hr' as <-. auto.
      - apply record_of_none in Hp. congruence. }
    destruct (count_new_nonneg r Hs Hb) as [Hc Hl].
    split.
    + intros f. specialize (Hc f). destruct m, f; simpl in *; lia.
    + destruct m; simpl. destruct Hl as [->|[x ->]]; [left | right; exists x];
        now rewrite ?app_nil_r.
  - rewrite plus_new_r. split; [intros f; lia | now left].
Qed.

(** ** [process_log_content] *)

(** [process_log_content] leaves the aggregate of the lines it got to in
    a new object, the analyzer's [metrics], and returns that object unless
    a line made [process_log_line] raise. *)
Lemma process_log_content_result (w : world) (self : ref) (content : string) :
  exists r w',
    process_log_content self content w
    = (if completes content then Ret r else Raise ValueError, w')
    /\ get_metrics self w' = (Ret r, w')
    /\ objects w' !! r = Some (progress content).
Proof.
  rewrite process_log_content_run. eexists _, _. split; [reflexivity|].
  unfold get_metrics. simpl. rewrite !lookup_insert_eq. auto.
Qed.

(** X4. What [process_log_content] does, said without a loop. It
    returns when every record of the text is complete, that is when [int]
    converts the status and the bytes of every line that parses, and
    raises [ValueError] otherwise. The object it leaves as the analyzer's
    [metrics], which is the one it returns, holds the summary of the
    records it got to, all of them when it returns: their number, for each
    cache status the number of them with that trimmed status, the numbers
    of them with a status code in [500, 600) and in [400, 500), the sum of
    their bytes, and the latencies that are numbers, in the order of the
    lines. Blank lines and lines that do not parse count for nothing:
    [process_log_line] on every line of the text, the blank ones too,
    leaves the summary of all the records. *)
Theorem X4_process_log_content_counts (w : world) (self : ref) (content : string) :
  let records := omap record_of (splitlines content) in
  (exists r w',
     process_log_content self content w
     = (if forallb complete records then Ret r else Raise ValueError, w')
     /\ get_metrics self w' = (Ret r, w')
     /\ objects w' !! r = Some (summary (got_to records)))
  /\ (forallb complete records = true -> got_to records = records)
  /\ run (splitlines content) = summary records.
Proof.
  intros records. split; [|split; [apply got_to_all | apply run_summary]].
  destruct (process_log_content_result w self content) as (r & w' & H & Hg & Ho).
  exists r, w'. unfold records.
  now rewrite <- completes_records, <- progress_summary.
Qed.

(** The lines of two texts joined by a line feed are gone through when
    the lines of both are. *)
Lemma completes_join a b :
  completes (a ++ String LF b)%string = completes a && completes b.
Proof.
  rewrite !completes_records. unfold splitlines.
  rewrite (records_join b (String.length a) a "") by lia.
  apply forallb_app.
Qed.

(** X5. The analysis of two texts joined by a line feed is the analyses
    of the two put together. When [int] converts the status and the bytes
    of every line of both, [process_log_content] returns for the joined
    text as it does for each of the two, and in the object it returns for
    the joined text each counter is the sum of the counters of the objects
    it returns for the two texts, and the latencies of the second follow
    those of the first. *)
Theorem X5_aggregate_join (w wa wb : world) (self : ref) (a b : string) :
  completes a = true -> completes b = true ->
  exists r w' ra wa' rb wb' ma mb,
    process_log_content self (a ++ String LF b)%string w = (Ret r, w')
    /\ process_log_content self a wa = (Ret ra, wa')
    /\ process_log_content self b wb = (Ret rb, wb')
    /\ objects wa' !! ra = Some ma /\ objects wb' !! rb = Some mb
    /\ objects w' !! r = Some (plus ma mb).
Proof.
  intros Ca Cb.
  assert (completes (a ++ String LF b)%string = true) as Cab
    by (rewrite completes_join, Ca, Cb; reflexivity).
  destruct (process_log_content_result w self (a ++ String LF b)%string)
    as (r & w' & H & _ & Ho).
  destruct (process_log_content_result wa self a) as (ra & wa' & Ha & _ & Hoa).
  destruct (process_log_content_result wb self b) as (rb & wb' & Hb & _ & Hob).
  rewrite Cab in H. rewrite Ca in Ha. rewrite Cb in Hb.
  rewrite progress_completes in Ho, Hoa, Hob by assumption.
  exists r, w', ra, wa', rb, wb', (aggregate a), (aggregate b).
  repeat (split; [assumption|]).
  rewrite Ho. f_equal.
  rewrite !aggregate_summary. unfold splitlines.
  rewrite (records_join b (String.length a) a "") by lia.
  rewrite <- !fold_count_summary. apply fold_count_app.
Qed.

Lemma X5_witness :
  exists r w' ra wa' rb wb' ma mb,
    process_log_content 1%positive (sample_log ++ String LF sample_log)%string
      new_analyzer_world = (Ret r, w')
    /\ process_log_content 1%positive sample_log new_analyzer_world = (Ret ra, wa')
    /\ process_log_content 1%positive sample_log new_analyzer_world = (Ret rb, wb')
    /\ objects wa' !! ra = Some ma /\ objects wb' !! rb = Some mb
    /\ objects w' !! r = Some (plus ma mb).
Proof.
  apply (X5_aggregate_join new_analyzer_world new_analyzer_world
           new_analyzer_world 1%positive sample_log sample_log);
    vm_compute; reflexivity.
Defined.

(** X6. Line endings do not matter: for a text whose line feeds are
    each written as a carriage return and a line feed,
    [process_log_content] ends as it does for the text itself, returning
    or raising [ValueError], and leaves as the analyzer's [metrics] an
    object with the same counters and latencies. *)
Theorem X6_aggregate_crlf (w1 w2 : world) (self : ref) (content : string) :
  exists r1 w1' r2 w2' m,
    process_log_content self (to_crlf content) w1
    = (if completes content then Ret r1 else Raise ValueError, w1')
    /\ process_log_content self content w2
       = (if completes content then Ret r2 else Raise ValueError, w2')
    /\ get_metrics self w1' = (Ret r1, w1')
    /\ get_metrics self w2' = (Ret r2, w2')
    /\ objects w1' !! r1 = Some m /\ objects w2' !! r2 = Some m
    /\ (completes content = true -> m = aggregate content).
Proof.
  assert (omap record_of (splitlines (to_crlf content))
          = omap record_of (splitlines content)) as Hr
    by (unfold splitlines;
        now rewrite (records_crlf (String.length content) content "") by lia).
  destruct (process_log_content_result w1 self (to_crlf content))
    as (r1 & w1' & H1 & Hg1 & Ho1).
  destruct (process_log_content_result w2 self content)
    as (r2 & w2' & H2 & Hg2 & Ho2).
  rewrite completes_records, Hr, <- completes_records in H1.
  rewrite progress_summary, Hr, <- progress_summary in Ho1.
  exists r1, w1', r2, w2', (progress content).
  repeat (split; [assumption|]). apply progress_completes.
Qed.

(** X7. The order of the lines does not matter to the counters, to the
    five statistics nor to the reports: two sequences of lines that are
    permutations of each other leave the same counters, the same latencies
    up to their order, the same hit ratio, error rate and percentiles, and
    the same [to_dict] and summary text. *)
Theorem X7_line_order (lines1 lines2 : list string) :
  Permutation lines1 lines2 ->
  let m1 := run lines1 in
  let m2 := run lines2 in
  (forall f, counter_of f m1 = counter_of f m2)
  /\ Permutation (latencies m1) (latencies m2)
  /\ hit_ratio m1 = hit_ratio m2 /\ error_rate m1 = error_rate m2
  /\ p50_latency m1 = p50_latency m2 /\ p95_latency m1 = p95_latency m2
  /\ p99_latency m1 = p99_latency m2
  /\ to_dict m1 = to_dict m2 /\ summary_text m1 = summary_text m2.
Proof.
  intros P m1 m2.
  assert (Permutation (omap record_of lines1) (omap record_of lines2)) as Pr
    by now rewrite P.
  destruct (summary_perm _ _ Pr) as [Hc Hl].
  rewrite <- !run_summary in Hc, Hl. fold m1 m2 in Hc, Hl.
  assert (hit_ratio m1 = hit_ratio m2) as Hh.
  { unfold hit_ratio.
    now rewrite (Hc Cache_hits : cache_hits m1 = _),
      (Hc Cache_misses : cache_misses m1 = _). }
  assert (error_rate m1 = error_rate m2) as He.
  { unfold error_rate.
    now rewrite (Hc Total_requests : total_requests m1 = _),
      (Hc Error_5xx : error_5xx m1 = _), (Hc Error_4xx : error_4xx m1 = _). }
  assert (p50_latency m1 = p50_latency m2 /\ p95_latency m1 = p95_latency m2
          /\ p99_latency m1 = p99_latency m2) as (H50 & H95 & H99).
  { apply percentiles_sorted, sorted_perm_eq; [exact Hl|].
    apply (inv_latencies_binary64 _
             (reachable_invariant _ (run_reachable lines1))). }
  assert (len (latencies m1) = len (latencies m2)) as Hlen
    by (unfold len; now rewrite Hl).
  destruct (reports_equal m1 m2 Hc Hlen Hh He H50 H95 H99) as [Hd Ht].
  repeat (split; [assumption|]). assumption.
Qed.

Lemma X7_witness :
  let m1 := run [line_hit; line_two_dots] in
  let m2 := run [line_two_dots; line_hit] in
  (forall f, counter_of f m1 = counter_of f m2)
  /\ Permutation (latencies m1) (latencies m2)
  /\ hit_ratio m1 = hit_ratio m2 /\ error_rate m1 = error_rate m2
  /\ p50_latency m1 = p50_latency m2 /\ p95_latency m1 = p95_latency m2
  /\ p99_latency m1 = p99_latency m2
  /\ to_dict m1 = to_dict m2 /\ summary_text m1 = summary_text m2.
Proof.
  apply (X7_line_order [line_hit; line_two_dots] [line_two_dots; line_hit]).
  apply perm_swap.
Defined.

(** X8. In the aggregate after any sequence of lines no counter is
    negative, there are at most [total_requests] latencies, and every
    latency is zero, a positive binary64 number or infinity: never a NaN,
    never negative. *)
Theorem X8_reachable_bounds (lines : list string) :
  let m := run lines in
  (forall f, 0 <= counter_of f m)
  /\ len (latencies m) <= total_requests m
  /\ Forall (fun x => nonneg64 x = true /\ is_nan x = false
                      /\ leb zero x = true) (latencies m).
Proof.
  intros m.
  destruct (reachable_invariant _ (run_reachable lines))
    as [Hn _ _ Hob Hnn Hlp Hlv]. fold m in Hn, Hob, Hnn, Hlp, Hlv.
  split; [|split; [exact Hob|]].
  - rewrite Forall_forall in Hn. intros f. apply Hn.
    destruct f; set_solver.
  - unfold no_nan in Hnn. rewrite Forall_forall in Hnn, Hlp, Hlv |- *.
    intros x Hx. repeat split; auto.
Qed.

(** ** [MetricsAnalyzer]: the objects *)

(** X9. The object [process_log_content] returns is the analyzer's own
    [metrics], not a copy: a later [process_log_line] on the same analyzer,
    whether it returns or raises, changes the object that was returned. *)
Theorem X9_snapshot_is_live (w : world) (self : ref) (content line : string) :
  completes content = true ->
  exists r w1 w2,
    process_log_content self content w = (Ret r, w1)
    /\ get_metrics self w1 = (Ret r, w1)
    /\ objects w1 !! r = Some (aggregate content)
    /\ process_log_line self line w1
       = (if convertible line then Ret tt else Raise ValueError, w2)
    /\ objects w2 !! r = Some (after line (aggregate content))
    /\ (parse_line line <> None ->
        total_requests (after line (aggregate content))
        = total_requests (aggregate content) + 1).
Proof.
  intros Hc.
  pose proof (process_log_content_run w self content) as H1. cbv zeta in H1.
  rewrite Hc, (progress_completes _ Hc) in H1.
  set (r := fresh (dom (objects w))) in *.
  set (w1 := mkWorld (<[r := aggregate content]> (objects w))
               (<[self := mkMetricsAnalyzer r]> (analyzers w))) in *.
  assert (analyzers w1 !! self = Some (mkMetricsAnalyzer r)) as Ha
    by apply lookup_insert_eq.
  assert (objects w1 !! r = Some (aggregate content)) as Ho
    by apply lookup_insert_eq.
  eexists r, w1, _. split; [exact H1|].
  split; [unfold get_metrics; now rewrite Ha|].
  split; [exact Ho|].
  split; [apply (process_log_line_run w1 self r _ line Ha Ho)|].
  split; [apply lookup_insert_eq|].
  intros Hp. rewrite after_record.
  destruct (record_of line) as [rec|] eqn:Er;
    [|now apply record_of_none in Er].
  apply counted_total.
Qed.

Lemma X9_witness :
  exists r w1 w2,
    process_log_content 1%positive sample_log new_analyzer_world = (Ret r, w1)
    /\ get_metrics 1%positive w1 = (Ret r, w1)
    /\ objects w1 !! r = Some (aggregate sample_log)
    /\ process_log_line 1%positive line_long_bytes w1
       = (if convertible line_long_bytes then Ret tt else Raise ValueError, w2)
    /\ objects w2 !! r = Some (after line_long_bytes (aggregate sample_log))
    /\ (parse_line line_long_bytes <> None ->
        total_requests (after line_long_bytes (aggregate sample_log))
        = total_requests (aggregate sample_log) + 1).
Proof.
  apply (X9_snapshot_is_live new_analyzer_world 1%positive sample_log
           line_long_bytes).
  vm_compute. reflexivity.
Defined.

(** X10. Two analyzers share nothing: each [MetricsAnalyzer()] has a
    [CacheMetrics] object of its own, and what one analyzer processes,
    whether the calls return or raise, leaves the aggregate of the other
    as it was. *)
Theorem X10_analyzers_isolated (w : world) (line content : string) :
  exists a b w1 w2 w3 r w4,
    MetricsAnalyzer_new w = (Ret a, w1)
    /\ MetricsAnalyzer_new w1 = (Ret b, w2)
    /\ a <> b
    /\ alive w2 a CacheMetrics_new /\ alive w2 b CacheMetrics_new
    /\ process_log_line a line w2
       = (if convertible line then Ret tt else Raise ValueError, w3)
    /\ alive w3 a (after line CacheMetrics_new)
    /\ alive w3 b CacheMetrics_new
    /\ process_log_content a content w3
       = (if completes content then Ret r else Raise ValueError, w4)
    /\ alive w4 a (progress content)
    /\ alive w4 b CacheMetrics_new
    /\ (completes content = true -> progress content = aggregate content).
Proof.
  set (a := fresh (dom (analyzers w))).
  set (ra := fresh (dom (objects w))).
  set (w1 := mkWorld (<[ra := CacheMetrics_new]> (objects w))
               (<[a := mkMetricsAnalyzer ra]> (analyzers w))).
  set (b := fresh (dom (analyzers w1))).
  set (rb := fresh (dom (objects w1))).
  set (w2 := mkWorld (<[rb := CacheMetrics_new]> (objects w1))
               (<[b := mkMetricsAnalyzer rb]> (analyzers w1))).
  assert (a <> b) as Hab.
  { intros E. pose proof (is_fresh (dom (analyzers w1))) as Hf. fold b in Hf.
    rewrite <- E in Hf. apply Hf. unfold w1. simpl. set_solver. }
  assert (ra <> rb) as Hr.
  { intros E. pose proof (is_fresh (dom (objects w1))) as Hf. fold rb in Hf.
    rewrite <- E in Hf. apply Hf. unfold w1. simpl. set_solver. }
  assert (analyzers w2 !! a = Some (mkMetricsAnalyzer ra)) as Ha2.
  { unfold w2, w1. simpl. rewrite lookup_insert_ne by congruence.
    apply lookup_insert_eq. }
  assert (analyzers w2 !! b = Some (mkMetricsAnalyzer rb)) as Hb2
    by apply lookup_insert_eq.
  assert (objects w2 !! ra = Some CacheMetrics_new) as Hoa2.
  { unfold w2, w1. simpl. rewrite lookup_insert_ne by congruence.
    apply lookup_insert_eq. }
  assert (objects w2 !! rb = Some CacheMetrics_new) as Hob2
    by apply lookup_insert_eq.
  set (w3 := mkWorld (<[ra := after line CacheMetrics_new]> (objects w2))
               (analyzers w2)).
  pose proof (process_log_content_run w3 a content) as H4. cbv zeta in H4.
  set (r := fresh (dom (objects w3))) in *.
  assert (rb <> r) as Hrb.
  { intros E. pose proof (is_fresh (dom (objects w3))) as Hf. fold r in Hf.
    rewrite <- E in Hf. apply Hf. unfold w3, w2. simpl. set_solver. }
  eexists a, b, w1, w2, w3, r, _.
  split; [reflexivity|]. split; [reflexivity|]. split; [exact Hab|].
  split; [now exists ra|]. split; [now exists rb|].
  split; [apply (process_log_line_run w2 a ra _ line Ha2 Hoa2)|].
  split; [exists ra; split; [exact Ha2 | apply lookup_insert_eq]|].
  split.
  { exists rb. split; [exact Hb2|]. unfold w3. simpl.
    rewrite lookup_insert_ne by congruence. exact Hob2. }
  split; [exact H4|].
  split; [exists r; split; apply lookup_insert_eq|].
  split; [|apply progress_completes].
  exists rb. simpl. split.
  - rewrite lookup_insert_ne by congruence. exact Hb2.
  - rewrite !lookup_insert_ne by congruence. exact Hob2.
Qed.

(** ** [to_dict] and [get_metrics_summary] *)

(** X11. On the aggregate after any sequence of lines, with fewer than
    2^47 latencies, [to_dict] returns a dictionary of sixteen entries: the
    ten counters, then [latencies], which holds the number of latencies and
    not the list, then the five statistics; the hit ratio and the error
    rate it reports lie between [0.0] and [1.0]. *)
Theorem X11_to_dict (lines : list string) :
  len (latencies (run lines)) < 2 ^ 47 ->
  let m := run lines in
  exists h e a b c,
    hit_ratio m = Ret h /\ error_rate m = Ret e /\ p50_latency m = Ret a
    /\ p95_latency m = Ret b /\ p99_latency m = Ret c
    /\ leb zero h = true /\ leb h one = true
    /\ leb zero e = true /\ leb e one = true
    /\ to_dict m
       = Ret [ ("total_requests", VInt (total_requests m));
               ("cache_hits", VInt (cache_hits m));
               ("cache_misses", VInt (cache_misses m));
               ("cache_bypass", VInt (cache_bypass m));
               ("cache_stale", VInt (cache_stale m));
               ("cache_updating", VInt (cache_updating m));
               ("cache_revalidated", VInt (cache_revalidated m));
               ("error_5xx", VInt (error_5xx m));
               ("error_4xx", VInt (error_4xx m));
               ("total_bytes", VInt (total_bytes m));
               ("latencies", VInt (len (latencies m)));
               ("hit_ratio", VFloat h);
               ("error_rate", VFloat e);
               ("p50_latency", VFloat a);
               ("p95_latency", VFloat b);
               ("p99_latency", VFloat c) ]%string.
Proof.
  intros Hlen m.
  destruct (run_statistics lines Hlen)
    as (h & e & a & b & c & Hh & He & Ha & Hb & Hc & Hh0 & Hh1 & He0 & He1).
  fold m in Hh, He, Ha, Hb, Hc.
  exists h, e, a, b, c. repeat (split; [assumption|]).
  unfold to_dict. rewrite Hh, He, Ha, Hb, Hc. reflexivity.
Qed.

Lemma X11_witness :
  let m := run sample_log_lines in
  exists h e a b c,
    hit_ratio m = Ret h /\ error_rate m = Ret e /\ p50_latency m = Ret a
    /\ p95_latency m = Ret b /\ p99_latency m = Ret c
    /\ leb zero h = true /\ leb h one = true
    /\ leb zero e = true /\ leb e one = true
    /\ to_dict m
       = Ret [ ("total_requests", VInt (total_requests m));
               ("cache_hits", VInt (cache_hits m));
               ("cache_misses", VInt (cache_misses m));
               ("cache_bypass", VInt (cache_bypass m));
               ("cache_stale", VInt (cache_stale m));
               ("cache_updating", VInt (cache_updating m));
               ("cache_revalidated", VInt (cache_revalidated m));
               ("error_5xx", VInt (error_5xx m));
               ("error_4xx", VInt (error_4xx m));
               ("total_bytes", VInt (total_bytes m));
               ("latencies", VInt (len (latencies m)));
               ("hit_ratio", VFloat h);
               ("error_rate", VFloat e);
               ("p50_latency", VFloat a);
               ("p95_latency", VFloat b);
               ("p99_latency", VFloat c) ]%string.
Proof.
  apply (X11_to_dict sample_log_lines). vm_compute. reflexivity.
Defined.

(** A request whose bytes field is a 9 followed by 314 zeros. *)
Definition line_huge_bytes : string :=
  sample_line "192.168.1.100" "00" "/api/static" "200"
    (String "9" (zeros 314)) "0.050" "HIT".

(** X12. [get_metrics_summary] can raise where the analysis cannot: on
    the aggregate after any sequence of lines, with fewer than 2^47
    latencies, it returns its text when [total_bytes] is below 2^1043, and
    raises [OverflowError], from the division by [1024*1024], when
    [total_bytes] is 2^1044 or more. *)
Theorem X12_get_metrics_summary (w : world) (self r : ref) (lines : list string) :
  len (latencies (run lines)) < 2 ^ 47 ->
  analyzers w !! self = Some (mkMetricsAnalyzer r) ->
  objects w !! r = Some (run lines) ->
  (total_bytes (run lines) < 2 ^ 1043 ->
   exists text, get_metrics_summary self w = (Ret text, w))
  /\ (2 ^ 1044 <= total_bytes (run lines) ->
      get_metrics_summary self w = (Raise OverflowError, w)).
Proof.
  intros Hlen Ha Ho.
  destruct (run_statistics lines Hlen)
    as (h & e & a & b & c & Hh & He & Hp50 & Hp95 & Hp99 & _).
  assert (0 <= total_bytes (run lines)) as Hb.
  { destruct (reachable_invariant _ (run_reachable lines)) as [Hn _ _ _ _ _ _].
    rewrite Forall_forall in Hn. apply (Hn Total_bytes). set_solver. }
  destruct (megabytes_cases _ Hb) as [Hfin Hinf].
  assert (get_metrics_summary self w = (summary_text (run lines), w)) as ->.
  { unfold get_metrics_summary, get_metrics, mbind, M_bind.
    rewrite Ha. cbn [metrics]. now rewrite Ho. }
  unfold summary_text. rewrite Hh, He, Hp50, Hp95, Hp99.
  cbn [mbind outcome_bind]. rewrite !float_mul_100, !float_mul_1000.
  cbn [mbind outcome_bind]. split.
  - intros Hlt. destruct (Hfin Hlt) as [x Hx]. eexists. rewrite Hx. reflexivity.
  - intros Hge. rewrite (Hinf Hge). reflexivity.
Qed.

Definition huge_bytes_world : world :=
  mkWorld {[ 1%positive := run [line_huge_bytes] ]}
          {[ 1%positive := mkMetricsAnalyzer 1%positive ]}.

Lemma X12_witness :
  (total_bytes (run [line_huge_bytes]) < 2 ^ 1043 ->
   exists text, get_metrics_summary 1%positive huge_bytes_world
                = (Ret text, huge_bytes_world))
  /\ (2 ^ 1044 <= total_bytes (run [line_huge_bytes]) ->
      get_metrics_summary 1%positive huge_bytes_world
      = (Raise OverflowError, huge_bytes_world)).
Proof.
  apply (X12_get_metrics_summary huge_bytes_world 1%positive 1%positive
           [line_huge_bytes]).
  - vm_compute. reflexivity.
  - vm_compute. reflexivity.
  - vm_compute. reflexivity.
Defined.

(** ** The latency of a record *)

(** X13. The latency of a line that parses is kept exactly when
    [process_log_line] gets to it, that is when [int] converts the status
    and the bytes, and the field has at most one point and at least one
    digit; the value kept is the binary64 value nearest to the number the
    digits spell, scaled by the digits after the point. Fields such as
    [1.2.3] or a lone point leave the latencies as they are, and so does a
    line on which [int] raises. *)
Theorem X13_latency_recorded (line lat : string) (m : CacheMetrics) :
  (parsed ← parse_line line; parsed !! "latency"%string) = Some lat ->
  exists m',
    process_log_line_on line m
    = (if convertible line then Ret tt else Raise ValueError, m')
    /\ latencies m'
       = if convertible line
            && (Nat.leb (points lat) 1 && Nat.leb 1 (digits lat))
         then latencies m ++ [of_decimal (spelled 0 lat) (decimals lat)]
         else latencies m.
Proof.
  destruct (parse_line line) as [parsed|] eqn:Hp; [|discriminate].
  cbn [mbind option_bind]. intros Hlat.
  destruct (process_log_line_on_after line m) as [Hrun _].
  exists (after line m). split; [exact Hrun|].
  destruct (parse_line_fields _ _ Hp) as [F _].
  pose proof (get_latency _ F) as E. rewrite Hlat in E. injection E as E.
  destruct (latency_chars _ F) as [Hall _]. rewrite <- E in Hall.
  destruct (record_of_parsed _ _ Hp)
    as (r & Hr & _ & _ & _ & (lat' & Hl' & Hrl) & Hc).
  rewrite Hlat in Hl'. injection Hl' as <-.
  rewrite after_record, Hr, <- Hc.
  rewrite (py_float_numeral lat Hall) in Hrl.
  destruct r as [cs st bs l], m. simpl in Hrl. subst l.
  unfold count, complete. simpl.
  destruct st, bs; simpl;
    destruct (Nat.leb (points lat) 1 && Nat.leb 1 (digits lat));
    counted_cases; reflexivity.
Qed.

Lemma X13_witness :
  exists m',
    process_log_line_on line_two_dots CacheMetrics_new
    = (if convertible line_two_dots then Ret tt else Raise ValueError, m')
    /\ latencies m'
       = if convertible line_two_dots
            && (Nat.leb (points "1.2.3") 1 && Nat.leb 1 (digits "1.2.3"))
         then latencies CacheMetrics_new
              ++ [of_decimal (spelled 0 "1.2.3") (decimals "1.2.3")]
         else latencies CacheMetrics_new.
Proof.
  apply (X13_latency_recorded line_two_dots "1.2.3"%string CacheMetrics_new).
  vm_compute. reflexivity.
Defined.

(** ** [hit_ratio] and [error_rate] *)

Lemma ratio_extremes (a b : Z) :
  0 <= a <= b -> b < 2 ^ 53 ->
  exists x, (if Z.eqb b 0 then Ret zero else truediv a b) = Ret x
    /\ (x = zero <-> a = 0)
    /\ (x = one <-> 0 < a /\ a = b).
Proof.
  intros Hab Hb. destruct (Z.eqb_spec b 0) as [E|E].
  - exists zero. split; [reflexivity|]. split; split; try lia; try discriminate.
    intros _. reflexivity.
  - destruct (of_quotient_unit a b) as (Hfin & _); [lia | lia |].
    unfold truediv. rewrite (proj2 (Z.eqb_neq _ _) E), Hfin.
    eexists. split; [reflexivity|].
    destruct (Z.eq_dec a 0) as [->|Ha0].
    { rewrite of_quotient_zero by lia.
      split; split; try lia; try discriminate. reflexivity. }
    destruct (Z.eq_dec a b) as [->|Hne].
    { rewrite of_quotient_same by lia.
      split; split; try lia; try discriminate. reflexivity. }
    destruct (of_quotient_strict a b ltac:(lia) Hb) as [H0 H1].
    split; split; try lia; try contradiction.
Qed.

(** X14. With fewer than 2^53 requests counted, the hit ratio is [0.0]
    exactly when there is no hit and [1.0] exactly when there are hits and
    no miss; the error rate is [0.0] exactly when there is no error and
    [1.0] exactly when every request is an error. *)
Theorem X14_ratio_extremes (lines : list string) :
  total_requests (run lines) < 2 ^ 53 ->
  let m := run lines in
  exists h e,
    hit_ratio m = Ret h /\ error_rate m = Ret e
    /\ (h = zero <-> cache_hits m = 0)
    /\ (h = one <-> 0 < cache_hits m /\ cache_misses m = 0)
    /\ (e = zero <-> error_4xx m + error_5xx m = 0)
    /\ (e = one <-> 0 < total_requests m
                    /\ error_4xx m + error_5xx m = total_requests m).
Proof.
  intros Hlt m.
  destruct (reachable_invariant _ (run_reachable lines)) as [Hn He Hs _ _ _ _].
  fold m in Hn, He, Hs, Hlt. unfold status_sum in Hs.
  repeat (apply Forall_cons in Hn as [? Hn]). simpl in *.
  destruct (ratio_extremes (cache_hits m) (cache_hits m + cache_misses m)
              ltac:(lia) ltac:(lia)) as (h & Hh & Hh0 & Hh1).
  destruct (ratio_extremes (error_5xx m + error_4xx m) (total_requests m)
              ltac:(lia) ltac:(lia)) as (e & Hee & He0 & He1).
  exists h, e. unfold hit_ratio, error_rate.
  split; [exact Hh|]. split; [exact Hee|].
  split; [exact Hh0|]. split; [rewrite Hh1; lia|].
  split; [rewrite He0; lia | rewrite He1; lia].
Qed.

Lemma X14_witness :
  let m := run sample_log_lines in
  exists h e,
    hit_ratio m = Ret h /\ error_rate m = Ret e
    /\ (h = zero <-> cache_hits m = 0)
    /\ (h = one <-> 0 < cache_hits m /\ cache_misses m = 0)
    /\ (e = zero <-> error_4xx m + error_5xx m = 0)
    /\ (e = one <-> 0 < total_requests m
                    /\ error_4xx m + error_5xx m = total_requests m).
Proof.
  apply (X14_ratio_extremes sample_log_lines). vm_compute. reflexivity.
Defined.

(** ** The percentiles *)

(** X15. For a nonempty list of fewer than 2^47 latencies, each of them
    zero, a positive binary64 number or infinity, the three percentiles
    return; every observation, the P95 and the P99 lie between the least
    and the greatest observation, the P50 is at least the least
    observation, and none of the three is a NaN or negative. *)
Theorem X15_percentiles_in_range (self : CacheMetrics) :
  latencies self <> [] ->
  Forall (fun x => nonneg64 x = true) (latencies self) ->
  len (latencies self) < 2 ^ 47 ->
  let s := sorted (latencies self) in
  exists lo hi a b c,
    head s = Some lo /\ last s = Some hi
    /\ Forall (fun x => leb lo x = true /\ leb x hi = true) (latencies self)
    /\ p50_latency self = Ret a /\ p95_latency self = Ret b
    /\ p99_latency self = Ret c
    /\ leb lo a = true
    /\ leb lo b = true /\ leb b c = true /\ leb c hi = true
    /\ nonneg64 a = true /\ nonneg64 b = true /\ nonneg64 c = true.
Proof.
  intros Hne Hval Hlen s.
  assert (no_nan (latencies self)) as Hnan
    by (eapply Forall_impl; [exact Hval | apply nonneg64_no_nan]).
  set (n := len (latencies self)) in *.
  assert (0 < n) as Hn
    by (unfold n, len; destruct (latencies self); simpl; [congruence | lia]).
  assert (len s = n) as Hls by apply len_sorted.
  pose proof (sorted_ascending _ Hnan) as Hs. fold s in Hs.
  pose proof (sorted_no_nan _ Hnan) as Hsn. fold s in Hsn.
  assert (forall i x, s !! i = Some x -> nonneg64 x = true) as Hsv.
  { intros i x Hx. rewrite Forall_forall in Hval. apply Hval.
    rewrite <- (sorted_perm (latencies self)).
    eapply list_elem_of_lookup_2. exact Hx. }
  assert (forall i j x y, 0 <= i <= j -> s !! Z.to_nat i = Some x ->
            s !! Z.to_nat j = Some y -> leb x y = true) as Hord.
  { intros i j x y Hij Hx Hy.
    apply (strongly_sorted_lookup s (Z.to_nat i) (Z.to_nat j)); auto. lia. }
  destruct (lookup_in_range s 0 ltac:(lia)) as [lo Hlo].
  destruct (lookup_in_range s (n - 1) ltac:(lia)) as [hi Hhi].
  destruct (rank_latency_eval c_0_95 95 self rank_index_0_95 ltac:(lia) Hne Hlen)
    as (b & Hb & _ & Sb).
  destruct (rank_latency_eval c_0_99 99 self rank_index_0_99 ltac:(lia) Hne Hlen)
    as (c & Hc & _ & Sc).
  fold s n in Sb, Sc.
  pose proof (rank_in_range 95 n ltac:(lia) Hn) as R95.
  pose proof (rank_in_range 99 n ltac:(lia) Hn) as R99.
  assert (95 * n / 100 <= 99 * n / 100) as H2 by (apply Z.div_le_mono; lia).
  assert (0 <= n / 2 < n) as R50.
  { split; [apply Z.div_pos; lia | apply Z.div_lt_upper_bound; lia]. }
  assert (exists a, p50_latency self = Ret a /\ leb lo a = true
                    /\ nonneg64 a = true) as (a & Ha & Hla & Hva).
  { pose proof (median_eval (latencies self) Hne) as Hmed. cbv zeta in Hmed.
    fold s n in Hmed.
    assert (p50_latency self = median (latencies self)) as ->.
    { unfold p50_latency. destruct (latencies self); [congruence | reflexivity]. }
    destruct (Z.odd n) eqn:Eo.
    - destruct Hmed as (a & Ha & Sa). exists a. split; [exact Ha|].
      split; [apply (Hord 0 (n / 2)); auto; lia | eapply Hsv; exact Sa].
    - destruct Hmed as (x & y & Ha & Sx & Sy).
      assert (2 <= n) as Hn2.
      { destruct (Z.eq_dec n 1) as [E|E]; [rewrite E in Eo; discriminate | lia]. }
      assert (1 <= n / 2) by (apply Z.div_le_lower_bound; lia).
      assert (leb x y = true) as Hxy
        by (apply (Hord (n / 2 - 1) (n / 2)); auto; lia).
      destruct (mean_ge_lower x y (Hsv _ _ Sx) (Hsv _ _ Sy) Hxy) as [Hxa Hv].
      exists (div (add x y) two). split; [exact Ha|]. split; [|exact Hv].
      assert (leb lo x = true) as Hlx
        by (apply (Hord 0 (n / 2 - 1)); auto; lia).
      apply (leb_trans lo x _); auto using nonneg64_no_nan.
      + apply nonneg64_no_nan. eapply Hsv. exact Hlo.
      + apply nonneg64_no_nan. eapply Hsv. exact Sx. }
  exists lo, hi, a, b, c.
  split; [rewrite head_lookup; exact Hlo|].
  split.
  { rewrite last_lookup.
    replace (pred (length s)) with (Z.to_nat (n - 1)); [exact Hhi|].
    unfold len in Hls. lia. }
  split.
  { rewrite Forall_forall. intros x Hx.
    rewrite <- (sorted_perm (latencies self)) in Hx. fold s in Hx.
    apply list_elem_of_lookup_1 in Hx as [i Hi].
    assert (i < length s)%nat as Hlt by (eapply lookup_lt_Some; exact Hi).
    unfold len in Hls.
    replace i with (Z.to_nat (Z.of_nat i)) in Hi by lia.
    split; [apply (Hord 0 (Z.of_nat i)) | apply (Hord (Z.of_nat i) (n - 1))];
      auto; lia. }
  split; [exact Ha|]. split; [exact Hb|]. split; [exact Hc|].
  split; [exact Hla|].
  split; [apply (Hord 0 (95 * n / 100)); auto; lia|].
  split; [apply (Hord (95 * n / 100) (99 * n / 100)); auto; lia|].
  split; [apply (Hord (99 * n / 100) (n - 1)); auto; lia|].
  split; [exact Hva|]. split; eapply Hsv; eassumption.
Qed.

Lemma X15_witness :
  let self := run sample_log_lines in
  let s := sorted (latencies self) in
  exists lo hi a b c,
    head s = Some lo /\ last s = Some hi
    /\ Forall (fun x => leb lo x = true /\ leb x hi = true) (latencies self)
    /\ p50_latency self = Ret a /\ p95_latency self = Ret b
    /\ p99_latency self = Ret c
    /\ leb lo a = true
    /\ leb lo b = true /\ leb b c = true /\ leb c hi = true
    /\ nonneg64 a = true /\ nonneg64 b = true /\ nonneg64 c = true.
Proof.
  apply (X15_percentiles_in_range (run sample_log_lines)).
  - vm_compute. discriminate.
  - vm_compute. repeat constructor.
  - vm_compute. reflexivity.
Defined.

(** X16. On latencies none of which is a NaN: with no observation
    [p95_latency] and [p99_latency] return [0.0]; with at least one, and
    fewer than 2^47, they return observations, never a value in between;
    up to 100 observations the P99 is the last element of the sorted
    list, and up to 20 observations so is the P95. *)
Theorem X16_small_samples (self : CacheMetrics) :
  no_nan (latencies self) ->
  len (latencies self) < 2 ^ 47 ->
  (latencies self = [] ->
   p95_latency self = Ret zero /\ p99_latency self = Ret zero)
  /\ (latencies self <> [] ->
      exists b c,
        p95_latency self = Ret b /\ p99_latency self = Ret c
        /\ In b (latencies self) /\ In c (latencies self)
        /\ (len (latencies self) <= 100 ->
            last (sorted (latencies self)) = Some c)
        /\ (len (latencies self) <= 20 ->
            last (sorted (latencies self)) = Some b)).
Proof.
  intros _ Hlen. split.
  { intros E. unfold p95_latency, p99_latency, rank_latency. rewrite E. auto. }
  intros Hne.
  destruct (rank_latency_eval c_0_95 95 self rank_index_0_95 ltac:(lia) Hne Hlen)
    as (b & Hb & _ & Sb).
  destruct (rank_latency_eval c_0_99 99 self rank_index_0_99 ltac:(lia) Hne Hlen)
    as (c & Hc & _ & Sc).
  set (n := len (latencies self)) in *. set (s := sorted (latencies self)) in *.
  assert (0 < n) as Hn
    by (unfold n, len; destruct (latencies self); simpl; [congruence | lia]).
  assert (length s = Z.to_nat n) as Hls
    by (unfold s, n, len; rewrite sorted_length; lia).
  assert (forall i x, s !! i = Some x -> In x (latencies self)) as Hin.
  { intros i x Hx. apply list_elem_of_In.
    rewrite <- (sorted_perm (latencies self)).
    eapply list_elem_of_lookup_2. exact Hx. }
  exists b, c. split; [exact Hb|]. split; [exact Hc|].
  split; [eapply Hin; exact Sb|]. split; [eapply Hin; exact Sc|].
  split; intros Hsmall; fold n in Hsmall; rewrite last_lookup, Hls.
  - assert (99 * n / 100 = n - 1) as E
      by (symmetry; apply (Z.div_unique (99 * n) 100 (n - 1) (100 - n)); lia).
    rewrite E in Sc.
    replace (pred (Z.to_nat n)) with (Z.to_nat (n - 1)) by lia. exact Sc.
  - assert (95 * n / 100 = n - 1) as E
      by (symmetry; apply (Z.div_unique (95 * n) 100 (n - 1) (100 - 5 * n)); lia).
    rewrite E in Sb.
    replace (pred (Z.to_nat n)) with (Z.to_nat (n - 1)) by lia. exact Sb.
Qed.

Lemma X16_witness :
  let self := run sample_log_lines in
  (latencies self = [] ->
   p95_latency self = Ret zero /\ p99_latency self = Ret zero)
  /\ (latencies self <> [] ->
      exists b c,
        p95_latency self = Ret b /\ p99_latency self = Ret c
        /\ In b (latencies self) /\ In c (latencies self)
        /\ (len (latencies self) <= 100 ->
            last (sorted (latencies self)) = Some c)
        /\ (len (latencies self) <= 20 ->
            last (sorted (latencies self)) = Some b)).
Proof.
  apply (X16_small_samples (run sample_log_lines)).
  - vm_compute. repeat constructor.
  - vm_compute. reflexivity.
Defined.
